(** * probeml: radial basis function regression (src/probeml.py)

    A shallow embedding of the error metrics and of the [RBFnet] class:
    normalisation, centre placement, weight fitting, radius optimisation
    and prediction.

    The numeric code is written once, over an interface of scalar
    operations ([Scalar]), the way numpy code is written over a dtype.
    Two instances are given: the real numbers, where the algebraic
    properties of the code are stated (exact arithmetic), and IEEE 754
    binary64 as specified by [SpecFloat], numpy's float64, where what the
    code does with infinities and NaN is stated.  Arrays have the shapes
    the docstrings give them: [input[i,j]] is two-dimensional,
    [output[i]] one-dimensional.  Python exceptions are explicit results;
    the methods of [RBFnet] thread the object [self] and the standard
    output through a state monad in which a raised exception keeps the
    mutations made before it.  The routines of scikit-learn, numpy.linalg
    and scipy.optimize that the methods call are parameters of the
    model.  Reading data files, plotting and the experiment script at the
    end of the source are not modelled; [save] and [load] do nothing in
    the source. *)

From Stdlib Require Import Reals Lra Lia ZArith List String.
From Stdlib Require Import Floats.SpecFloat.
From stdpp Require Import base list.

Set Default Proof Using "Type".

(* ================================================================== *)
(** * Part I: definitions *)
(* ================================================================== *)

(** ** Exceptions and results *)

(** The Python exceptions the embedded code can raise. *)
Inductive exn :=
| ValueError        (* numpy: operands could not be broadcast together *)
| AssertionError    (* a failed [assert] *)
| TypeError         (* calling an object that is not callable *)
| AttributeError    (* reading an attribute that was never assigned *)
| IndexError        (* index out of bounds *)
| LinAlgError.      (* numpy.linalg failure *)

Inductive res (A : Type) :=
| Ok (a : A)
| Raise (e : exn).
Arguments Ok {A} a.
Arguments Raise {A} e.

Definition res_bind {A B} (r : res A) (k : A -> res B) : res B :=
  match r with
  | Ok a => k a
  | Raise e => Raise e
  end.

Notation "x <~ c ;; k" := (res_bind c (fun x => k))
  (at level 100, c at next level, right associativity).

(** ** Scalars *)

(** The operations the code uses on array elements.  [of_Z] is the
    conversion of a Python [int] (a literal, or [len(e)]) to the element
    type; [fmaximum] is [np.maximum]. *)
Class Scalar (T : Type) := {
  of_Z : Z -> T;
  fadd : T -> T -> T;
  fsub : T -> T -> T;
  fmul : T -> T -> T;
  fdiv : T -> T -> T;
  fsqrt : T -> T;
  fabs : T -> T;
  fmaximum : T -> T -> T
}.

(** Exact arithmetic: the real numbers.  There is no rounding, no
    overflow or underflow, no infinity and no NaN, and [x / 0] is 0: a
    statement at this instance is a statement of exact arithmetic, and
    says so. *)
#[export] Instance R_scalar : Scalar R := {|
  of_Z := IZR;
  fadd := Rplus;
  fsub := Rminus;
  fmul := Rmult;
  fdiv := Rdiv;
  fsqrt := sqrt;
  fabs := Rabs;
  fmaximum := Rmax
|}.

(** IEEE 754 binary64 (numpy's float64): 53 bits of precision, maximal
    exponent 1024, round to nearest even. *)
Module b64.
Definition prec : Z := 53.
Definition emax : Z := 1024.
Definition float64 := spec_float.

Definition is_nan (x : float64) : bool :=
  match x with S754_nan => true | _ => false end.

Definition isfinite (x : float64) : bool :=
  match x with
  | S754_zero _ | S754_finite _ _ _ => true
  | S754_infinity _ | S754_nan => false
  end.

(** Neither a zero nor a finite number: an infinity or a NaN. *)
Definition nonfinite (x : float64) : Prop :=
  match x with
  | S754_infinity _ | S754_nan => True
  | S754_zero _ | S754_finite _ _ _ => False
  end.

(** [+inf] or NaN: the non-finite values [np.abs] can return. *)
Definition nan_or_pinf (x : float64) : Prop :=
  match x with
  | S754_infinity false | S754_nan => True
  | _ => False
  end.

(** Exactly zero, of either sign. *)
Definition is_zero (x : float64) : Prop :=
  match x with
  | S754_zero _ => True
  | _ => False
  end.

Definition geb (x y : float64) : bool :=
  match SFcompare x y with
  | Some Gt | Some Eq => true
  | _ => false
  end.

(** [np.maximum]: "if one of the elements being compared is a NaN,
    then that element is returned". *)
Definition maximum (x y : float64) : float64 :=
  if is_nan x then x
  else if is_nan y then y
  else if geb x y then x else y.
End b64.

#[export] Instance b64_scalar : Scalar b64.float64 := {|
  of_Z := fun z => binary_normalize b64.prec b64.emax z 0 false;
  fadd := SFadd b64.prec b64.emax;
  fsub := SFsub b64.prec b64.emax;
  fmul := SFmul b64.prec b64.emax;
  fdiv := SFdiv b64.prec b64.emax;
  fsqrt := SFsqrt b64.prec b64.emax;
  fabs := SFabs;
  fmaximum := b64.maximum
|}.

(** ** The numpy operations used by the code *)

Module np.
Section Numpy.
Context {T : Type} `{Scalar T}.

(** A two-dimensional array: shape [(length rows, ncols)]. *)
Record matrix := Matrix { ncols : nat; rows : list (list T) }.

Definition nrows (A : matrix) : nat := length (rows A).

(** Every row has the declared number of columns. *)
Definition wf (A : matrix) : Prop :=
  Forall (fun r => length r = ncols A) (rows A).

(** A zero- or one-dimensional array, as held by the shift and scale
    attributes: the Python number of [__init__], [np.std(input)], or
    the per-axis result of a reduction over [axis=0]. *)
Inductive ndarray :=
| Scalar0 (x : T)
| Vec (v : list T).

(** Broadcasting of two axis lengths: equal, or one of them is 1. *)
Definition bshape (n m : nat) : res nat :=
  if Nat.eqb n m then Ok n
  else if Nat.eqb n 1 then Ok m
  else if Nat.eqb m 1 then Ok n
  else Raise ValueError.

(** The elementwise operation on two broadcast one-dimensional
    operands whose lengths passed [bshape]. *)
Definition bvec (f : T -> T -> T) (a b : list T) : list T :=
  match a, b with
  | [x], _ => map (f x) b
  | _, [y] => map (fun x => f x y) a
  | _, _ => zip_with f a b
  end.

(** [a op b] for one-dimensional arrays. *)
Definition broadcast1 (f : T -> T -> T) (a b : list T) : res (list T) :=
  _ <~ bshape (length a) (length b) ;;
  Ok (bvec f a b).

(** [A op p] for a two-dimensional [A] and a scalar or one-dimensional
    [p]: [p] is broadcast along the rows. *)
Definition broadcast2 (f : T -> T -> T) (A : matrix) (p : ndarray)
  : res matrix :=
  match p with
  | Scalar0 y =>
      Ok (Matrix (ncols A) (map (map (fun x => f x y)) (rows A)))
  | Vec v =>
      d <~ bshape (ncols A) (length v) ;;
      Ok (Matrix d (map (fun r => bvec f r v) (rows A)))
  end.

(** [np.zeros(n)] and [np.zeros((n, k))]. *)
Definition zeros (n : nat) : list T := repeat (of_Z 0) n.
Definition zeros2 (n k : nat) : matrix := Matrix k (repeat (zeros k) n).

(** [len(v)] as an array element. *)
Definition len (v : list T) : T := of_Z (Z.of_nat (length v)).

(** [np.sum(v)]: accumulation from zero, in the order of the array.
    (numpy adds eight or more contiguous float64 elements pairwise, so
    there its rounded result can differ in the last bits; fewer
    elements, and exact arithmetic, give the same value.) *)
Definition sum (v : list T) : T := fold_left fadd v (of_Z 0).

(** [np.mean(v)]: the sum divided by the number of elements. *)
Definition mean (v : list T) : T := fdiv (sum v) (len v).

(** The variance as numpy computes it for real arrays: the mean of the
    squared deviations from the mean. *)
Definition var (v : list T) : T :=
  let m := mean v in
  mean (map (fun x => let d := fsub x m in fmul d d) v).

(** [np.std(v)]. *)
Definition std (v : list T) : T := fsqrt (var v).

(** [np.abs(v)] and [v**2]. *)
Definition abs (v : list T) : list T := map fabs v.
Definition square (v : list T) : list T := map (fun x => fmul x x) v.

(** [np.max(v)]: reduction by [np.maximum]; an empty array raises. *)
Definition max (v : list T) : res T :=
  match v with
  | [] => Raise ValueError
  | x :: v' => Ok (fold_left fmaximum v' x)
  end.

(** Column [j] of [A], and the array flattened in row-major order. *)
Definition col (A : matrix) (j : nat) : list T :=
  map (fun r => nth j r (of_Z 0)) (rows A).
Definition flatten (A : matrix) : list T := concat (rows A).

(** [np.mean(A, axis=0)], [np.std(A, axis=0)] and [np.std(A)]. *)
Definition mean_axis0 (A : matrix) : list T :=
  map (fun j => mean (col A j)) (seq 0 (ncols A)).
Definition std_axis0 (A : matrix) : list T :=
  map (fun j => std (col A j)) (seq 0 (ncols A)).
Definition std_all (A : matrix) : T := std (flatten A).

(** [np.linalg.norm(v)]: the Euclidean norm, and
    [np.linalg.norm(A, axis=1)]: the norm of every row. *)
Definition norm (v : list T) : T := fsqrt (sum (square v)).
Definition norm_axis1 (A : matrix) : list T := map norm (rows A).

(** [A[j,:]] and [v[j]]. *)
Definition row (A : matrix) (j : nat) : res (list T) :=
  match rows A !! j with
  | Some r => Ok r
  | None => Raise IndexError
  end.
Definition item (v : list T) (j : nat) : res T :=
  match v !! j with
  | Some x => Ok x
  | None => Raise IndexError
  end.

(** [A[:,j] = v]: the column is overwritten in place; [v] has one
    entry per row, or a single entry that is broadcast. *)
Definition set_col (A : matrix) (j : nat) (v : list T) : res matrix :=
  if negb (Nat.ltb j (ncols A)) then Raise IndexError
  else if Nat.eqb (length v) (nrows A) then
    Ok (Matrix (ncols A) (zip_with (fun r x => <[j:=x]> r) (rows A) v))
  else
    match v with
    | [x] => Ok (Matrix (ncols A) (map (fun r => <[j:=x]> r) (rows A)))
    | _ => Raise ValueError
    end.

(** [a += b] on one-dimensional arrays: [b] is broadcast to the shape
    of [a]. *)
Definition iadd (a b : list T) : res (list T) :=
  if Nat.eqb (length b) (length a) then Ok (zip_with fadd a b)
  else
    match b with
    | [y] => Ok (map (fun x => fadd x y) a)
    | _ => Raise ValueError
    end.
End Numpy.
Arguments matrix T : clear implicits.
Arguments ndarray T : clear implicits.
End np.

(** ** Error metrics *)

Section Metrics.
Context {T : Type} `{Scalar T}.

Definition rms_error (true pred : list T) : res T :=
  e <~ np.broadcast1 fsub pred true ;;
  Ok (fsqrt (fdiv (np.sum (np.square e)) (np.len e))).

(** [(pred-true)/true] *)
Definition rel_err (true pred : list T) : res (list T) :=
  d <~ np.broadcast1 fsub pred true ;;
  np.broadcast1 fdiv d true.

Definition rms_rel_error (true pred : list T) : res T :=
  e <~ rel_err true pred ;;
  Ok (fsqrt (fdiv (np.sum (np.square e)) (np.len e))).

Definition max_abs_error (true pred : list T) : res T :=
  e <~ np.broadcast1 fsub pred true ;;
  np.max (np.abs e).

Definition max_rel_error (true pred : list T) : res T :=
  e <~ rel_err true pred ;;
  np.max (np.abs e).

Definition mean_abs_error (true pred : list T) : res T :=
  e <~ np.broadcast1 fsub pred true ;;
  Ok (np.mean (np.abs e)).

Definition mean_rel_error (true pred : list T) : res T :=
  e <~ rel_err true pred ;;
  Ok (np.mean (np.abs e)).

Definition error_bias (true pred : list T) : res T :=
  e <~ np.broadcast1 fsub pred true ;;
  Ok (np.mean e).

Definition rel_error_bias (true pred : list T) : res T :=
  e <~ rel_err true pred ;;
  Ok (np.mean e).

Definition error_std (true pred : list T) : res T :=
  e <~ np.broadcast1 fsub pred true ;;
  Ok (np.std e).

Definition rel_error_std (true pred : list T) : res T :=
  e <~ rel_err true pred ;;
  Ok (np.std e).
End Metrics.

(** The default kernel, [np.exp(-0.5*t**2)], in exact arithmetic. *)
Definition gaussian (t : R) : R := exp (- (5 / 10) * (t * t)).


(** ** The RBF network *)

Section Net.
Context {T : Type} `{Scalar T}.

(** What the code prints: the table header, and one progress row per
    reported iteration. *)
Inductive line :=
| Header
| Progress (it : nat) (radius error : T).

(** A Python object passed as [measure] or as [verbose]: a boolean, or
    a function of [(true_values, predicted_values)]. *)
Inductive pyobj :=
| PyBool (b : bool)
| PyFunction (f : list T -> list T -> res T).

(** [if o:] *)
Definition truth (o : pyobj) : bool :=
  match o with
  | PyBool b => b
  | PyFunction _ => true
  end.

(** [o(a, b)]: a [bool] is not callable. *)
Definition call (o : pyobj) (a b : list T) : res T :=
  match o with
  | PyFunction f => f a b
  | PyBool _ => Raise TypeError
  end.

(** The attributes of an [RBFnet] object.  [__init__] assigns the four
    normalisation attributes; the others do not exist until a method
    assigns them ([None] here), and reading them before that raises
    [AttributeError]. *)
Record RBFnet := mkRBFnet {
  input_shift : np.ndarray T;
  input_scale : np.ndarray T;
  output_shift : T;
  output_scale : T;
  centers : option (np.matrix T);
  coeffs : option (list T);
  residual : option (list T);
  rbf : option (T -> T);
  radius : option T;
  error : option T;
  fcall : option nat
}.

Definition __init__ : RBFnet := {|
  input_shift := np.Scalar0 (of_Z 0);
  input_scale := np.Scalar0 (of_Z 1);
  output_shift := of_Z 0;
  output_scale := of_Z 1;
  centers := None;
  coeffs := None;
  residual := None;
  rbf := None;
  radius := None;
  error := None;
  fcall := None
|}.

Definition set_output_shift (x : T) (n : RBFnet) : RBFnet :=
  mkRBFnet (input_shift n) (input_scale n) x (output_scale n) (centers n)
    (coeffs n) (residual n) (rbf n) (radius n) (error n) (fcall n).
Definition set_output_scale (x : T) (n : RBFnet) : RBFnet :=
  mkRBFnet (input_shift n) (input_scale n) (output_shift n) x (centers n)
    (coeffs n) (residual n) (rbf n) (radius n) (error n) (fcall n).
Definition set_input_shift (x : np.ndarray T) (n : RBFnet) : RBFnet :=
  mkRBFnet x (input_scale n) (output_shift n) (output_scale n) (centers n)
    (coeffs n) (residual n) (rbf n) (radius n) (error n) (fcall n).
Definition set_input_scale (x : np.ndarray T) (n : RBFnet) : RBFnet :=
  mkRBFnet (input_shift n) x (output_shift n) (output_scale n) (centers n)
    (coeffs n) (residual n) (rbf n) (radius n) (error n) (fcall n).
Definition set_centers (x : np.matrix T) (n : RBFnet) : RBFnet :=
  mkRBFnet (input_shift n) (input_scale n) (output_shift n) (output_scale n)
    (Some x) (coeffs n) (residual n) (rbf n) (radius n) (error n) (fcall n).
Definition set_coeffs (x : list T) (n : RBFnet) : RBFnet :=
  mkRBFnet (input_shift n) (input_scale n) (output_shift n) (output_scale n)
    (centers n) (Some x) (residual n) (rbf n) (radius n) (error n) (fcall n).
Definition set_residual (x : list T) (n : RBFnet) : RBFnet :=
  mkRBFnet (input_shift n) (input_scale n) (output_shift n) (output_scale n)
    (centers n) (coeffs n) (Some x) (rbf n) (radius n) (error n) (fcall n).
Definition set_rbf (x : T -> T) (n : RBFnet) : RBFnet :=
  mkRBFnet (input_shift n) (input_scale n) (output_shift n) (output_scale n)
    (centers n) (coeffs n) (residual n) (Some x) (radius n) (error n) (fcall n).
Definition set_radius (x : T) (n : RBFnet) : RBFnet :=
  mkRBFnet (input_shift n) (input_scale n) (output_shift n) (output_scale n)
    (centers n) (coeffs n) (residual n) (rbf n) (Some x) (error n) (fcall n).
Definition set_error (x : T) (n : RBFnet) : RBFnet :=
  mkRBFnet (input_shift n) (input_scale n) (output_shift n) (output_scale n)
    (centers n) (coeffs n) (residual n) (rbf n) (radius n) (Some x) (fcall n).
Definition set_fcall (x : nat) (n : RBFnet) : RBFnet :=
  mkRBFnet (input_shift n) (input_scale n) (output_shift n) (output_scale n)
    (centers n) (coeffs n) (residual n) (rbf n) (radius n) (error n) (Some x).

(** *** The monad of the methods

    A method runs on the object [self] and the standard output.  It
    yields a value or raises; either way the state it leaves is the
    state with every assignment made so far. *)
Record world := World { self : RBFnet; stdout : list line }.

Definition M (A : Type) : Type := world -> res A * world.

Definition ret {A} (a : A) : M A := fun w => (Ok a, w).

Definition bind {A B} (c : M A) (k : A -> M B) : M B :=
  fun w =>
    match c w with
    | (Ok a, w') => k a w'
    | (Raise e, w') => (Raise e, w')
    end.

Definition lift {A} (r : res A) : M A := fun w => (r, w).

Definition getattr {A} (field : RBFnet -> option A) : M A :=
  fun w =>
    match field (self w) with
    | Some a => (Ok a, w)
    | None => (Raise AttributeError, w)
    end.

Definition get {A} (field : RBFnet -> A) : M A :=
  fun w => (Ok (field (self w)), w).

Definition setattr (update : RBFnet -> RBFnet) : M unit :=
  fun w => (Ok tt, World (update (self w)) (stdout w)).

Definition print (l : line) : M unit :=
  fun w => (Ok tt, World (self w) (stdout w ++ [l])).

Definition assert (b : bool) : M unit :=
  if b then ret tt else lift (Raise AssertionError).

Notation "x <- c ;; k" := (bind c (fun x => k))
  (at level 100, c at next level, right associativity).

(** [for j in idx: s = body(j, s)] *)
Fixpoint for_each {S} (body : nat -> S -> M S) (idx : list nat) (s : S)
  : M S :=
  match idx with
  | [] => ret s
  | j :: idx' => s' <- body j s ;; for_each body idx' s'
  end.

(** [for j in range(n)] *)
Definition for_range {S} (n : nat) (body : nat -> S -> M S) (s : S) : M S :=
  for_each body (seq 0 n) s.

(** *** Normalisation *)

Definition normalize_input (input : np.matrix T) : M (np.matrix T) :=
  shift <- get input_shift ;;
  d <- lift (np.broadcast2 fsub input shift) ;;
  scale <- get input_scale ;;
  lift (np.broadcast2 fdiv d scale).

Definition normalize_output (output : list T) : M (list T) :=
  shift <- get output_shift ;;
  scale <- get output_scale ;;
  ret (map (fun y => fdiv (fsub y shift) scale) output).

Definition denormalize_input (norm_input : np.matrix T) : M (np.matrix T) :=
  scale <- get input_scale ;;
  p <- lift (np.broadcast2 fmul norm_input scale) ;;
  shift <- get input_shift ;;
  lift (np.broadcast2 fadd p shift).

Definition denormalize_output (norm_output : list T) : M (list T) :=
  scale <- get output_scale ;;
  shift <- get output_shift ;;
  ret (map (fun y => fadd (fmul y scale) shift) norm_output).

Definition adapt_normalization (input : np.matrix T) (output : list T)
  (keep_aspect : bool) : M unit :=
  _ <- setattr (set_output_shift (np.mean output)) ;;
  _ <- setattr (set_output_scale (np.std output)) ;;
  _ <- setattr (set_input_shift (np.Vec (np.mean_axis0 input))) ;;
  if keep_aspect then
    setattr (set_input_scale (np.Scalar0 (np.std_all input)))
  else
    setattr (set_input_scale (np.Vec (np.std_axis0 input))).

(** *** External routines

    [KMeans(n_clusters, random_state).fit(X).cluster_centers_] of
    scikit-learn, [np.linalg.lstsq(A, b, rcond=None)] of numpy, with its
    four results (solution, residuals, rank, singular values), and
    [scipy.optimize.minimize], with the arguments (initial guess,
    tolerance, options, method) besides the objective and the callback,
    are library code: they are parameters of the model. *)
Variable KMeans_fit : nat -> option Z -> np.matrix T -> res (np.matrix T).
Variable lstsq :
  np.matrix T -> list T -> res (list T * list T * nat * list T).

(** A run of the scalar minimizer, seen from the objective: it returns
    its result, or evaluates the objective at a trial point and goes on
    with the value, or reports an iterate to the callback and goes
    on.  Every run is finite (the minimizer's own tolerance and
    iteration budget end it). *)
Inductive optimizer :=
| opt_return (x : T)
| opt_fun (x : T) (k : T -> optimizer)
| opt_callback (xk : T) (k : optimizer).

Variable options : Type.
Variable minimize : T -> T -> option options -> string -> optimizer.

Fixpoint run_minimize (fun_ : T -> M T) (callback : T -> M unit)
  (o : optimizer) : M T :=
  match o with
  | opt_return x => ret x
  | opt_fun x k => y <- fun_ x ;; run_minimize fun_ callback (k y)
  | opt_callback xk k => _ <- callback xk ;; run_minimize fun_ callback k
  end.

(** *** Centres *)

Definition compute_centers (input : np.matrix T) (num : nat)
  (random_state : option Z) : M unit :=
  inp <- normalize_input input ;;
  cluster_centers_ <- lift (KMeans_fit num random_state inp) ;;
  setattr (set_centers cluster_centers_).

(** *** Weights *)

(** The loop of [fit_weights] that fills the matrix column by column:
    column [j] is the kernel of the distances of all normalised points to
    centre [j], divided by the radius. *)
Definition fit_weights_matrix (inp cs : np.matrix T) (radius : T)
  (rbf : T -> T) : M (np.matrix T) :=
  for_range (np.nrows cs)
    (fun j matrix =>
       cj <- lift (np.row cs j) ;;
       d <- lift (np.broadcast2 fsub inp (np.Vec cj)) ;;
       let distance := np.norm_axis1 d in
       lift (np.set_col matrix j
               (map rbf (map (fun t => fdiv t radius) distance))))
    (np.zeros2 (np.nrows inp) (np.nrows cs)).

Definition fit_weights (input : np.matrix T) (output : list T) (radius : T)
  (rbf : T -> T) : M unit :=
  inp <- normalize_input input ;;
  outp <- normalize_output output ;;
  _ <- assert (Nat.eqb (np.nrows inp) (length outp)) ;;
  cs <- getattr centers ;;
  _ <- assert (Nat.eqb (np.ncols inp) (np.ncols cs)) ;;
  matrix <- fit_weights_matrix inp cs radius rbf ;;
  sol <- lift (lstsq matrix outp) ;;
  let '(coeffs, residual, rank, svalues) := sol in
  _ <- setattr (set_coeffs coeffs) ;;
  _ <- setattr (set_residual residual) ;;
  _ <- setattr (set_rbf rbf) ;;
  setattr (set_radius radius).

(** *** Prediction *)

Definition predict (input : np.matrix T) : M (list T) :=
  inp <- normalize_input input ;;
  cs <- getattr centers ;;
  output <-
    for_range (np.nrows cs)
      (fun j output =>
         cj <- lift (np.row cs j) ;;
         d <- lift (np.broadcast2 fsub inp (np.Vec cj)) ;;
         let distance := np.norm_axis1 d in
         w <- getattr coeffs ;;
         wj <- lift (np.item w j) ;;
         kernel <- getattr rbf ;;
         r <- getattr radius ;;
         lift (np.iadd output
                 (map (fmul wj) (map kernel (map (fun t => fdiv t r) distance)))))
      (np.zeros (np.nrows inp)) ;;
  denormalize_output output.

(** *** Radius optimisation *)

(** The float literal [1e-6]. *)
Definition lit_1e_6 : T := fdiv (of_Z 1) (of_Z 1000000).

(** The objective [fun(radius)] of [fit_weights_and_radius]. *)
Definition objective (input : np.matrix T) (output : list T) (rbf : T -> T)
  (measure : pyobj) (radius : T) : M T :=
  _ <- fit_weights input output radius rbf ;;
  pred <- predict input ;;
  e <- lift (call measure output pred) ;;
  _ <- setattr (set_error e) ;;
  getattr error.

(** The [callback(params)] of [fit_weights_and_radius]. *)
Definition callback (verbose : pyobj) (params0 : T) : M unit :=
  if truth verbose then
    n <- getattr fcall ;;
    _ <- setattr (set_fcall (n + 1)) ;;
    n' <- getattr fcall ;;
    e <- getattr error ;;
    print (Progress n' params0 e)
  else ret tt.

(** In the source the statements below the docstring of this method
    are indented one level deeper than the docstring; they are read as
    the body of the method. *)
Definition fit_weights_and_radius (input : np.matrix T) (output : list T)
  (rbf : T -> T) (measure : pyobj) (verbose : pyobj) (method : string)
  (options_ : option options) (tol : T) : M unit :=
  _ <- (if truth verbose then print Header else ret tt) ;;
  _ <- setattr (set_fcall 0) ;;
  let radius_0 := of_Z 1 in
  _ <- run_minimize (objective input output rbf measure) (callback verbose)
         (minimize radius_0 lit_1e_6 options_ method) ;;
  ret tt.

(** *** Training *)

(** The defaults of the parameters [method], [options] and [tol] of
    [fit_weights_and_radius]. *)
Definition default_method : string := "powell".
Definition default_tol : T := lit_1e_6.

(** [train] passes its arguments to [fit_weights_and_radius] by
    position: [verbose] is the fourth and [measure] the fifth, where the
    callee has [measure] fourth and [verbose] fifth. *)
Definition train (input : np.matrix T) (output : list T) (num : nat)
  (radius : option T) (rbf : T -> T) (random_state : option Z)
  (keep_aspect : bool) (verbose : pyobj) (measure : pyobj) : M unit :=
  _ <- adapt_normalization input output keep_aspect ;;
  _ <- compute_centers input num random_state ;;
  match radius with
  | None =>
      fit_weights_and_radius input output rbf verbose measure
        default_method None default_tol
  | Some r => fit_weights input output r rbf
  end.

End Net.

Arguments RBFnet T : clear implicits.
Arguments world T : clear implicits.
Arguments M T A : clear implicits.
Arguments line T : clear implicits.
Arguments pyobj T : clear implicits.
Arguments optimizer T : clear implicits.

Notation "x <- c ;; k" := (bind c (fun x => k))
  (at level 100, c at next level, right associativity).


(** ** Vocabulary of the properties *)

(** A list of reals that takes two different values. *)
Definition varies (l : list R) : Prop :=
  exists a b, In a l /\ In b l /\ a <> b.

(** The training data has nonzero variance: the output, and every
    input column (or, with [keep_aspect], the input as a whole). *)
Definition nonzero_variance (input : np.matrix R) (output : list R)
  (keep_aspect : bool) : Prop :=
  np.var output <> 0%R /\
  if keep_aspect then np.var (np.flatten input) <> 0%R
  else forall j, j < np.ncols input -> np.var (np.col input j) <> 0%R.

Section AxisVocabulary.
Context {T : Type}.

(** The value a shift or scale attribute has on each of [d] axes. *)
Definition per_axis (p : np.ndarray T) (d : nat) : list T :=
  match p with
  | np.Scalar0 y => repeat y d
  | np.Vec v => v
  end.

(** The attribute is a scalar, or has one entry for each of [d] axes. *)
Definition fits (p : np.ndarray T) (d : nat) : Prop :=
  match p with
  | np.Scalar0 _ => True
  | np.Vec v => length v = d
  end.

End AxisVocabulary.

(** Every component of a scale attribute is strictly positive. *)
Definition scale_positive (p : np.ndarray R) : Prop :=
  match p with
  | np.Scalar0 s => (0 < s)%R
  | np.Vec v => Forall (fun s => (0 < s)%R) v
  end.

(** No normalised axis of the training input is constant: every input
    column takes two values (with [keep_aspect], the input as a whole
    does). *)
Definition input_varies (input : np.matrix R) (keep_aspect : bool) : Prop :=
  if keep_aspect then varies (np.flatten input)
  else forall j, j < np.ncols input -> varies (np.col input j).

Section Operations.
Context {T : Type} `{Scalar T}.

(** The normalisation attributes of a network. *)
Definition normalization_of (n : RBFnet T)
  : np.ndarray T * np.ndarray T * T * T :=
  (input_shift n, input_scale n, output_shift n, output_scale n).

Variable KMeans_fit : nat -> option Z -> np.matrix T -> res (np.matrix T).
Variable lstsq :
  np.matrix T -> list T -> res (list T * list T * nat * list T).
Variable options : Type.
Variable minimize : T -> T -> option options -> string -> optimizer T.

(** The calls a trained network receives short of retraining: every
    method but [train] and [adapt_normalization]. *)
Inductive operation :=
| call_compute_centers (input : np.matrix T) (num : nat)
    (random_state : option Z)
| call_fit_weights (input : np.matrix T) (output : list T) (radius : T)
    (rbf : T -> T)
| call_fit_weights_and_radius (input : np.matrix T) (output : list T)
    (rbf : T -> T) (measure verbose : pyobj T) (method : string)
    (options_ : option options) (tol : T)
| call_predict (input : np.matrix T)
| call_normalize_input (input : np.matrix T)
| call_normalize_output (output : list T)
| call_denormalize_input (norm_input : np.matrix T)
| call_denormalize_output (norm_output : list T).

(** The state after a call, whether it returned or raised. *)
Definition exec (w : world T) (op : operation) : world T :=
  match op with
  | call_compute_centers input num random_state =>
      snd (compute_centers KMeans_fit input num random_state w)
  | call_fit_weights input output radius rbf =>
      snd (fit_weights lstsq input output radius rbf w)
  | call_fit_weights_and_radius input output rbf measure verbose method
      options_ tol =>
      snd (fit_weights_and_radius lstsq options minimize input output rbf
             measure verbose method options_ tol w)
  | call_predict input => snd (predict input w)
  | call_normalize_input input => snd (normalize_input input w)
  | call_normalize_output output => snd (normalize_output output w)
  | call_denormalize_input norm_input => snd (denormalize_input norm_input w)
  | call_denormalize_output norm_output =>
      snd (denormalize_output norm_output w)
  end.

(** A computation that never changes the normalisation attributes. *)
Definition frozen {A} (c : M T A) : Prop :=
  forall w, normalization_of (self (snd (c w))) = normalization_of (self w).

(** A computation that leaves the network and the standard output as
    they were, whether it returns or raises. *)
Definition readonly {A} (c : M T A) : Prop :=
  forall w, snd (c w) = w.

End Operations.

Arguments call_compute_centers {T options} input num random_state.
Arguments call_fit_weights {T options} input output radius rbf.
Arguments call_fit_weights_and_radius {T options} input output rbf measure
  verbose method options_ tol.
Arguments call_predict {T options} input.
Arguments call_normalize_input {T options} input.
Arguments call_normalize_output {T options} output.
Arguments call_denormalize_input {T options} norm_input.
Arguments call_denormalize_output {T options} norm_output.

(** Stand-ins for the external routines, to run the model on concrete
    data: a clustering that returns the first [num] points, a solver
    that returns zero weights, and a minimizer that evaluates the
    objective once, at the initial guess, and returns the guess. *)
Section StandIns.
Context {T : Type} `{Scalar T}.

Definition first_points (num : nat) (random_state : option Z)
  (X : np.matrix T) : res (np.matrix T) :=
  Ok (np.Matrix (np.ncols X) (take num (np.rows X))).

Definition zero_weights (A : np.matrix T) (b : list T)
  : res (list T * list T * nat * list T) :=
  Ok (np.zeros (np.ncols A), [], 0, []).

Definition one_evaluation (x0 tol : T) (options_ : option unit)
  (method : string) : optimizer T :=
  opt_fun x0 (fun _ => opt_return x0).

End StandIns.

(** The model function of the specification. *)
Section ModelFunction.
Context {T : Type} `{Scalar T}.


(** The Euclidean distance of a point to a centre, over all columns. *)
Definition distance (x c : list T) : T := np.norm (zip_with fsub x c).

(** One basis function: [kernel(|x - c| / radius)]. *)
Definition basis (kernel : T -> T) (radius : T) (x c : list T) : T :=
  kernel (fdiv (distance x c) radius).

(** The sum over the centres of [coeffs[j] * kernel(|x - c_j| / radius)],
    accumulated from zero in the order of the centres. *)
Definition rbf_sum (cs : list (list T)) (ws : list T) (kernel : T -> T)
  (radius : T) (x : list T) : T :=
  fold_left
    (fun acc cw => fadd acc (fmul (snd cw) (basis kernel radius x (fst cw))))
    (zip cs ws) (of_Z 0).

(** The design matrix of the specification: entry [(i, j)] is the basis
    function of centre [j] at point [i]. *)
Definition design (xs cs : list (list T)) (kernel : T -> T) (radius : T)
  : np.matrix T :=
  np.Matrix (length cs)
    (map (fun x => map (fun c => basis kernel radius x c) cs) xs).

(** The matrix of [fit_weights] after its first [i] columns have been
    written: the later columns still hold the zeros of [np.zeros]. *)
Definition partial_design (xs cs : list (list T)) (kernel : T -> T)
  (radius : T) (i : nat) : np.matrix T :=
  np.Matrix (length cs)
    (map (fun x =>
            map (fun c => basis kernel radius x c) (take i cs)
            ++ np.zeros (length cs - i))
       xs).

(** The rows of the normalised input and the normalised output, for an
    input whose columns fit the shift and scale attributes. *)
Definition normalized_rows (n : RBFnet T) (input : np.matrix T)
  : list (list T) :=
  map (fun r =>
         zip_with fdiv
           (zip_with fsub r (per_axis (input_shift n) (np.ncols input)))
           (per_axis (input_scale n) (np.ncols input)))
    (np.rows input).

Definition normalized_output (n : RBFnet T) (output : list T) : list T :=
  map (fun y => fdiv (fsub y (output_shift n)) (output_scale n)) output.

End ModelFunction.

(** The residual of a linear system over the reals. *)
Section LeastSquares.
Local Open Scope R_scope.

Definition dot (r w : list R) : R := np.sum (zip_with Rmult r w).

(** [A . w] *)
Definition matvec (A : np.matrix R) (w : list R) : list R :=
  map (fun r => dot r w) (np.rows A).

(** The squared Euclidean norm. *)
Definition sqnorm (v : list R) : R := np.sum (np.square v).

(** [|A . w - y|^2] *)
Definition residual_sq (A : np.matrix R) (y w : list R) : R :=
  sqnorm (zip_with Rminus (matvec A w) y).

End LeastSquares.

(** A fitted network to run the model on: fresh normalisation, the one
    centre [0] with weight 2, the Gaussian kernel and radius 1. *)
Definition one_centre_net : world R :=
  World
    (mkRBFnet (np.Scalar0 0%R) (np.Scalar0 1%R) 0%R 1%R
       (Some (np.Matrix 1 [[0%R]])) (Some [2%R]) None (Some gaussian)
       (Some 1%R) None None)
    [].

(** A network with fresh normalisation whose two centres coincide (a
    rank-deficient design matrix), and a solver stand-in that returns the
    weights [1; 1]. *)
Definition twin_centres_net : world R :=
  World
    (mkRBFnet (np.Scalar0 0%R) (np.Scalar0 1%R) 0%R 1%R
       (Some (np.Matrix 1 [[0%R]; [0%R]])) None None None None None None)
    [].

Definition unit_weights (A : np.matrix R) (b : list R)
  : res (list R * list R * nat * list R) :=
  Ok ([1%R; 1%R], [], 1, []).

(** A minimizer stand-in that evaluates the objective once, at the
    tolerance it was given: the radius left in the network is that
    tolerance. *)
Definition tolerance_probe {T : Type} (x0 tol : T) (options_ : option unit)
  (method : string) : optimizer T :=
  opt_fun tol (fun _ => opt_return x0).

(** Two-column training data and a one-column input. *)
Definition two_columns : np.matrix R :=
  np.Matrix 2 [[0%R; 0%R]; [2%R; 4%R]].
Definition one_column : np.matrix R := np.Matrix 1 [[5%R]; [6%R]].

(** The network after normalisation and centre placement on the
    two-column data. *)
Definition two_axis_net : world R :=
  snd ((_ <- adapt_normalization two_columns [0%R; 2%R] false ;;
        compute_centers first_points two_columns 1 None)
         (World __init__ [])).
(** ** More vocabulary *)

(** A call returns a value (it does not raise). *)
Definition returns {A} (r : res A) : Prop := exists a, r = Ok a.

(** Two axis lengths that numpy broadcasts against each other. *)
Definition broadcastable (n m : nat) : Prop := n = m \/ n = 1 \/ m = 1.

(** ** Frames, failure and the run of the minimizer *)

Section Frames.
Context {T : Type} `{Scalar T}.

(** A computation that leaves a component of the state as it was,
    whether it returns or raises. *)
Definition keeps {A B} (proj : world T -> B) (c : M T A) : Prop :=
  forall w, proj (snd (c w)) = proj w.

(** A computation that changes nothing when it raises. *)
Definition atomic {A} (c : M T A) : Prop :=
  forall w e, fst (c w) = Raise e -> snd (c w) = w.

(** The one operation that places centres. *)
Definition places_centers {options : Type} (op : operation (T:=T) options)
  : bool :=
  match op with
  | call_compute_centers _ _ _ => true
  | _ => false
  end.

(** The trial points at which a run of the minimizer evaluates the
    objective, in the order of evaluation; the run ends at the first
    exception. *)
Fixpoint trials (fun_ : T -> M T T) (callback_ : T -> M T unit)
  (o : optimizer T) (w : world T) : list T :=
  match o with
  | opt_return _ => []
  | opt_fun x k =>
      x :: match fun_ x w with
           | (Ok y, w') => trials fun_ callback_ (k y) w'
           | (Raise _, _) => []
           end
  | opt_callback xk k =>
      match callback_ xk w with
      | (Ok _, w') => trials fun_ callback_ k w'
      | (Raise _, _) => []
      end
  end.

(** The same run of the minimizer with another result. *)
Fixpoint with_result (g : T -> T) (o : optimizer T) : optimizer T :=
  match o with
  | opt_return x => opt_return (g x)
  | opt_fun x k => opt_fun x (fun y => with_result g (k y))
  | opt_callback xk k => opt_callback xk (with_result g k)
  end.

(** The state in which [fit_weights_and_radius] starts the minimizer:
    the header is printed if [verbose], and [fcall] is 0. *)
Definition search_start (verbose : pyobj T) (w : world T) : world T :=
  World (set_fcall 0 (self w))
    (if truth verbose then stdout w ++ [Header] else stdout w).

(** The iteration number shown by a printed line. *)
Definition iteration (l : line T) : option nat :=
  match l with
  | Header => None
  | Progress it _ _ => Some it
  end.

End Frames.

(** A minimizer stand-in that evaluates the objective at the initial
    guess, then at the tolerance it was given, and returns the initial
    guess. *)
Definition two_trials {T : Type} (x0 tol : T) (options_ : option unit)
  (method : string) : optimizer T :=
  opt_fun x0 (fun _ => opt_fun tol (fun _ => opt_return x0)).

(** A minimizer stand-in that evaluates the objective at the initial
    guess and reports it to the callback, twice. *)
Definition two_iterations {T : Type} (x0 tol : T) (options_ : option unit)
  (method : string) : optimizer T :=
  opt_fun x0 (fun _ => opt_callback x0
    (opt_fun x0 (fun _ => opt_callback x0 (opt_return x0)))).

(** The one centre that the stand-in clustering places on the training
    input [[0], [2]]: the first normalised point. *)
Definition first_centre : np.matrix R :=
  np.Matrix 1
    (take 1
       (normalized_rows
          (self (snd (adapt_normalization (np.Matrix 1 [[0%R]; [2%R]])
                        [0%R; 2%R] false (World __init__ []))))
          (np.Matrix 1 [[0%R]; [2%R]]))).

Section Verbosity.
Context {T : Type} `{Scalar T}.

(** The fitted model: every attribute of the network but the iteration
    counter [fcall]. *)
Definition model_of (n : RBFnet T) :=
  (normalization_of n, centers n, coeffs n, residual n, rbf n, radius n,
   error n).

(** A computation that neither reads the iteration counter nor what
    was printed: from two states with the same model it gives the same
    result and again states with the same model. *)
Definition silent {A} (c : M T A) : Prop :=
  forall w1 w2,
    model_of (self w1) = model_of (self w2) ->
    fst (c w1) = fst (c w2) /\
    model_of (self (snd (c w1))) = model_of (self (snd (c w2))).

(** The run of the minimizer does not begin with a report to the
    callback. *)
Definition evaluates_first (o : optimizer T) : Prop :=
  match o with
  | opt_callback _ _ => False
  | _ => True
  end.

End Verbosity.

(** A minimizer stand-in that reports its initial guess to the callback
    before any evaluation of the objective. *)
Definition report_first {T : Type} (x0 tol : T) (options_ : option unit)
  (method : string) : optimizer T :=
  opt_callback x0 (opt_return x0).

(** A one-column input with its column repeated on [d] axes: what
    numpy's broadcasting makes of it against a per-axis shift of [d]
    entries. *)
Definition widen {T : Type} (d : nat) (X : np.matrix T) : np.matrix T :=
  np.Matrix d
    (map (fun r => match r with [x] => repeat x d | _ => r end) (np.rows X)).

(** ** Example data for the binary64 instance, and a trained network *)

(** The binary64 number [2^e]. *)
Definition pow2 (e : Z) : b64.float64 :=
  binary_normalize b64.prec b64.emax 1 e false.





(** The network that training on [[0, 0], [2, 4]] -> [0, 4] leaves,
    with two centres, radius 1, the stand-in clustering (the centres are
    the two normalised points) and the stand-in solver that returns the
    weights [1; 1]: the input shift is [1, 2] and the input scale
    [1, 2], the output shift 2 and the output scale 2. *)
Definition trained_net : world R :=
  World
    (mkRBFnet (np.Vec [1%R; 2%R]) (np.Vec [1%R; 2%R]) 2%R 2%R
       (Some (np.Matrix 2 [[(-1)%R; (-1)%R]; [1%R; 1%R]]))
       (Some [1%R; 1%R]) (Some []) (Some gaussian) (Some 1%R) None None)
    [].

(** Three points in the plane and their outputs. *)
Definition three_points : np.matrix R :=
  np.Matrix 2 [[0%R; 0%R]; [2%R; 4%R]; [1%R; 2%R]].


(* ================================================================== *)
(** * Part II: properties *)
(* ================================================================== *)

(** ** Broadcasting *)

Section BroadcastFacts.
Context {T : Type} `{Scalar T}.

Lemma bshape_same (n : nat) : np.bshape n n = Ok n.
Proof. unfold np.bshape. now rewrite Nat.eqb_refl. Qed.

(** Operands of equal length are combined position by position. *)
Lemma bvec_same_length (f : T -> T -> T) (a b : list T) :
  length a = length b -> np.bvec f a b = zip_with f a b.
Proof.
  intros Hlen. unfold np.bvec.
  destruct a as [|x [|x' a]], b as [|y [|y' b]]; simpl in *;
    try reflexivity; discriminate.
Qed.

Lemma broadcast1_same_length (f : T -> T -> T) (a b : list T) :
  length a = length b -> np.broadcast1 f a b = Ok (zip_with f a b).
Proof.
  intros Hlen. unfold np.broadcast1.
  rewrite Hlen, bshape_same. simpl. now rewrite bvec_same_length.
Qed.

Lemma map_rows_bvec (f : T -> T -> T) (v : list T) (rs : list (list T)) :
  Forall (fun r => length r = length v) rs ->
  map (fun r => np.bvec f r v) rs = map (fun r => zip_with f r v) rs.
Proof.
  induction 1 as [|r rs Hr _ IH]; simpl; [reflexivity|].
  now rewrite IH, bvec_same_length.
Qed.

(** A matrix and a vector with one entry per column. *)
Lemma broadcast2_Vec (f : T -> T -> T) (A : np.matrix T) (v : list T) :
  np.wf A -> length v = np.ncols A ->
  np.broadcast2 f A (np.Vec v)
  = Ok (np.Matrix (np.ncols A) (map (fun r => zip_with f r v) (np.rows A))).
Proof.
  intros Hwf Hlen. unfold np.broadcast2.
  rewrite Hlen, bshape_same. simpl. f_equal. f_equal.
  apply map_rows_bvec. unfold np.wf in Hwf. now rewrite Hlen.
Qed.

Lemma zip_with_repeat (f : T -> T -> T) (r : list T) (y : T) :
  zip_with f r (repeat y (length r)) = map (fun x => f x y) r.
Proof. induction r as [|a r IH]; simpl; [reflexivity | now rewrite IH]. Qed.

(** A matrix and a shift or scale attribute that fits its columns:
    entry [(i, j)] is combined with the attribute's value on axis [j]. *)
Lemma broadcast2_per_axis (f : T -> T -> T) (A : np.matrix T)
  (p : np.ndarray T) :
  np.wf A -> fits p (np.ncols A) ->
  np.broadcast2 f A p
  = Ok (np.Matrix (np.ncols A)
          (map (fun r => zip_with f r (per_axis p (np.ncols A))) (np.rows A))).
Proof.
  intros Hwf Hfit. destruct p as [y|v]; simpl in Hfit.
  - simpl. do 2 f_equal. unfold np.wf in Hwf.
    induction Hwf as [|r rs Hr _ IH]; simpl; [reflexivity|].
    now rewrite IH, <- Hr, zip_with_repeat.
  - now apply broadcast2_Vec.
Qed.

Lemma wf_zip_rows (f : T -> T -> T) (v : list T) (d : nat)
  (rs : list (list T)) :
  Forall (fun r => length r = d) rs -> length v = d ->
  Forall (fun r => length r = d) (map (fun r => zip_with f r v) rs).
Proof.
  intros Hwf Hv. apply Forall_map. eapply Forall_impl; [exact Hwf|].
  intros r Hr. simpl in *. rewrite length_zip_with. lia.
Qed.

Lemma per_axis_length (p : np.ndarray T) (d : nat) :
  fits p d -> length (per_axis p d) = d.
Proof. destruct p; simpl; [now rewrite repeat_length | trivial]. Qed.

End BroadcastFacts.

(** ** Running the methods *)

Section MonadFacts.
Context {T : Type} `{Scalar T}.

Lemma run_ret {A B} (a : A) (k : A -> M T B) (w : world T) :
  (x <- ret a ;; k x) w = k a w.
Proof. reflexivity. Qed.

Lemma run_get {A B} (field : RBFnet T -> A) (k : A -> M T B) (w : world T) :
  (x <- get field ;; k x) w = k (field (self w)) w.
Proof. reflexivity. Qed.

Lemma run_lift_Ok {A B} (a : A) (k : A -> M T B) (w : world T) :
  (x <- lift (Ok a) ;; k x) w = k a w.
Proof. reflexivity. Qed.

Lemma run_lift_Raise {A B} (e : exn) (k : A -> M T B) (w : world T) :
  (x <- lift (Raise e) ;; k x) w = (Raise e, w).
Proof. reflexivity. Qed.

Lemma run_getattr_Some {A B} (field : RBFnet T -> option A) (a : A)
  (k : A -> M T B) (w : world T) :
  field (self w) = Some a -> (x <- getattr field ;; k x) w = k a w.
Proof. intros Hf. unfold bind, getattr. now rewrite Hf. Qed.

Lemma run_setattr {B} (update : RBFnet T -> RBFnet T) (k : unit -> M T B)
  (w : world T) :
  (x <- setattr update ;; k x) w = k tt (World (update (self w)) (stdout w)).
Proof. reflexivity. Qed.

Lemma run_assert_true {B} (b : bool) (k : unit -> M T B) (w : world T) :
  b = true -> (x <- assert b ;; k x) w = k tt w.
Proof. now intros ->. Qed.

Lemma run_assert_false {B} (b : bool) (k : unit -> M T B) (w : world T) :
  b = false -> (x <- assert b ;; k x) w = (Raise AssertionError, w).
Proof. now intros ->. Qed.

Lemma run_bind_assoc {A B C} (c : M T A) (k : A -> M T B) (k' : B -> M T C)
  (w : world T) :
  (y <- (x <- c ;; k x) ;; k' y) w = (x <- c ;; y <- k x ;; k' y) w.
Proof. unfold bind. now destruct (c w) as [[a|e] w']. Qed.

Lemma run_bind_Ok {A B} (c : M T A) (k : A -> M T B) (w w' : world T) (a : A) :
  c w = (Ok a, w') -> (x <- c ;; k x) w = k a w'.
Proof. intros Hc. unfold bind. now rewrite Hc. Qed.

Lemma run_bind_Raise {A B} (c : M T A) (k : A -> M T B) (w w' : world T)
  (e : exn) :
  c w = (Raise e, w') -> (x <- c ;; k x) w = (Raise e, w').
Proof. intros Hc. unfold bind. now rewrite Hc. Qed.

End MonadFacts.

(** ** Sums and variances of real numbers *)

Section RealFacts.
Local Open Scope R_scope.

Lemma fold_left_Rplus_acc (l : list R) (a : R) :
  fold_left Rplus l a = a + fold_left Rplus l 0.
Proof.
  revert a. induction l as [|x l IH]; intros a; simpl; [lra|].
  rewrite (IH (a + x)), (IH (0 + x)). lra.
Qed.

Lemma sum_nil : np.sum (@nil R) = 0.
Proof. reflexivity. Qed.

Lemma sum_cons (x : R) (l : list R) : np.sum (x :: l) = x + np.sum l.
Proof.
  unfold np.sum. simpl. rewrite fold_left_Rplus_acc. lra.
Qed.

Lemma sum_square_nonneg (l : list R) : 0 <= np.sum (np.square l).
Proof.
  induction l as [|x l IH]; simpl.
  - rewrite sum_nil. lra.
  - rewrite sum_cons. nra.
Qed.

Lemma sum_square_zero (l : list R) :
  np.sum (np.square l) = 0 <-> Forall (fun x => x = 0) l.
Proof.
  induction l as [|x l IH]; simpl.
  - split; [constructor | reflexivity].
  - rewrite sum_cons. pose proof (sum_square_nonneg l) as Hl. split.
    + intros Hs. assert (x * x = 0 /\ np.sum (np.square l) = 0) as [Hx Hr] by nra.
      constructor; [nra | now apply IH].
    + intros Hall. inversion Hall as [|? ? Hx Hr]; subst.
      apply IH in Hr. rewrite Hr. lra.
Qed.

Lemma len_pos (l : list R) : l <> [] -> 0 < np.len l.
Proof.
  intros Hne. unfold np.len. simpl. apply IZR_lt.
  destruct l; [congruence | simpl; lia].
Qed.

Lemma len_nonneg (l : list R) : 0 <= np.len l.
Proof. unfold np.len. simpl. apply IZR_le. lia. Qed.

Lemma div_nonneg (a b : R) : 0 <= a -> 0 <= b -> 0 <= a / b.
Proof.
  intros Ha Hb. destruct (Req_dec b 0) as [->|Hb0].
  - unfold Rdiv. rewrite Rinv_0. lra.
  - apply Rmult_le_pos; [assumption|].
    left. apply Rinv_0_lt_compat. lra.
Qed.

(** The variance is the sum of the squared deviations over the count. *)
Lemma var_eq (l : list R) :
  np.var l
  = np.sum (np.square (map (fun x => x - np.mean l) l)) / np.len l.
Proof.
  unfold np.var, np.square. rewrite map_map.
  unfold np.mean at 1, np.len at 1. now rewrite length_map.
Qed.

Lemma var_nonneg (l : list R) : 0 <= np.var l.
Proof.
  rewrite var_eq. apply div_nonneg; [apply sum_square_nonneg | apply len_nonneg].
Qed.

Lemma std_nonneg (l : list R) : 0 <= np.std l.
Proof. apply sqrt_pos. Qed.

Lemma std_pos (l : list R) : np.var l <> 0 -> 0 < np.std l.
Proof.
  intros Hv. apply sqrt_lt_R0. pose proof (var_nonneg l). lra.
Qed.

Lemma sum_square_pos (l : list R) :
  Exists (fun x => x <> 0) l -> 0 < np.sum (np.square l).
Proof.
  intros Hex. pose proof (sum_square_nonneg l) as Hge.
  destruct (Req_dec (np.sum (np.square l)) 0) as [H0|]; [|lra].
  apply sum_square_zero in H0. apply Exists_exists in Hex as (x & Hin & Hx).
  rewrite Forall_forall in H0. now apply H0 in Hin.
Qed.

(** A list that takes two different values has positive variance. *)
Lemma varies_var_pos (l : list R) : varies l -> 0 < np.var l.
Proof.
  intros (a & b & Ha & Hb & Hab). rewrite var_eq.
  assert (l <> []) as Hne by (intros ->; inversion Ha).
  apply Rdiv_lt_0_compat; [|now apply len_pos].
  apply sum_square_pos.
  destruct (Req_dec a (np.mean l)) as [Hm|Hm].
  - apply Exists_exists. exists (b - np.mean l). split.
    + apply list_elem_of_In, in_map_iff. now exists b.
    + lra.
  - apply Exists_exists. exists (a - np.mean l). split.
    + apply list_elem_of_In, in_map_iff. now exists a.
    + lra.
Qed.

End RealFacts.

(** ** Normalisation in exact arithmetic *)

Section NormalizationFacts.
Local Open Scope R_scope.

Lemma map_roundtrip {A B : Type} (f : A -> B) (g : B -> A) (l : list A) :
  (forall a, g (f a) = a) -> map g (map f l) = l.
Proof.
  intros Hgf. rewrite map_map. induction l as [|a l IH]; simpl;
    [reflexivity | now rewrite Hgf, IH].
Qed.

Lemma rows_roundtrip {A B : Type} (f : A -> B) (g : B -> A)
  (rs : list (list A)) :
  (forall a, g (f a) = a) -> map (map g) (map (map f) rs) = rs.
Proof. intros Hgf. apply map_roundtrip. intros r. now apply map_roundtrip. Qed.

(** C10. A freshly constructed network has shift 0 and scale 1 for
    input and output, and with these the four normalisation maps return
    their argument, whatever it is, without raising and without touching
    the network. *)
Theorem fresh_net_normalization_identity
  (out : list (line R)) (x : np.matrix R) (y : list R) :
  input_shift __init__ = np.Scalar0 0 /\
  output_shift __init__ = 0 /\
  input_scale __init__ = np.Scalar0 1 /\
  output_scale __init__ = 1 /\
  normalize_input x (World __init__ out) = (Ok x, World __init__ out) /\
  normalize_output y (World __init__ out) = (Ok y, World __init__ out) /\
  denormalize_input x (World __init__ out) = (Ok x, World __init__ out) /\
  denormalize_output y (World __init__ out) = (Ok y, World __init__ out).
Proof.
  destruct x as [d rs].
  repeat split.
  - unfold normalize_input, bind, get, lift. simpl.
    rewrite (rows_roundtrip (fun a => a - 0) (fun a => a / 1)); [reflexivity|].
    intros a. lra.
  - unfold normalize_output, bind, get, ret. simpl.
    rewrite <- (map_id y) at 2. do 2 f_equal. apply map_ext. intros a. lra.
  - unfold denormalize_input, bind, get, lift. simpl.
    rewrite (rows_roundtrip (fun a => a * 1) (fun a => a + 0)); [reflexivity|].
    intros a. lra.
  - unfold denormalize_output, bind, get, ret. simpl.
    rewrite <- (map_id y) at 2. do 2 f_equal. apply map_ext. intros a. lra.
Qed.

End NormalizationFacts.

(** ** Normalising and denormalising *)

Section NormalizationForms.
Context {T : Type} `{Scalar T}.

(** [normalize_input] on an input whose columns fit the shift and scale
    attributes: [(raw - shift) / scale], axis by axis. *)
Lemma normalize_input_fits (w : world T) (x : np.matrix T) :
  np.wf x ->
  fits (input_shift (self w)) (np.ncols x) ->
  fits (input_scale (self w)) (np.ncols x) ->
  normalize_input x w
  = (Ok (np.Matrix (np.ncols x)
           (map (fun r =>
                   zip_with fdiv
                     (zip_with fsub r (per_axis (input_shift (self w)) (np.ncols x)))
                     (per_axis (input_scale (self w)) (np.ncols x)))
              (np.rows x))),
     w).
Proof.
  intros Hwf Hshift Hscale. unfold normalize_input.
  rewrite run_get, broadcast2_per_axis, run_lift_Ok, run_get by assumption.
  unfold lift. rewrite broadcast2_per_axis; simpl.
  - now rewrite map_map.
  - apply wf_zip_rows; [exact Hwf | now apply per_axis_length].
  - assumption.
Qed.

(** [denormalize_input]: [norm * scale + shift], axis by axis. *)
Lemma denormalize_input_fits (w : world T) (x : np.matrix T) :
  np.wf x ->
  fits (input_shift (self w)) (np.ncols x) ->
  fits (input_scale (self w)) (np.ncols x) ->
  denormalize_input x w
  = (Ok (np.Matrix (np.ncols x)
           (map (fun r =>
                   zip_with fadd
                     (zip_with fmul r (per_axis (input_scale (self w)) (np.ncols x)))
                     (per_axis (input_shift (self w)) (np.ncols x)))
              (np.rows x))),
     w).
Proof.
  intros Hwf Hshift Hscale. unfold denormalize_input.
  rewrite run_get, broadcast2_per_axis, run_lift_Ok, run_get by assumption.
  unfold lift. rewrite broadcast2_per_axis; simpl.
  - now rewrite map_map.
  - apply wf_zip_rows; [exact Hwf | now apply per_axis_length].
  - assumption.
Qed.

Lemma normalize_input_wf (w w' : world T) (x inp : np.matrix T) :
  np.wf x ->
  fits (input_shift (self w)) (np.ncols x) ->
  fits (input_scale (self w)) (np.ncols x) ->
  normalize_input x w = (Ok inp, w') ->
  np.wf inp /\ np.ncols inp = np.ncols x /\ np.nrows inp = np.nrows x /\ w' = w.
Proof.
  intros Hwf Hshift Hscale Hrun.
  rewrite normalize_input_fits in Hrun by assumption.
  injection Hrun as <- <-. unfold np.wf, np.nrows. simpl.
  rewrite length_map. repeat split.
  apply Forall_map. eapply Forall_impl; [exact Hwf|]. intros r Hr. simpl in *.
  rewrite !length_zip_with, !per_axis_length by assumption. lia.
Qed.

End NormalizationForms.

Section RoundTrip.
Local Open Scope R_scope.

Lemma row_roundtrip (r m s : list R) :
  length r = length m -> length r = length s ->
  Forall (fun c => c <> 0) s ->
  zip_with Rplus (zip_with Rmult (zip_with Rdiv (zip_with Rminus r m) s) s) m
  = r.
Proof.
  revert m s. induction r as [|a r IH]; intros [|b m] [|c s] Hm Hs Hnz;
    simpl in *; try discriminate; [reflexivity|].
  inversion Hnz as [|? ? Hc Hnz']; subst.
  f_equal; [field; assumption|]. apply IH; congruence.
Qed.

Lemma rows_fixed {A : Type} (f : list A -> list A) (d : nat)
  (rs : list (list A)) :
  Forall (fun r => length r = d) rs ->
  (forall r, length r = d -> f r = r) ->
  map f rs = rs.
Proof.
  intros Hwf Hf. induction Hwf as [|r rs Hr _ IH]; simpl; [reflexivity|].
  now rewrite IH, Hf.
Qed.

(** Denormalising a normalised input gives the input back, provided no
    scale is zero. *)
Lemma input_roundtrip (w : world R) (x : np.matrix R) :
  np.wf x ->
  fits (input_shift (self w)) (np.ncols x) ->
  fits (input_scale (self w)) (np.ncols x) ->
  Forall (fun c => c <> 0) (per_axis (input_scale (self w)) (np.ncols x)) ->
  (y <- normalize_input x ;; denormalize_input y) w = (Ok x, w).
Proof.
  intros Hwf Hshift Hscale Hnz.
  rewrite (run_bind_Ok _ _ _ _ _ (normalize_input_fits w x Hwf Hshift Hscale)).
  rewrite denormalize_input_fits; simpl; try assumption.
  - rewrite map_map. destruct x as [d rs]. simpl in *. do 3 f_equal.
    apply (rows_fixed _ d); [exact Hwf|]. intros r Hr.
    apply row_roundtrip; [| |assumption]; rewrite per_axis_length; congruence.
  - apply Forall_map. eapply Forall_impl; [exact Hwf|]. intros r Hr. simpl in *.
    rewrite !length_zip_with, !per_axis_length by assumption. lia.
Qed.

Lemma output_roundtrip (w : world R) (y : list R) :
  output_scale (self w) <> 0 ->
  (z <- normalize_output y ;; denormalize_output z) w = (Ok y, w).
Proof.
  intros Hnz.
  unfold normalize_output, denormalize_output, bind, get, ret. simpl.
  do 2 f_equal. apply map_roundtrip. intros a. field. assumption.
Qed.

End RoundTrip.

(** ** Adapting the normalisation *)

Section AdaptNormalization.
Context {T : Type} `{Scalar T}.

(** What [adapt_normalization] assigns. *)
Lemma adapt_normalization_run (input : np.matrix T) (output : list T)
  (keep_aspect : bool) (w : world T) :
  adapt_normalization input output keep_aspect w
  = (Ok tt,
     World
       (mkRBFnet
          (np.Vec (np.mean_axis0 input))
          (if keep_aspect then np.Scalar0 (np.std_all input)
           else np.Vec (np.std_axis0 input))
          (np.mean output) (np.std output)
          (centers (self w)) (coeffs (self w)) (residual (self w))
          (rbf (self w)) (radius (self w)) (error (self w)) (fcall (self w)))
       (stdout w)).
Proof. now destruct keep_aspect. Qed.

End AdaptNormalization.

Section RoundTripAfterAdapt.
Local Open Scope R_scope.

Lemma std_axis0_nonzero (input : np.matrix R) :
  (forall j, (j < np.ncols input)%nat -> np.var (np.col input j) <> 0) ->
  Forall (fun c => c <> 0) (np.std_axis0 input).
Proof.
  intros Hvar. unfold np.std_axis0. apply Forall_map, Forall_forall.
  intros j Hj. apply list_elem_of_In, in_seq in Hj.
  apply Rgt_not_eq, Rlt_gt, std_pos, Hvar. lia.
Qed.

(** C6, amended.  In exact arithmetic, once [adapt_normalization] has
    set the shift and scale attributes from data with nonzero variance
    (the shifts are the means and the scales the standard deviations of
    the training data), the four maps are the affine maps
    [norm = (raw - shift) / scale] and [raw = norm * scale + shift],
    applied along every axis, and denormalising the normalised value
    returns the value: for every well-formed input with the columns of
    the training input, and for every output. *)
Theorem normalization_roundtrip
  (input : np.matrix R) (output : list R) (keep_aspect : bool)
  (w w' : world R) (x : np.matrix R) (y : list R) :
  adapt_normalization input output keep_aspect w = (Ok tt, w') ->
  nonzero_variance input output keep_aspect ->
  np.wf x ->
  np.ncols x = np.ncols input ->
  input_shift (self w') = np.Vec (np.mean_axis0 input) /\
  input_scale (self w')
  = (if keep_aspect then np.Scalar0 (np.std_all input)
     else np.Vec (np.std_axis0 input)) /\
  output_shift (self w') = np.mean output /\
  output_scale (self w') = np.std output /\
  normalize_input x w'
  = (Ok (np.Matrix (np.ncols x)
           (map (fun r =>
                   zip_with Rdiv
                     (zip_with Rminus r
                        (per_axis (input_shift (self w')) (np.ncols x)))
                     (per_axis (input_scale (self w')) (np.ncols x)))
              (np.rows x))),
     w') /\
  denormalize_input x w'
  = (Ok (np.Matrix (np.ncols x)
           (map (fun r =>
                   zip_with Rplus
                     (zip_with Rmult r
                        (per_axis (input_scale (self w')) (np.ncols x)))
                     (per_axis (input_shift (self w')) (np.ncols x)))
              (np.rows x))),
     w') /\
  normalize_output y w'
  = (Ok (map (fun v => (v - output_shift (self w')) / output_scale (self w'))
           y),
     w') /\
  denormalize_output y w'
  = (Ok (map (fun v => v * output_scale (self w') + output_shift (self w'))
           y),
     w') /\
  (x' <- normalize_input x ;; denormalize_input x') w' = (Ok x, w') /\
  (y' <- normalize_output y ;; denormalize_output y') w' = (Ok y, w').
Proof.
  intros Hrun [Hout Hin] Hwf Hcols.
  rewrite adapt_normalization_run in Hrun. injection Hrun as <-.
  set (w1 := World _ (stdout w)).
  assert (fits (input_shift (self w1)) (np.ncols x)) as Hshift.
  { subst w1. cbn [self input_shift fits]. unfold np.mean_axis0.
    now rewrite length_map, length_seq. }
  assert (fits (input_scale (self w1)) (np.ncols x)) as Hscale.
  { subst w1. cbn [self input_scale]. destruct keep_aspect; cbn [fits];
      [trivial|]. unfold np.std_axis0. now rewrite length_map, length_seq. }
  do 4 (split; [reflexivity|]).
  split; [exact (normalize_input_fits w1 x Hwf Hshift Hscale)|].
  split; [exact (denormalize_input_fits w1 x Hwf Hshift Hscale)|].
  split; [reflexivity|]. split; [reflexivity|].
  split.
  - apply input_roundtrip; try assumption.
    subst w1. cbn [self input_scale]. destruct keep_aspect; cbn [per_axis].
    + apply Forall_forall. intros c Hc.
      apply list_elem_of_In, repeat_spec in Hc. subst c.
      apply Rgt_not_eq, Rlt_gt, std_pos, Hin.
    + now apply std_axis0_nonzero.
  - apply output_roundtrip. subst w1. cbn [self output_scale].
    apply Rgt_not_eq, Rlt_gt, std_pos, Hout.
Qed.

(** The theorem at the training data [[0, 0], [2, 4]] -> [0, 4], the
    input [[5, 7], [1, 2]] and the output [7; 3]. *)
Lemma normalization_roundtrip_witness :
  input_shift
    (self (snd (adapt_normalization two_columns [0; 4] false
                  (World __init__ []))))
  = np.Vec (np.mean_axis0 two_columns) /\
  input_scale
    (self (snd (adapt_normalization two_columns [0; 4] false
                  (World __init__ []))))
  = (if false then np.Scalar0 (np.std_all two_columns)
     else np.Vec (np.std_axis0 two_columns)) /\
  output_shift
    (self (snd (adapt_normalization two_columns [0; 4] false
                  (World __init__ []))))
  = np.mean [0; 4] /\
  output_scale
    (self (snd (adapt_normalization two_columns [0; 4] false
                  (World __init__ []))))
  = np.std [0; 4] /\
  normalize_input (np.Matrix 2 [[5; 7]; [1; 2]])
    (snd (adapt_normalization two_columns [0; 4] false (World __init__ [])))
  = (Ok (np.Matrix (np.ncols (np.Matrix 2 [[5; 7]; [1; 2]]))
           (map (fun r =>
                   zip_with Rdiv
                     (zip_with Rminus r
                        (per_axis
                           (input_shift
                              (self (snd (adapt_normalization two_columns
                                            [0; 4] false
                                            (World __init__ [])))))
                           (np.ncols (np.Matrix 2 [[5; 7]; [1; 2]]))))
                     (per_axis
                        (input_scale
                           (self (snd (adapt_normalization two_columns
                                         [0; 4] false (World __init__ [])))))
                        (np.ncols (np.Matrix 2 [[5; 7]; [1; 2]]))))
              (np.rows (np.Matrix 2 [[5; 7]; [1; 2]])))),
     snd (adapt_normalization two_columns [0; 4] false (World __init__ [])))
  /\
  denormalize_input (np.Matrix 2 [[5; 7]; [1; 2]])
    (snd (adapt_normalization two_columns [0; 4] false (World __init__ [])))
  = (Ok (np.Matrix (np.ncols (np.Matrix 2 [[5; 7]; [1; 2]]))
           (map (fun r =>
                   zip_with Rplus
                     (zip_with Rmult r
                        (per_axis
                           (input_scale
                              (self (snd (adapt_normalization two_columns
                                            [0; 4] false
                                            (World __init__ [])))))
                           (np.ncols (np.Matrix 2 [[5; 7]; [1; 2]]))))
                     (per_axis
                        (input_shift
                           (self (snd (adapt_normalization two_columns
                                         [0; 4] false (World __init__ [])))))
                        (np.ncols (np.Matrix 2 [[5; 7]; [1; 2]]))))
              (np.rows (np.Matrix 2 [[5; 7]; [1; 2]])))),
     snd (adapt_normalization two_columns [0; 4] false (World __init__ [])))
  /\
  normalize_output [7; 3]
    (snd (adapt_normalization two_columns [0; 4] false (World __init__ [])))
  = (Ok (map (fun v =>
                (v - output_shift
                       (self (snd (adapt_normalization two_columns [0; 4]
                                     false (World __init__ [])))))
                / output_scale
                    (self (snd (adapt_normalization two_columns [0; 4]
                                  false (World __init__ [])))))
           [7; 3]),
     snd (adapt_normalization two_columns [0; 4] false (World __init__ [])))
  /\
  denormalize_output [7; 3]
    (snd (adapt_normalization two_columns [0; 4] false (World __init__ [])))
  = (Ok (map (fun v =>
                v * output_scale
                      (self (snd (adapt_normalization two_columns [0; 4]
                                    false (World __init__ []))))
                + output_shift
                    (self (snd (adapt_normalization two_columns [0; 4]
                                  false (World __init__ [])))))
           [7; 3]),
     snd (adapt_normalization two_columns [0; 4] false (World __init__ [])))
  /\
  (x' <- normalize_input (np.Matrix 2 [[5; 7]; [1; 2]]) ;;
   denormalize_input x')
    (snd (adapt_normalization two_columns [0; 4] false (World __init__ [])))
  = (Ok (np.Matrix 2 [[5; 7]; [1; 2]]),
     snd (adapt_normalization two_columns [0; 4] false (World __init__ [])))
  /\
  (y' <- normalize_output [7; 3] ;; denormalize_output y')
    (snd (adapt_normalization two_columns [0; 4] false (World __init__ [])))
  = (Ok [7; 3],
     snd (adapt_normalization two_columns [0; 4] false (World __init__ []))).
Proof.
  apply (normalization_roundtrip two_columns [0; 4] false (World __init__ [])
           (snd (adapt_normalization two_columns [0; 4] false
                   (World __init__ [])))
           (np.Matrix 2 [[5; 7]; [1; 2]]) [7; 3]).
  - reflexivity.
  - split.
    + apply Rgt_not_eq, Rlt_gt, varies_var_pos. exists 0, 4. simpl.
      split; [tauto|]. split; [tauto|lra].
    + intros j Hj. cbn [np.ncols two_columns] in Hj.
      apply Rgt_not_eq, Rlt_gt, varies_var_pos.
      destruct j as [|[|j]]; [| |lia].
      * exists 0, 2. simpl. split; [tauto|]. split; [tauto|lra].
      * exists 0, 4. simpl. split; [tauto|]. split; [tauto|lra].
  - repeat constructor.
  - reflexivity.
Defined.

End RoundTripAfterAdapt.

Section RoundTripBinary64.

(** C6, as stated, fails in binary64, the arithmetic of the code: the
    round trip is not within a tolerance of its argument.  After
    [adapt_normalization] on the column [0, 2^-20] and the output
    [0, 2^-20] (computed variance [2^-42], not zero), the normalised
    value of the finite number [2^1010] overflows, and the round trip
    returns [+inf], for the input and for the output.  After
    [adapt_normalization] on the column [0, 2^-664], which is not
    constant, the computed standard deviation underflows to zero and
    the round trip of [0.0] returns NaN.  (The columns have two entries,
    where [np.sum] adds exactly as the accumulation from zero.) *)
Lemma roundtrip_binary64_counterexample :
  np.var [S754_zero false; pow2 (-20)] = pow2 (-42) /\
  fst ((x' <- normalize_input (np.Matrix 1 [[pow2 1010]]) ;;
        denormalize_input x')
         (snd (adapt_normalization
                 (np.Matrix 1 [[S754_zero false]; [pow2 (-20)]])
                 [S754_zero false; pow2 (-20)] false (World __init__ []))))
  = Ok (np.Matrix 1 [[S754_infinity false]]) /\
  fst ((y' <- normalize_output [pow2 1010] ;; denormalize_output y')
         (snd (adapt_normalization
                 (np.Matrix 1 [[S754_zero false]; [pow2 (-20)]])
                 [S754_zero false; pow2 (-20)] false (World __init__ []))))
  = Ok [S754_infinity false] /\
  fst ((x' <- normalize_input (np.Matrix 1 [[S754_zero false]]) ;;
        denormalize_input x')
         (snd (adapt_normalization
                 (np.Matrix 1 [[S754_zero false]; [pow2 (-664)]])
                 [S754_zero false; pow2 (-20)] false (World __init__ []))))
  = Ok (np.Matrix 1 [[S754_nan]]).
Proof. repeat split; vm_compute; reflexivity. Qed.

End RoundTripBinary64.

(** ** The normalisation attributes are written by [adapt_normalization] only *)

Section Frozen.
Context {T : Type} `{Scalar T}.

Lemma frozen_ret {A} (a : A) : frozen (ret a : M T A).
Proof. now intros w. Qed.

Lemma frozen_lift {A} (r : res A) : frozen (lift r : M T A).
Proof. now intros w. Qed.

Lemma frozen_get {A} (field : RBFnet T -> A) : frozen (get field).
Proof. now intros w. Qed.

Lemma frozen_getattr {A} (field : RBFnet T -> option A) :
  frozen (getattr field).
Proof. intros w. unfold getattr. now destruct (field (self w)). Qed.

Lemma frozen_print (l : line T) : frozen (print l).
Proof. now intros w. Qed.

Lemma frozen_assert (b : bool) : frozen (assert b : M T unit).
Proof. now destruct b. Qed.

Lemma frozen_setattr (update : RBFnet T -> RBFnet T) :
  (forall n, normalization_of (update n) = normalization_of n) ->
  frozen (setattr update).
Proof. intros Hu w. apply Hu. Qed.

Lemma frozen_bind {A B} (c : M T A) (k : A -> M T B) :
  frozen c -> (forall a, frozen (k a)) -> frozen (x <- c ;; k x).
Proof.
  intros Hc Hk w. unfold bind. specialize (Hc w).
  destruct (c w) as [[a|e] w']; simpl in *; [|assumption].
  now rewrite Hk.
Qed.

Lemma frozen_for_each {S} (body : nat -> S -> M T S) (idx : list nat) (s : S) :
  (forall j s', frozen (body j s')) -> frozen (for_each body idx s).
Proof.
  intros Hbody. revert s. induction idx as [|j idx IH]; intros s; simpl.
  - apply frozen_ret.
  - apply frozen_bind; [apply Hbody | intros s'; apply IH].
Qed.

Lemma frozen_run_minimize (fun_ : T -> M T T) (callback_ : T -> M T unit)
  (o : optimizer T) :
  (forall x, frozen (fun_ x)) -> (forall x, frozen (callback_ x)) ->
  frozen (run_minimize fun_ callback_ o).
Proof.
  intros Hf Hc. induction o as [x | x k IH | xk k IH]; simpl.
  - apply frozen_ret.
  - apply frozen_bind; [apply Hf | intros y; apply IH].
  - apply frozen_bind; [apply Hc | intros _; apply IH].
Qed.

Create HintDb frozen.
#[local] Hint Resolve frozen_ret frozen_lift frozen_get frozen_getattr
  frozen_print frozen_assert : frozen.
#[local] Hint Extern 1 (frozen (setattr _)) =>
  apply frozen_setattr; intros ?; reflexivity : frozen.

(** One step through a method body: a primitive or an already treated
    method, a loop, a destructuring [let], a branch on [verbose], or a
    sequencing. *)
Ltac frozen_step :=
  first
    [ solve [auto 1 with frozen nocore]
    | apply frozen_for_each; intros ? ?
    | match goal with
      | |- frozen (let '(_, _) := ?p in _) => destruct p
      | |- frozen (if ?b then _ else _) => destruct b
      end
    | apply frozen_bind; [|intros ?] ].

Ltac frozen_steps := repeat frozen_step.

Lemma frozen_normalize_input (x : np.matrix T) : frozen (normalize_input x).
Proof. unfold normalize_input. frozen_steps. Qed.

Lemma frozen_normalize_output (y : list T) : frozen (normalize_output y).
Proof. unfold normalize_output. frozen_steps. Qed.

Lemma frozen_denormalize_input (x : np.matrix T) :
  frozen (denormalize_input x).
Proof. unfold denormalize_input. frozen_steps. Qed.

Lemma frozen_denormalize_output (y : list T) :
  frozen (denormalize_output y).
Proof. unfold denormalize_output. frozen_steps. Qed.

#[local] Hint Resolve frozen_normalize_input frozen_normalize_output
  frozen_denormalize_input frozen_denormalize_output : frozen.

Variable KMeans_fit : nat -> option Z -> np.matrix T -> res (np.matrix T).
Variable lstsq :
  np.matrix T -> list T -> res (list T * list T * nat * list T).
Variable options : Type.
Variable minimize : T -> T -> option options -> string -> optimizer T.

Lemma frozen_compute_centers (input : np.matrix T) (num : nat)
  (random_state : option Z) :
  frozen (compute_centers KMeans_fit input num random_state).
Proof. unfold compute_centers. frozen_steps. Qed.

Lemma frozen_fit_weights (input : np.matrix T) (output : list T) (radius : T)
  (rbf : T -> T) :
  frozen (fit_weights lstsq input output radius rbf).
Proof.
  unfold fit_weights, fit_weights_matrix, for_range. frozen_steps.
Qed.

Lemma frozen_predict (input : np.matrix T) : frozen (predict input).
Proof. unfold predict, for_range. frozen_steps. Qed.

#[local] Hint Resolve frozen_fit_weights frozen_predict : frozen.

Lemma frozen_fit_weights_and_radius (input : np.matrix T) (output : list T)
  (rbf : T -> T) (measure verbose : pyobj T) (method : string)
  (options_ : option options) (tol : T) :
  frozen (fit_weights_and_radius lstsq options minimize input output rbf
            measure verbose method options_ tol).
Proof.
  unfold fit_weights_and_radius.
  apply frozen_bind; [frozen_steps | intros _].
  apply frozen_bind; [frozen_steps | intros _].
  apply frozen_bind; [|intros _; apply frozen_ret].
  apply frozen_run_minimize; intros x.
  - unfold objective. frozen_steps.
  - unfold callback. frozen_steps.
Qed.

(** No call short of retraining changes a normalisation attribute,
    whether it returns or raises. *)
Lemma exec_frozen (w : world T) (op : operation options) :
  normalization_of (self (exec KMeans_fit lstsq options minimize w op))
  = normalization_of (self w).
Proof.
  destruct op; unfold exec.
  - apply frozen_compute_centers.
  - apply frozen_fit_weights.
  - apply frozen_fit_weights_and_radius.
  - apply frozen_predict.
  - apply frozen_normalize_input.
  - apply frozen_normalize_output.
  - apply frozen_denormalize_input.
  - apply frozen_denormalize_output.
Qed.

(** No sequence of calls short of retraining changes a normalisation
    attribute. *)
Lemma exec_all_frozen (ops : list (operation options)) (w : world T) :
  normalization_of
    (self (fold_left (exec KMeans_fit lstsq options minimize) ops w))
  = normalization_of (self w).
Proof.
  revert w. induction ops as [|op ops IH]; intros w; simpl; [reflexivity|].
  now rewrite IH, exec_frozen.
Qed.

End Frozen.

(** ** Positivity of the input scale *)

Section InputScale.
Local Open Scope R_scope.

Lemma std_of_var_pos (l : list R) : 0 < np.var l -> 0 < np.std l.
Proof. intros Hv. now apply sqrt_lt_R0. Qed.

Lemma std_constant_pair : np.std [1; 1] = 0.
Proof.
  unfold np.std, np.var, np.mean, np.sum, np.len. simpl.
  change (Z.of_nat 2) with 2%Z.
  match goal with |- sqrt ?e = 0 => replace e with 0 by lra end.
  apply sqrt_0.
Qed.

(** C9, as stated, fails: a constant input column gets the scale 0. *)
Lemma input_scale_zero_on_constant_column :
  ~ scale_positive
      (input_scale
         (self (snd (adapt_normalization (np.Matrix 1 [[1]; [1]]) [0; 1]
                       false (World __init__ []))))).
Proof.
  rewrite adapt_normalization_run. cbn [snd self input_scale].
  change (np.std_axis0 (np.Matrix 1 [[1]; [1]])) with [np.std [1; 1]].
  rewrite std_constant_pair. intros Hpos. simpl in Hpos.
  inversion Hpos as [|? ? H0 _]. lra.
Qed.

(** The same with [keep_aspect]: a constant input gets the scale 0. *)
Lemma input_scale_zero_on_constant_input :
  ~ scale_positive
      (input_scale
         (self (snd (adapt_normalization (np.Matrix 1 [[1]; [1]]) [0; 1]
                       true (World __init__ []))))).
Proof.
  rewrite adapt_normalization_run. cbn [snd self input_scale].
  change (np.std_all (np.Matrix 1 [[1]; [1]])) with (np.std [1; 1]).
  rewrite std_constant_pair. simpl. lra.
Qed.

Lemma adapt_normalization_scale_positive (input : np.matrix R)
  (output : list R) (keep_aspect : bool) (w : world R) :
  input_varies input keep_aspect ->
  scale_positive
    (input_scale (self (snd (adapt_normalization input output keep_aspect w)))).
Proof.
  intros Hvar. rewrite adapt_normalization_run. simpl.
  destruct keep_aspect; simpl in *.
  - now apply std_of_var_pos, varies_var_pos.
  - unfold np.std_axis0. apply Forall_map, Forall_forall. intros j Hj.
    apply list_elem_of_In, in_seq in Hj. simpl.
    apply std_of_var_pos, varies_var_pos, Hvar. lia.
Qed.

Variable KMeans_fit : nat -> option Z -> np.matrix R -> res (np.matrix R).
Variable lstsq :
  np.matrix R -> list R -> res (list R * list R * nat * list R).
Variable options : Type.
Variable minimize : R -> R -> option options -> string -> optimizer R.

(** C9, amended.  In exact arithmetic, when no normalised axis of the
    training input is constant, every component of [input_scale] is
    strictly positive after [adapt_normalization], and stays so through
    every later call short of retraining, whether the call returns or
    raises. *)
Theorem input_scale_positive_until_retraining
  (input : np.matrix R) (output : list R) (keep_aspect : bool) (w : world R)
  (ops : list (operation options)) :
  input_varies input keep_aspect ->
  scale_positive
    (input_scale
       (self
          (fold_left (exec KMeans_fit lstsq options minimize) ops
             (snd (adapt_normalization input output keep_aspect w))))).
Proof.
  intros Hvar.
  pose proof (exec_all_frozen KMeans_fit lstsq options minimize ops
                (snd (adapt_normalization input output keep_aspect w))) as Hfr.
  apply (f_equal (fun t => snd (fst (fst t)))) in Hfr. simpl in Hfr.
  rewrite Hfr. now apply adapt_normalization_scale_positive.
Qed.

End InputScale.

Section InputScaleWitness.
Local Open Scope R_scope.

(** The theorem at the training data [[0], [2]] -> [0, 2], followed by
    centre placement, a weight fit, a radius search and a prediction. *)
Lemma input_scale_positive_until_retraining_witness :
  scale_positive
    (input_scale
       (self
          (fold_left (exec first_points zero_weights unit one_evaluation)
             [call_compute_centers (np.Matrix 1 [[0]; [2]]) 1 None;
              call_fit_weights (np.Matrix 1 [[0]; [2]]) [0; 2] 1 gaussian;
              call_fit_weights_and_radius (np.Matrix 1 [[0]; [2]]) [0; 2]
                gaussian (PyFunction rms_error) (PyBool false)
                default_method None default_tol;
              call_predict (np.Matrix 1 [[1]])]
             (snd (adapt_normalization (np.Matrix 1 [[0]; [2]]) [0; 2] false
                     (World __init__ [])))))).
Proof.
  apply (input_scale_positive_until_retraining first_points zero_weights unit
           one_evaluation (np.Matrix 1 [[0]; [2]]) [0; 2] false
           (World __init__ [])).
  intros j Hj. simpl in Hj. assert (j = 0%nat) as -> by lia.
  exists 0, 2. simpl. split; [tauto|]. split; [tauto|lra].
Defined.

End InputScaleWitness.

Section InputScaleBinary64.

(** The amended statement is one of exact arithmetic.  In binary64 the
    stored scale is the computed [np.std], which is zero also for a
    column that is not constant when the squared deviations underflow:
    the column [0, 2^-664] gets the scale 0.0, with and without
    [keep_aspect]. *)
Example input_scale_underflow_binary64 :
  input_scale
    (self (snd (adapt_normalization
                  (np.Matrix 1 [[S754_zero false]; [pow2 (-664)]])
                  [S754_zero false; pow2 (-20)] false (World __init__ []))))
  = np.Vec [S754_zero false] /\
  input_scale
    (self (snd (adapt_normalization
                  (np.Matrix 1 [[S754_zero false]; [pow2 (-664)]])
                  [S754_zero false; pow2 (-20)] true (World __init__ []))))
  = np.Scalar0 (S754_zero false).
Proof. split; vm_compute; reflexivity. Qed.

End InputScaleBinary64.

(** ** The RMS error *)

Section RmsError.
Local Open Scope R_scope.

Lemma zip_with_Rminus_zero (p t : list R) :
  length p = length t ->
  Forall (fun x => x = 0) (zip_with Rminus p t) <-> p = t.
Proof.
  revert t. induction p as [|a p IH]; intros [|b t] Hlen; simpl in *;
    try discriminate.
  - split; [reflexivity | constructor].
  - injection Hlen as Hlen. split.
    + intros Hall. inversion Hall as [|? ? Hab Hrest]; subst.
      apply IH in Hrest; [|assumption]. f_equal; [lra | assumption].
    + intros Heq. injection Heq as -> ->. constructor; [lra|].
      now apply IH.
Qed.

(** C7, amended.  In exact arithmetic, for equal-length nonempty
    vectors, [rms_error] returns a value, the value is non-negative, and
    it is zero exactly when the prediction equals the truth entry by
    entry. *)
Theorem rms_error_nonneg_zero_iff (y_true y_pred : list R) :
  length y_pred = length y_true ->
  y_true <> [] ->
  exists r, rms_error y_true y_pred = Ok r /\
            0 <= r /\
            (r = 0 <-> y_pred = y_true).
Proof.
  intros Hlen Hne. unfold rms_error.
  rewrite broadcast1_same_length by assumption. simpl.
  set (e := zip_with Rminus y_pred y_true).
  assert (e <> []) as He.
  { subst e. destruct y_pred, y_true; simpl in *; congruence. }
  pose proof (len_pos e He) as Hn.
  change (np.len e) with (IZR (Z.of_nat (length e))) in Hn.
  pose proof (sum_square_nonneg e) as Hs.
  eexists. split; [reflexivity|]. split; [apply sqrt_pos|].
  rewrite <- (zip_with_Rminus_zero y_pred y_true Hlen).
  fold e. rewrite <- sum_square_zero. split.
  - intros Hr. apply sqrt_eq_0 in Hr.
    + apply Rmult_integral in Hr as [Hr|Hr]; [assumption|].
      pose proof (Rinv_0_lt_compat _ Hn). lra.
    + now apply div_nonneg; [|left].
  - intros ->. unfold Rdiv. rewrite Rmult_0_l. apply sqrt_0.
Qed.

(** The theorem at a concrete pair: truth [1; 2], prediction [1; 4]. *)
Lemma rms_error_nonneg_zero_iff_witness :
  exists r, rms_error [1; 2] [1; 4] = Ok r /\
            0 <= r /\
            (r = 0 <-> [1; 4] = [1; 2]).
Proof.
  apply (rms_error_nonneg_zero_iff [1; 2] [1; 4]).
  - reflexivity.
  - discriminate.
Defined.

End RmsError.

Section RmsErrorBinary64.

(** C7, as stated, fails in binary64, the arithmetic of the code.  The
    prediction [2^-664] against the truth [0.0] has the RMS error 0.0,
    because the squared difference underflows, though prediction and
    truth differ; and the RMS error of [inf] against [inf] is NaN, which
    is neither zero nor at least zero, though prediction and truth are
    equal.  (The vectors have one entry, where [np.sum] adds exactly as
    the accumulation from zero.) *)
Lemma rms_error_binary64_counterexample :
  rms_error [S754_zero false] [pow2 (-664)] = Ok (S754_zero false) /\
  [pow2 (-664)] <> [S754_zero false] /\
  rms_error [S754_infinity false] [S754_infinity false] = Ok S754_nan /\
  SFleb (S754_zero false) S754_nan = false.
Proof.
  split; [reflexivity|]. split; [|split; reflexivity].
  intros Heq. vm_compute in Heq. discriminate.
Qed.

End RmsErrorBinary64.

(** ** Relative errors in binary64 *)

Section RelativeErrors.
Local Abbreviation f64 := b64.float64.

Lemma div_by_zero_nonfinite (x : f64) (s : bool) :
  b64.nonfinite (fdiv x (S754_zero s)).
Proof. now destruct x. Qed.

Lemma rel_entry_nonfinite (p t : f64) :
  b64.is_zero t -> b64.nonfinite (fdiv (fsub p t) t).
Proof.
  destruct t; try contradiction. intros _. apply div_by_zero_nonfinite.
Qed.

Lemma add_nonfinite_l (x y : f64) : b64.nonfinite x -> b64.nonfinite (fadd x y).
Proof. destruct x as [| [|] | |], y as [| [|] | |]; now simpl. Qed.

Lemma add_nonfinite_r (x y : f64) : b64.nonfinite y -> b64.nonfinite (fadd x y).
Proof. destruct x as [| [|] | |], y as [| [|] | |]; now simpl. Qed.

Lemma sub_nonfinite_r (x y : f64) : b64.nonfinite y -> b64.nonfinite (fsub x y).
Proof. destruct x as [| [|] | |], y as [| [|] | |]; now simpl. Qed.

Lemma square_nonfinite (x : f64) : b64.nonfinite x -> b64.nonfinite (fmul x x).
Proof. destruct x as [| [|] | |]; now simpl. Qed.

Lemma div_nonfinite_l (x y : f64) : b64.nonfinite x -> b64.nonfinite (fdiv x y).
Proof. destruct x as [| [|] | |], y as [| [|] | |]; now simpl. Qed.

Lemma sqrt_nonfinite (x : f64) : b64.nonfinite x -> b64.nonfinite (fsqrt x).
Proof. destruct x as [| [|] | |]; now simpl. Qed.

Lemma abs_nonfinite (x : f64) : b64.nonfinite x -> b64.nan_or_pinf (fabs x).
Proof. destruct x as [| [|] | |]; now simpl. Qed.

Lemma nan_or_pinf_nonfinite (x : f64) : b64.nan_or_pinf x -> b64.nonfinite x.
Proof. destruct x as [| [|] | |]; now simpl. Qed.

Lemma maximum_nan_or_pinf_l (x y : f64) :
  b64.nan_or_pinf x -> b64.nan_or_pinf (fmaximum x y).
Proof.
  destruct x as [| [|] | |], y as [| [|] | |]; now simpl.
Qed.

Lemma maximum_nan_or_pinf_r (x y : f64) :
  b64.nan_or_pinf y -> b64.nan_or_pinf (fmaximum x y).
Proof.
  destruct x as [| [|] | | [|] ? ?], y as [| [|] | |]; now simpl.
Qed.

Lemma sum_acc_nonfinite (l : list f64) (a : f64) :
  b64.nonfinite a -> b64.nonfinite (fold_left fadd l a).
Proof.
  revert a. induction l as [|x l IH]; intros a Ha; simpl; [assumption|].
  now apply IH, add_nonfinite_l.
Qed.

Lemma fold_sum_nonfinite (l : list f64) (a : f64) :
  Exists b64.nonfinite l -> b64.nonfinite (fold_left fadd l a).
Proof.
  intros Hex. revert a. induction Hex as [x l Hx | x l _ IH]; intros a; simpl.
  - now apply sum_acc_nonfinite, add_nonfinite_r.
  - apply IH.
Qed.

(** A sum with a non-finite term is non-finite. *)
Lemma sum_nonfinite (l : list f64) :
  Exists b64.nonfinite l -> b64.nonfinite (np.sum l).
Proof. apply fold_sum_nonfinite. Qed.

Lemma mean_nonfinite (l : list f64) :
  Exists b64.nonfinite l -> b64.nonfinite (np.mean l).
Proof. intros Hex. now apply div_nonfinite_l, sum_nonfinite. Qed.

Lemma square_exists_nonfinite (l : list f64) :
  Exists b64.nonfinite l -> Exists b64.nonfinite (np.square l).
Proof.
  induction 1 as [x l Hx | x l _ IH]; simpl.
  - left. now apply square_nonfinite.
  - now right.
Qed.

Lemma abs_exists_nonfinite (l : list f64) :
  Exists b64.nonfinite l -> Exists b64.nan_or_pinf (np.abs l).
Proof.
  induction 1 as [x l Hx | x l _ IH]; simpl.
  - left. now apply abs_nonfinite.
  - now right.
Qed.

Lemma exists_nan_or_pinf_nonfinite (l : list f64) :
  Exists b64.nan_or_pinf l -> Exists b64.nonfinite l.
Proof.
  induction 1 as [x l Hx | x l _ IH]; [left | now right].
  now apply nan_or_pinf_nonfinite.
Qed.

Lemma fold_maximum_acc (l : list f64) (a : f64) :
  b64.nan_or_pinf a -> b64.nan_or_pinf (fold_left fmaximum l a).
Proof.
  revert a. induction l as [|x l IH]; intros a Ha; simpl; [assumption|].
  now apply IH, maximum_nan_or_pinf_l.
Qed.

Lemma fold_maximum_exists (l : list f64) (a : f64) :
  Exists b64.nan_or_pinf l -> b64.nan_or_pinf (fold_left fmaximum l a).
Proof.
  intros Hex. revert a. induction Hex as [x l Hx | x l _ IH]; intros a; simpl.
  - now apply fold_maximum_acc, maximum_nan_or_pinf_r.
  - apply IH.
Qed.

(** The maximum of absolute values, one of them non-finite. *)
Lemma max_nonfinite (l : list f64) :
  Exists b64.nan_or_pinf l ->
  exists r, np.max l = Ok r /\ b64.nonfinite r.
Proof.
  intros Hex. inversion Hex as [x l' Hx | x l' Hl']; subst; simpl;
    eexists; (split; [reflexivity|]); apply nan_or_pinf_nonfinite.
  - now apply fold_maximum_acc.
  - now apply fold_maximum_exists.
Qed.

(** Deviations from a non-finite mean are all non-finite. *)
Lemma std_nonfinite (l : list f64) :
  Exists b64.nonfinite l -> b64.nonfinite (np.std l).
Proof.
  intros Hex. apply sqrt_nonfinite. unfold np.var.
  pose proof (mean_nonfinite l Hex) as Hm.
  apply mean_nonfinite.
  inversion Hex as [x l' _ | x l' _]; subst; simpl; left;
    now apply square_nonfinite, sub_nonfinite_r.
Qed.

(** Where the truth is zero, [(pred-true)/true] is non-finite. *)
Lemma rel_err_nonfinite (y_true y_pred : list f64) :
  length y_pred = length y_true ->
  Exists b64.is_zero y_true ->
  exists e, rel_err y_true y_pred = Ok e /\ Exists b64.nonfinite e.
Proof.
  intros Hlen Hex. unfold rel_err.
  rewrite broadcast1_same_length by assumption. simpl.
  rewrite broadcast1_same_length by (now rewrite length_zip_with; lia).
  eexists. split; [reflexivity|].
  revert y_pred Hlen.
  induction Hex as [t l Ht | t l _ IH]; intros [|p y_pred] Hlen;
    simpl in *; try discriminate.
  - left. now apply rel_entry_nonfinite.
  - right. apply IH. now injection Hlen.
Qed.

(** C8. When some entry of the truth is exactly zero, every relative
    error metric returns a non-finite value (an infinity or a NaN): the
    division by zero is neither masked nor guarded. *)
Theorem relative_errors_nonfinite_at_zero (y_true y_pred : list f64) :
  length y_pred = length y_true ->
  Exists b64.is_zero y_true ->
  (exists r, rms_rel_error y_true y_pred = Ok r /\ b64.nonfinite r) /\
  (exists r, max_rel_error y_true y_pred = Ok r /\ b64.nonfinite r) /\
  (exists r, mean_rel_error y_true y_pred = Ok r /\ b64.nonfinite r) /\
  (exists r, rel_error_bias y_true y_pred = Ok r /\ b64.nonfinite r) /\
  (exists r, rel_error_std y_true y_pred = Ok r /\ b64.nonfinite r).
Proof.
  intros Hlen Hzero.
  destruct (rel_err_nonfinite y_true y_pred Hlen Hzero) as (e & He & Hex).
  unfold rms_rel_error, max_rel_error, mean_rel_error, rel_error_bias,
    rel_error_std.
  rewrite He. simpl. repeat split.
  - eexists. split; [reflexivity|].
    now apply sqrt_nonfinite, div_nonfinite_l, sum_nonfinite,
      square_exists_nonfinite.
  - now apply max_nonfinite, abs_exists_nonfinite.
  - eexists. split; [reflexivity|].
    now apply mean_nonfinite, exists_nan_or_pinf_nonfinite,
      abs_exists_nonfinite.
  - eexists. split; [reflexivity|]. now apply mean_nonfinite.
  - eexists. split; [reflexivity|]. now apply std_nonfinite.
Qed.

(** The theorem at truth [0.0] and prediction [1.0]. *)
Lemma relative_errors_nonfinite_at_zero_witness :
  (exists r, rms_rel_error [S754_zero false] [of_Z 1] = Ok r
             /\ b64.nonfinite r) /\
  (exists r, max_rel_error [S754_zero false] [of_Z 1] = Ok r
             /\ b64.nonfinite r) /\
  (exists r, mean_rel_error [S754_zero false] [of_Z 1] = Ok r
             /\ b64.nonfinite r) /\
  (exists r, rel_error_bias [S754_zero false] [of_Z 1] = Ok r
             /\ b64.nonfinite r) /\
  (exists r, rel_error_std [S754_zero false] [of_Z 1] = Ok r
             /\ b64.nonfinite r).
Proof.
  apply (relative_errors_nonfinite_at_zero [S754_zero false] [of_Z 1]).
  - reflexivity.
  - left. exact I.
Defined.

(** Evaluations: truth [0.0; 2.0] against prediction [1.0; 2.0] gives
    [+inf]; a zero predicted as zero gives NaN. *)
Example rms_rel_error_inf :
  rms_rel_error [S754_zero false; of_Z 2] [of_Z 1; of_Z 2]
  = Ok (S754_infinity false).
Proof. vm_compute. reflexivity. Qed.

Example max_rel_error_inf :
  max_rel_error [S754_zero false; of_Z 2] [of_Z 1; of_Z 2]
  = Ok (S754_infinity false).
Proof. vm_compute. reflexivity. Qed.

Example rel_error_bias_nan :
  rel_error_bias [S754_zero false] [S754_zero false] = Ok S754_nan.
Proof. vm_compute. reflexivity. Qed.

(** The binary64 instance computes the values of IEEE arithmetic:
    the RMS error of [1, 4] against [1, 2] is the double nearest to the
    square root of 2, and the standard deviation of [1, 2, 3, 4] the
    double nearest to the square root of 1.25. *)
Example rms_error_binary64 :
  rms_error [of_Z 1; of_Z 2] [of_Z 1; of_Z 4]
  = Ok (S754_finite false 6369051672525773 (-52)).
Proof. vm_compute. reflexivity. Qed.

Example std_binary64 :
  np.std [of_Z 1; of_Z 2; of_Z 3; of_Z 4]
  = S754_finite false 5035177455121576 (-52).
Proof. vm_compute. reflexivity. Qed.

End RelativeErrors.

(** ** Methods without side effects *)

Section ReadOnly.
Context {T : Type} `{Scalar T}.

Lemma readonly_ret {A} (a : A) : readonly (ret a : M T A).
Proof. now intros w. Qed.

Lemma readonly_lift {A} (r : res A) : readonly (lift r : M T A).
Proof. now intros w. Qed.

Lemma readonly_get {A} (field : RBFnet T -> A) : readonly (get field).
Proof. now intros w. Qed.

Lemma readonly_getattr {A} (field : RBFnet T -> option A) :
  readonly (getattr field).
Proof. intros w. unfold getattr. now destruct (field (self w)). Qed.

Lemma readonly_bind {A B} (c : M T A) (k : A -> M T B) :
  readonly c -> (forall a, readonly (k a)) -> readonly (x <- c ;; k x).
Proof.
  intros Hc Hk w. unfold bind. specialize (Hc w).
  destruct (c w) as [[a|e] w']; simpl in *; subst; [apply Hk | reflexivity].
Qed.

Lemma readonly_for_each {S} (body : nat -> S -> M T S) (idx : list nat)
  (s : S) :
  (forall j s', readonly (body j s')) -> readonly (for_each body idx s).
Proof.
  intros Hbody. revert s. induction idx as [|j idx IH]; intros s; simpl.
  - apply readonly_ret.
  - apply readonly_bind; [apply Hbody | intros s'; apply IH].
Qed.

Create HintDb readonly.
#[local] Hint Resolve readonly_ret readonly_lift readonly_get
  readonly_getattr : readonly.

Ltac readonly_steps :=
  repeat first
    [ solve [auto 1 with readonly nocore]
    | apply readonly_for_each; intros ? ?
    | apply readonly_bind; [|intros ?] ].

Lemma readonly_normalize_input (x : np.matrix T) :
  readonly (normalize_input x).
Proof. unfold normalize_input. readonly_steps. Qed.

Lemma readonly_normalize_output (y : list T) : readonly (normalize_output y).
Proof. unfold normalize_output. readonly_steps. Qed.

Lemma readonly_denormalize_input (x : np.matrix T) :
  readonly (denormalize_input x).
Proof. unfold denormalize_input. readonly_steps. Qed.

Lemma readonly_denormalize_output (y : list T) :
  readonly (denormalize_output y).
Proof. unfold denormalize_output. readonly_steps. Qed.

#[local] Hint Resolve readonly_normalize_input readonly_denormalize_output
  : readonly.

(** [predict] assigns no attribute and prints nothing, on any input and
    in any state, whether it returns or raises. *)
Lemma predict_readonly (input : np.matrix T) (w : world T) :
  snd (predict input w) = w.
Proof.
  revert w. change (readonly (predict input)).
  unfold predict, for_range. readonly_steps.
Qed.

End ReadOnly.

(** ** Prediction *)

Section Predict.
Context {T : Type} `{Scalar T}.

Lemma row_lookup (A : np.matrix T) (j : nat) (r : list T) :
  np.rows A !! j = Some r -> np.row A j = Ok r.
Proof. intros Hr. unfold np.row. now rewrite Hr. Qed.

Lemma item_lookup (v : list T) (j : nat) (x : T) :
  v !! j = Some x -> np.item v j = Ok x.
Proof. intros Hx. unfold np.item. now rewrite Hx. Qed.

Lemma iadd_same_length (a b : list T) :
  length b = length a -> np.iadd a b = Ok (zip_with fadd a b).
Proof. intros Hlen. unfold np.iadd. now rewrite Hlen, Nat.eqb_refl. Qed.

Lemma zip_with_map_r {A B C} (f : A -> B -> C) (g : A -> B) (l : list A) :
  zip_with f l (map g l) = map (fun x => f x (g x)) l.
Proof. induction l as [|x l IH]; simpl; [reflexivity | now rewrite IH]. Qed.

Lemma zip_with_zip_with_map {A} (f : T -> A -> T) (g : A -> T)
  (acc : list T) (xs : list A) :
  zip_with f (zip_with fadd acc (map g xs)) xs
  = zip_with (fun a x => f (fadd a (g x)) x) acc xs.
Proof.
  revert acc. induction xs as [|x xs IH]; intros [|a acc]; simpl;
    try reflexivity. now rewrite IH.
Qed.

Lemma zip_with_fst_id {A} (acc : list T) (xs : list A) :
  length acc = length xs -> zip_with (fun a _ => a) acc xs = acc.
Proof.
  revert acc. induction xs as [|x xs IH]; intros [|a acc] Hlen; simpl in *;
    try reflexivity; try discriminate. rewrite IH; [reflexivity | congruence].
Qed.

Lemma zip_with_zeros {A} (f : T -> A -> T) (xs : list A) :
  zip_with f (np.zeros (length xs)) xs = map (f (of_Z 0)) xs.
Proof. unfold np.zeros. induction xs as [|x xs IH]; simpl; [reflexivity | now rewrite IH]. Qed.

(** The accumulation loop of [predict], from centre [i] on: every
    entry of the accumulator receives the remaining terms of its sum. *)
Lemma predict_loop (w : world T) (inp cs : np.matrix T) (ws : list T)
  (kernel : T -> T) (r : T) (n i : nat) (acc : list T) :
  centers (self w) = Some cs -> coeffs (self w) = Some ws ->
  rbf (self w) = Some kernel -> radius (self w) = Some r ->
  np.wf cs -> length ws = np.nrows cs ->
  np.wf inp -> np.ncols inp = np.ncols cs ->
  length acc = np.nrows inp ->
  i + n = np.nrows cs ->
  for_each
    (fun j output =>
       cj <- lift (np.row cs j) ;;
       d <- lift (np.broadcast2 fsub inp (np.Vec cj)) ;;
       let distance := np.norm_axis1 d in
       w <- getattr coeffs ;;
       wj <- lift (np.item w j) ;;
       kernel <- getattr rbf ;;
       r <- getattr radius ;;
       lift (np.iadd output
               (map (fmul wj) (map kernel (map (fun t => fdiv t r) distance)))))
    (seq i n) acc w
  = (Ok (zip_with
           (fun a x =>
              fold_left
                (fun acc cw =>
                   fadd acc (fmul (snd cw) (basis kernel r x (fst cw))))
                (drop i (zip (np.rows cs) ws)) a)
           acc (np.rows inp)),
     w).
Proof.
  intros Hcs Hws Hk Hr Hwfc Hlen Hwfi Hcols.
  match goal with |- context [for_each ?b] => set (body := b) end.
  revert i acc. induction n as [|n IH]; intros i acc Hacc Hin;
    cbn [for_each seq].
  - rewrite drop_ge by (rewrite length_zip_with; unfold np.nrows in *; lia).
    simpl. unfold ret. now rewrite zip_with_fst_id.
  - destruct (lookup_lt_is_Some_2 (np.rows cs) i) as [c Hc];
      [unfold np.nrows in *; lia|].
    destruct (lookup_lt_is_Some_2 ws i) as [wi Hwi]; [lia|].
    assert (length c = np.ncols inp) as Hclen.
    { rewrite Hcols. unfold np.wf in Hwfc. rewrite Forall_forall in Hwfc.
      apply Hwfc. eapply list_elem_of_lookup_2. exact Hc. }
    unfold body at 1.
    rewrite run_bind_assoc, (row_lookup _ _ _ Hc), run_lift_Ok.
    rewrite run_bind_assoc, broadcast2_Vec, run_lift_Ok by assumption.
    cbv zeta. rewrite run_bind_assoc, (run_getattr_Some _ _ _ _ Hws).
    rewrite run_bind_assoc, (item_lookup _ _ _ Hwi), run_lift_Ok.
    rewrite run_bind_assoc, (run_getattr_Some _ _ _ _ Hk).
    rewrite run_bind_assoc, (run_getattr_Some _ _ _ _ Hr).
    unfold np.norm_axis1. cbn [np.rows]. rewrite !map_map.
    rewrite iadd_same_length by (rewrite length_map; unfold np.nrows in *; lia).
    rewrite run_lift_Ok.
    rewrite IH.
    + rewrite (drop_S _ (c, wi) i).
      2:{ rewrite lookup_zip_with, Hc, Hwi. reflexivity. }
      simpl. now rewrite zip_with_zip_with_map.
    + rewrite length_zip_with, length_map. unfold np.nrows in *. lia.
    + lia.
Qed.

(** [predict] on a fitted model and an input with the model's columns,
    as one equation. *)
Lemma predict_run (w : world T) (input cs : np.matrix T) (ws : list T)
  (kernel : T -> T) (r : T) :
  centers (self w) = Some cs -> coeffs (self w) = Some ws ->
  rbf (self w) = Some kernel -> radius (self w) = Some r ->
  np.wf cs -> length ws = np.nrows cs ->
  np.wf input -> np.ncols input = np.ncols cs ->
  fits (input_shift (self w)) (np.ncols input) ->
  fits (input_scale (self w)) (np.ncols input) ->
  predict input w
  = (Ok (map (fun x =>
                fadd (fmul (rbf_sum (np.rows cs) ws kernel r x)
                        (output_scale (self w)))
                  (output_shift (self w)))
           (normalized_rows (self w) input)),
     w).
Proof.
  intros Hcs Hws Hk Hr Hwfc Hlen Hwfi Hcols Hshift Hscale.
  pose proof (normalize_input_fits w input Hwfi Hshift Hscale) as Hnorm.
  destruct (normalize_input_wf _ _ _ _ Hwfi Hshift Hscale Hnorm)
    as (Hwfn & Hncols & Hnrows & _).
  unfold predict. rewrite (run_bind_Ok _ _ _ _ _ Hnorm).
  rewrite (run_getattr_Some _ _ _ _ Hcs).
  unfold for_range.
  erewrite run_bind_Ok.
  2:{ apply (predict_loop w _ cs ws kernel r (np.nrows cs) 0);
        try assumption; try congruence.
      - unfold np.zeros. now rewrite repeat_length.
      - reflexivity. }
  unfold denormalize_output. rewrite !run_get. unfold ret.
  rewrite drop_0. unfold np.nrows at 1. rewrite zip_with_zeros.
  now rewrite map_map.
Qed.

(** C5. On a fitted model and a well-formed input with the model's
    columns, [predict] normalises the input, every row [x] to
    [(x - input_shift) / input_scale] along every axis, and returns,
    for each normalised row [x_norm], the sum over the centres of
    [coeffs[j] * kernel(|x_norm - centers[j]| / radius)], denormalised
    with the output scale and shift; the network and the standard
    output are left as they were. *)
Theorem predict_rbf_sum (w : world T) (input cs : np.matrix T) (ws : list T)
  (kernel : T -> T) (r : T) :
  centers (self w) = Some cs ->
  coeffs (self w) = Some ws ->
  rbf (self w) = Some kernel ->
  radius (self w) = Some r ->
  np.wf cs ->
  length ws = np.nrows cs ->
  np.wf input ->
  np.ncols input = np.ncols cs ->
  fits (input_shift (self w)) (np.ncols input) ->
  fits (input_scale (self w)) (np.ncols input) ->
  normalize_input input w
  = (Ok (np.Matrix (np.ncols input) (normalized_rows (self w) input)), w) /\
  length (normalized_rows (self w) input) = np.nrows input /\
  (forall i x,
     np.rows input !! i = Some x ->
     normalized_rows (self w) input !! i
     = Some (zip_with fdiv
               (zip_with fsub x
                  (per_axis (input_shift (self w)) (np.ncols input)))
               (per_axis (input_scale (self w)) (np.ncols input)))) /\
  predict input w
  = (Ok (map (fun x_norm =>
                fadd (fmul (rbf_sum (np.rows cs) ws kernel r x_norm)
                        (output_scale (self w)))
                  (output_shift (self w)))
           (normalized_rows (self w) input)),
     w).
Proof.
  intros Hcs Hws Hk Hr Hwfc Hlen Hwfi Hcols Hshift Hscale.
  split; [exact (normalize_input_fits w input Hwfi Hshift Hscale)|].
  split; [unfold normalized_rows, np.nrows; now rewrite length_map|].
  split.
  - intros i x Hx. unfold normalized_rows.
    now rewrite list_lookup_fmap, Hx.
  - now apply (predict_run w input cs ws kernel r).
Qed.

End Predict.

Section PredictWitness.
Local Open Scope R_scope.

(** The theorem at [trained_net] (two centres, per-axis shift and
    scale, output shift and scale 2) and the three points
    [[0, 0], [2, 4], [1, 2]]. *)
Lemma predict_rbf_sum_witness :
  normalize_input three_points trained_net
  = (Ok (np.Matrix (np.ncols three_points)
           (normalized_rows (self trained_net) three_points)),
     trained_net) /\
  length (normalized_rows (self trained_net) three_points)
  = np.nrows three_points /\
  (forall i x,
     np.rows three_points !! i = Some x ->
     normalized_rows (self trained_net) three_points !! i
     = Some (zip_with fdiv
               (zip_with fsub x
                  (per_axis (input_shift (self trained_net))
                     (np.ncols three_points)))
               (per_axis (input_scale (self trained_net))
                  (np.ncols three_points)))) /\
  predict three_points trained_net
  = (Ok (map (fun x_norm =>
                fadd (fmul (rbf_sum
                              (np.rows (np.Matrix 2 [[-1; -1]; [1; 1]]))
                              [1; 1] gaussian 1 x_norm)
                        (output_scale (self trained_net)))
                  (output_shift (self trained_net)))
           (normalized_rows (self trained_net) three_points)),
     trained_net).
Proof.
  apply (predict_rbf_sum trained_net three_points
           (np.Matrix 2 [[-1; -1]; [1; 1]]) [1; 1] gaussian 1);
    try reflexivity; repeat constructor.
Defined.

End PredictWitness.

Section PredictExample.
Local Open Scope R_scope.

(** Evaluation: the one-centre model at the point 3 predicts
    [2 * exp(-9/2)]. *)
Example predict_one_centre :
  predict (np.Matrix 1 [[3]]) one_centre_net
  = (Ok [2 * exp (- (9 / 2))], one_centre_net).
Proof.
  unfold predict, one_centre_net, bind, normalize_input, get, lift, getattr,
    for_range, denormalize_output, ret. simpl.
  unfold np.norm, np.sum, gaussian. simpl.
  replace (0 + ((3 - 0) / 1 - 0) * ((3 - 0) / 1 - 0)) with (3 * 3) by lra.
  rewrite sqrt_square by lra.
  replace (- (5 / 10) * (3 / 1 * (3 / 1))) with (- (9 / 2)) by lra.
  unfold bind, get. simpl. do 3 f_equal. lra.
Qed.

End PredictExample.

(** ** Weight fitting *)

Section DesignMatrix.
Context {T : Type} `{Scalar T}.

Lemma set_col_column (A : np.matrix T) (j : nat) (v : list T) :
  j < np.ncols A -> length v = np.nrows A ->
  np.set_col A j v
  = Ok (np.Matrix (np.ncols A)
          (zip_with (fun r x => <[j:=x]> r) (np.rows A) v)).
Proof.
  intros Hj Hlen. unfold np.set_col.
  apply Nat.ltb_lt in Hj. rewrite Hj. simpl.
  now rewrite Hlen, Nat.eqb_refl.
Qed.

Lemma zip_with_map_map {A B C D} (h : B -> C -> D) (f : A -> B) (g : A -> C)
  (l : list A) :
  zip_with h (map f l) (map g l) = map (fun x => h (f x) (g x)) l.
Proof. induction l as [|x l IH]; simpl; [reflexivity | now rewrite IH]. Qed.

Lemma partial_design_0 (xs cs : list (list T)) (kernel : T -> T) (radius : T) :
  partial_design xs cs kernel radius 0 = np.zeros2 (length xs) (length cs).
Proof.
  unfold partial_design, np.zeros2. f_equal. rewrite Nat.sub_0_r.
  induction xs as [|x xs IH]; [reflexivity|].
  cbn [map length repeat]. now rewrite IH.
Qed.

Lemma partial_design_full (xs cs : list (list T)) (kernel : T -> T)
  (radius : T) :
  partial_design xs cs kernel radius (length cs) = design xs cs kernel radius.
Proof.
  unfold partial_design, design. f_equal. apply map_ext. intros x.
  now rewrite firstn_all, Nat.sub_diag, app_nil_r.
Qed.

Lemma write_entry (b : list T -> T) (cs : list (list T)) (c : list T)
  (i : nat) :
  cs !! i = Some c ->
  <[i := b c]> (map b (take i cs) ++ np.zeros (length cs - i))
  = map b (take (S i) cs) ++ np.zeros (length cs - S i).
Proof.
  intros Hc. pose proof (lookup_lt_Some _ _ _ Hc) as Hi.
  assert (length (map b (take i cs)) = i) as Hlen
    by (rewrite length_map, length_take; lia).
  rewrite insert_app_r_alt by lia. rewrite Hlen, Nat.sub_diag.
  rewrite (take_S_r _ _ _ Hc), map_app, <- app_assoc. f_equal.
  replace (length cs - i) with (S (length cs - S i)) by lia.
  reflexivity.
Qed.

(** The loop of [fit_weights] builds the design matrix: column [j] of
    row [i] is the basis function of centre [j] at normalised point [i]. *)
Lemma fit_weights_matrix_loop (w : world T) (inp cs : np.matrix T)
  (radius : T) (kernel : T -> T) (n i : nat) :
  np.wf cs -> np.wf inp -> np.ncols inp = np.ncols cs ->
  i + n = np.nrows cs ->
  for_each
    (fun j matrix =>
       cj <- lift (np.row cs j) ;;
       d <- lift (np.broadcast2 fsub inp (np.Vec cj)) ;;
       let distance := np.norm_axis1 d in
       lift (np.set_col matrix j
               (map kernel (map (fun t => fdiv t radius) distance))))
    (seq i n) (partial_design (np.rows inp) (np.rows cs) kernel radius i) w
  = (Ok (design (np.rows inp) (np.rows cs) kernel radius), w).
Proof.
  intros Hwfc Hwfi Hcols.
  match goal with |- context [for_each ?b] => set (body := b) end.
  revert i. induction n as [|n IH]; intros i Hin; cbn [for_each seq].
  - replace i with (length (np.rows cs)) by (unfold np.nrows in *; lia).
    now rewrite partial_design_full.
  - destruct (lookup_lt_is_Some_2 (np.rows cs) i) as [c Hc];
      [unfold np.nrows in *; lia|].
    assert (length c = np.ncols inp) as Hclen.
    { rewrite Hcols. unfold np.wf in Hwfc. rewrite Forall_forall in Hwfc.
      apply Hwfc. eapply list_elem_of_lookup_2. exact Hc. }
    unfold body at 1.
    rewrite run_bind_assoc, (row_lookup _ _ _ Hc), run_lift_Ok.
    rewrite run_bind_assoc, broadcast2_Vec, run_lift_Ok by assumption.
    cbv zeta. unfold np.norm_axis1. cbn [np.rows]. rewrite !map_map.
    rewrite set_col_column.
    2:{ simpl. unfold np.nrows in *. lia. }
    2:{ unfold np.nrows. simpl. now rewrite !length_map. }
    rewrite run_lift_Ok.
    rewrite <- (IH (S i)) by lia. f_equal.
    unfold partial_design. cbn [np.ncols np.rows]. f_equal.
    rewrite zip_with_map_map. apply map_ext. intros x.
    now apply (write_entry (fun c => basis kernel radius x c)).
Qed.

End DesignMatrix.

Section FitWeights.
Context {T : Type} `{Scalar T}.
Variable lstsq :
  np.matrix T -> list T -> res (list T * list T * nat * list T).

Lemma normalize_output_run (w : world T) (output : list T) :
  normalize_output output w = (Ok (normalized_output (self w) output), w).
Proof. reflexivity. Qed.



(** [fit_weights] on data that meets its preconditions: the design
    matrix of the normalised input is handed to [lstsq] with the
    normalised output, and the result is stored. *)
Lemma fit_weights_run (w : world T) (input cs : np.matrix T)
  (output : list T) (radius : T) (kernel : T -> T) :
  centers (self w) = Some cs ->
  np.wf cs -> np.wf input ->
  np.nrows input = length output ->
  np.ncols input = np.ncols cs ->
  fits (input_shift (self w)) (np.ncols input) ->
  fits (input_scale (self w)) (np.ncols input) ->
  fit_weights lstsq input output radius kernel w
  = match lstsq (design (normalized_rows (self w) input) (np.rows cs)
                   kernel radius)
            (normalized_output (self w) output) with
    | Ok (c, res, _, _) =>
        (Ok tt,
         World
           (set_radius radius
              (set_rbf kernel (set_residual res (set_coeffs c (self w)))))
           (stdout w))
    | Raise e => (Raise e, w)
    end.
Proof.
  intros Hcs Hwfc Hwfi Hrows Hcols Hshift Hscale.
  pose proof (normalize_input_fits w input Hwfi Hshift Hscale) as Hnorm.
  destruct (normalize_input_wf _ _ _ _ Hwfi Hshift Hscale Hnorm)
    as (Hwfn & Hncols & Hnrows & _).
  unfold fit_weights.
  rewrite (run_bind_Ok _ _ _ _ _ Hnorm).
  rewrite (run_bind_Ok _ _ _ _ _ (normalize_output_run w output)).
  rewrite run_assert_true.
  2:{ apply Nat.eqb_eq. rewrite Hnrows, Hrows. unfold normalized_output.
      now rewrite length_map. }
  rewrite (run_getattr_Some _ _ _ _ Hcs).
  rewrite run_assert_true by (apply Nat.eqb_eq; congruence).
  erewrite run_bind_Ok.
  2:{ unfold fit_weights_matrix, for_range.
      unfold np.nrows. rewrite <- (partial_design_0 _ _ kernel radius).
      apply (fit_weights_matrix_loop w _ cs radius kernel (np.nrows cs) 0);
        [assumption | exact Hwfn | simpl; congruence | reflexivity]. }
  cbn [np.rows]. fold (normalized_rows (self w) input).
  unfold bind at 1, lift at 1.
  destruct (lstsq _ _) as [[[[c res] rk] sv]|e]; reflexivity.
Qed.

End FitWeights.

(** ** The weight fit: the design matrix and the solver *)

Section FitWeightsDesign.
Context {T : Type} `{Scalar T}.
Variable lstsq :
  np.matrix T -> list T -> res (list T * list T * nat * list T).


End FitWeightsDesign.

Section FitWeightsWitness.
Local Open Scope R_scope.


End FitWeightsWitness.

Section FitWeightsBinary64.


End FitWeightsBinary64.

(** ** The column check of [fit_weights] *)

Section Rejections.
Context {T : Type} `{Scalar T}.

Lemma bshape_cases (n m d : nat) :
  np.bshape n m = Ok d -> d = n \/ (n = 1 /\ d = m).
Proof.
  unfold np.bshape. destruct (Nat.eqb_spec n m); [intros [= <-]; now left|].
  destruct (Nat.eqb_spec n 1); [intros [= <-]; now right|].
  destruct (Nat.eqb_spec m 1); [intros [= <-]; now left | discriminate].
Qed.

Lemma bshape_error (n m : nat) (e : exn) :
  np.bshape n m = Raise e -> e = ValueError.
Proof.
  unfold np.bshape. repeat (destruct (_ =? _)); congruence.
Qed.

(** Broadcasting a matrix against a shift or scale attribute keeps the
    rows; it keeps the columns too unless the matrix has one column; and
    it raises nothing but [ValueError]. *)
Lemma broadcast2_shape (f : T -> T -> T) (A : np.matrix T) (p : np.ndarray T) :
  match np.broadcast2 f A p with
  | Ok B => np.nrows B = np.nrows A /\
            (np.ncols B = np.ncols A \/ np.ncols A = 1)
  | Raise e => e = ValueError
  end.
Proof.
  destruct p as [y|v]; simpl.
  - unfold np.nrows. simpl. rewrite length_map. auto.
  - destruct (np.bshape (np.ncols A) (length v)) as [d|e] eqn:Hd; simpl.
    + unfold np.nrows. simpl. rewrite length_map. split; [reflexivity|].
      apply bshape_cases in Hd. tauto.
    + now apply bshape_error in Hd.
Qed.

Lemma normalize_input_shape (w : world T) (input : np.matrix T) :
  match normalize_input input w with
  | (Ok inp, w') =>
      w' = w /\ np.nrows inp = np.nrows input /\
      (np.ncols inp = np.ncols input \/ np.ncols input = 1)
  | (Raise e, w') => w' = w /\ e = ValueError
  end.
Proof.
  unfold normalize_input. rewrite run_get.
  pose proof (broadcast2_shape fsub input (input_shift (self w))) as H1.
  destruct (np.broadcast2 fsub input (input_shift (self w))) as [d|e];
    [|now rewrite run_lift_Raise].
  rewrite run_lift_Ok, run_get. unfold lift.
  pose proof (broadcast2_shape fdiv d (input_scale (self w))) as H2.
  destruct (np.broadcast2 fdiv d (input_scale (self w))) as [q|e];
    [|now split].
  destruct H1 as [Hr1 Hc1], H2 as [Hr2 Hc2].
  split; [reflexivity|]. split; [congruence|].
  destruct Hc1 as [Hc1|Hc1]; [|now right].
  destruct Hc2 as [Hc2|Hc2]; [left | right]; congruence.
Qed.

Variable lstsq :
  np.matrix T -> list T -> res (list T * list T * nat * list T).

(** What the assertions of [fit_weights] do catch: when the row counts
    differ, or the column count of the input differs from the dimension
    of the centres and is not 1, [fit_weights] raises at once and leaves
    the network and the standard output untouched. *)
Lemma fit_weights_rejects_mismatch (w : world T) (input cs : np.matrix T)
  (output : list T) (radius : T) (kernel : T -> T) :
  centers (self w) = Some cs ->
  np.nrows input <> length output \/
  (np.ncols input <> np.ncols cs /\ np.ncols input <> 1) ->
  exists e,
    fit_weights lstsq input output radius kernel w = (Raise e, w) /\
    (e = AssertionError \/ e = ValueError).
Proof.
  intros Hcs Hbad. unfold fit_weights.
  pose proof (normalize_input_shape w input) as Hn.
  destruct (normalize_input input w) as [[inp|e] w'] eqn:Hrun.
  - destruct Hn as (-> & Hrows & Hcols).
    rewrite (run_bind_Ok _ _ _ _ _ Hrun).
    rewrite (run_bind_Ok _ _ _ _ _ (normalize_output_run w output)).
    destruct (Nat.eqb_spec (np.nrows inp)
                (length (normalized_output (self w) output))) as [Heq|Hne].
    + rewrite run_assert_true by reflexivity.
      rewrite (run_getattr_Some _ _ _ _ Hcs).
      unfold normalized_output in Heq. rewrite length_map in Heq.
      destruct Hbad as [Hbad|[Hbad1 Hbad2]]; [congruence|].
      destruct Hcols as [Hcols|Hcols]; [|contradiction].
      rewrite run_assert_false by (apply Nat.eqb_neq; congruence).
      exists AssertionError. auto.
    + rewrite run_assert_false by reflexivity.
      exists AssertionError. auto.
  - destruct Hn as [-> ->]. rewrite (run_bind_Raise _ _ _ _ _ Hrun).
    exists ValueError. auto.
Qed.

End Rejections.

Section ColumnCheck.
Local Open Scope R_scope.

(** C3 fails on the code.  A network is normalised and given a centre
    on two-column data; [fit_weights] then receives a one-column input
    with as many rows as the output.  The input's column count (1)
    differs from the centres' dimension (2), and the call returns
    normally with weights stored: the one column was broadcast against
    the two-axis shift before the assertion looked at the column
    count. *)
Theorem fit_weights_accepts_one_column_input :
  option_map np.ncols (centers (self two_axis_net)) = Some 2%nat /\
  np.ncols one_column = 1%nat /\
  np.nrows one_column = length [0; 2] /\
  fst (fit_weights zero_weights one_column [0; 2] 1 gaussian two_axis_net)
  = Ok tt /\
  coeffs (self (snd (fit_weights zero_weights one_column [0; 2] 1 gaussian
                       two_axis_net)))
  = Some [0].
Proof. repeat split. Qed.

(** The rejection lemma at [one_centre_net], a two-row input and a
    one-row output. *)
Lemma fit_weights_rejects_mismatch_witness :
  exists e,
    fit_weights zero_weights (np.Matrix 1 [[3]; [4]]) [5] 1 gaussian
      one_centre_net
    = (Raise e, one_centre_net) /\
    (e = AssertionError \/ e = ValueError).
Proof.
  apply (fit_weights_rejects_mismatch zero_weights one_centre_net
           (np.Matrix 1 [[3]; [4]]) (np.Matrix 1 [[0]]) [5] 1 gaussian).
  - reflexivity.
  - left. discriminate.
Defined.

End ColumnCheck.

(** ** Radius optimisation and training *)

Section RadiusOptimisation.
Context {T : Type} `{Scalar T}.
Variable KMeans_fit : nat -> option Z -> np.matrix T -> res (np.matrix T).
Variable lstsq :
  np.matrix T -> list T -> res (list T * list T * nat * list T).
Variable options : Type.
Variable minimize : T -> T -> option options -> string -> optimizer T.

(** The minimizer is always started from radius 1 with the tolerance
    [1e-6]; the argument [tol] does not occur in the call. *)
Lemma fit_weights_and_radius_run (input : np.matrix T) (output : list T)
  (rbf : T -> T) (measure verbose : pyobj T) (method : string)
  (options_ : option options) (tol : T) :
  fit_weights_and_radius lstsq options minimize input output rbf measure
    verbose method options_ tol
  = (_ <- (if truth verbose then print Header else ret tt) ;;
     _ <- setattr (set_fcall 0) ;;
     _ <- run_minimize (objective lstsq input output rbf measure)
            (callback verbose)
            (minimize (of_Z 1) lit_1e_6 options_ method) ;;
     ret tt).
Proof. reflexivity. Qed.

(** The result of [fit_weights_and_radius] is the same for every two
    values of [tol]. *)
Lemma fit_weights_and_radius_ignores_tol (input : np.matrix T)
  (output : list T) (rbf : T -> T) (measure verbose : pyobj T)
  (method : string) (options_ : option options) (tol tol' : T) :
  fit_weights_and_radius lstsq options minimize input output rbf measure
    verbose method options_ tol
  = fit_weights_and_radius lstsq options minimize input output rbf measure
      verbose method options_ tol'.
Proof. reflexivity. Qed.

(** With [radius=None], [train] runs [adapt_normalization], then
    [compute_centers], then [fit_weights_and_radius] with the caller's
    [verbose] as the measure and the caller's [measure] as the verbosity. *)
Lemma train_radius_None (input : np.matrix T) (output : list T) (num : nat)
  (rbf : T -> T) (random_state : option Z) (keep_aspect : bool)
  (verbose measure : pyobj T) :
  train KMeans_fit lstsq options minimize input output num None rbf
    random_state keep_aspect verbose measure
  = (_ <- adapt_normalization input output keep_aspect ;;
     _ <- compute_centers KMeans_fit input num random_state ;;
     fit_weights_and_radius lstsq options minimize input output rbf
       (* measure := *) verbose (* verbose := *) measure
       default_method None default_tol).
Proof. reflexivity. Qed.

(** An objective whose measure is a boolean never returns a value: when
    the fit and the prediction succeed, calling the boolean raises
    [TypeError]. *)
Lemma objective_bool_measure (input : np.matrix T) (output : list T)
  (rbf : T -> T) (b : bool) (radius : T) (w : world T) :
  exists e w',
    objective lstsq input output rbf (PyBool b) radius w = (Raise e, w').
Proof.
  unfold objective, bind.
  destruct (fit_weights lstsq input output radius rbf w) as [[[]|e] w1];
    [|eauto].
  destruct (predict input w1) as [[pred|e] w2]; [|eauto].
  simpl. eauto.
Qed.

Lemma bind_returns {A B} (c : M T A) (k : A -> M T B) (w : world T) (b : B) :
  fst ((x <- c ;; k x) w) = Ok b ->
  exists a w', c w = (Ok a, w') /\ fst (k a w') = Ok b.
Proof.
  unfold bind. destruct (c w) as [[a|e] w']; simpl; [eauto | discriminate].
Qed.

(** With [radius=None] and a boolean [verbose], training cannot
    complete under a minimizer that begins by evaluating the objective:
    the objective has the boolean for its measure. *)
Lemma train_bool_verbose_never_returns (input : np.matrix T)
  (output : list T) (num : nat) (rbf : T -> T) (random_state : option Z)
  (keep_aspect b : bool) (measure : pyobj T) (w : world T) (x : T)
  (k : T -> optimizer T) :
  minimize (of_Z 1) lit_1e_6 None default_method = opt_fun x k ->
  fst (train KMeans_fit lstsq options minimize input output num None rbf
         random_state keep_aspect (PyBool b) measure w)
  <> Ok tt.
Proof.
  intros Hmin Hret. rewrite train_radius_None in Hret.
  apply bind_returns in Hret as (_ & w1 & _ & Hret).
  apply bind_returns in Hret as (_ & w2 & _ & Hret).
  rewrite fit_weights_and_radius_run in Hret.
  apply bind_returns in Hret as (_ & w3 & _ & Hret).
  apply bind_returns in Hret as (_ & w4 & _ & Hret).
  apply bind_returns in Hret as (r & w5 & Hrun & _).
  rewrite Hmin in Hrun. simpl in Hrun.
  destruct (objective_bool_measure input output rbf b x w4)
    as (e & w' & Hobj).
  unfold bind in Hrun. rewrite Hobj in Hrun. discriminate.
Qed.


End RadiusOptimisation.

Section TrainingRuns.
Local Open Scope R_scope.

(** C1 fails on the code.  [train] with [radius=None] and the default
    [verbose=False] and [measure=rms_error]: normalisation, centres, fit
    and prediction go through, then the objective calls [False] and
    [TypeError] ends the training; the header was printed although
    [verbose] is false. *)
Theorem train_calls_verbose_as_measure :
  fst (train first_points zero_weights unit one_evaluation
         (np.Matrix 1 [[0]; [2]]) [0; 2] 1 None gaussian None false
         (PyBool false) (PyFunction rms_error) (World __init__ []))
  = Raise TypeError /\
  stdout (snd (train first_points zero_weights unit one_evaluation
                 (np.Matrix 1 [[0]; [2]]) [0; 2] 1 None gaussian None false
                 (PyBool false) (PyFunction rms_error) (World __init__ [])))
  = [Header] /\
  error (self (snd (train first_points zero_weights unit one_evaluation
                      (np.Matrix 1 [[0]; [2]]) [0; 2] 1 None gaussian None
                      false (PyBool false) (PyFunction rms_error)
                      (World __init__ []))))
  = None.
Proof. repeat split. Qed.

(** C2 fails on the code.  [fit_weights_and_radius] is called with
    [tol=1e-3]; the minimizer stand-in evaluates the objective at the
    tolerance it receives, and the radius left in the network is
    [1e-6]. *)
Theorem fit_weights_and_radius_passes_1e_6 :
  fst (fit_weights_and_radius zero_weights unit tolerance_probe
         (np.Matrix 1 [[3]]) [5] gaussian (PyFunction rms_error)
         (PyBool false) default_method None (1 / 1000) one_centre_net)
  = Ok tt /\
  radius (self (snd (fit_weights_and_radius zero_weights unit tolerance_probe
                       (np.Matrix 1 [[3]]) [5] gaussian
                       (PyFunction rms_error) (PyBool false) default_method
                       None (1 / 1000) one_centre_net)))
  = Some (1 / 1000000) /\
  1 / 1000 <> 1 / 1000000.
Proof. repeat split. lra. Qed.

(** The lemma on training with a boolean [verbose], at the default
    arguments and the stand-in minimizer. *)
Lemma train_bool_verbose_never_returns_witness :
  fst (train first_points zero_weights unit one_evaluation
         (np.Matrix 1 [[0]; [2]]) [0; 2] 1 None gaussian None false
         (PyBool false) (PyFunction rms_error) (World __init__ []))
  <> Ok tt.
Proof.
  apply (train_bool_verbose_never_returns first_points zero_weights unit
           one_evaluation (np.Matrix 1 [[0]; [2]]) [0; 2] 1 gaussian None
           false false (PyFunction rms_error) (World __init__ []) 1
           (fun _ => opt_return 1)).
  reflexivity.
Defined.

End TrainingRuns.
(** ** Relations between the error metrics *)

(** Reading the scalar operations at the real instance. *)
Ltac real_ops :=
  cbn [fadd fsub fmul fdiv fsqrt fabs fmaximum of_Z R_scalar] in *.

Section MetricRelations.
Local Open Scope R_scope.

Lemma sum_map_plus {A} (f g : A -> R) (l : list A) :
  np.sum (map (fun x => f x + g x) l) = np.sum (map f l) + np.sum (map g l).
Proof.
  induction l as [|x l IH]; simpl.
  - rewrite !sum_nil. lra.
  - rewrite !sum_cons, IH. lra.
Qed.

Lemma sum_map_scal {A} (c : R) (f : A -> R) (l : list A) :
  np.sum (map (fun x => c * f x) l) = c * np.sum (map f l).
Proof.
  induction l as [|x l IH]; simpl.
  - rewrite !sum_nil. lra.
  - rewrite !sum_cons, IH. lra.
Qed.

Lemma sum_map_const {A} (c : R) (l : list A) :
  np.sum (map (fun _ => c) l) = INR (length l) * c.
Proof.
  induction l as [|x l IH].
  - simpl. rewrite sum_nil. lra.
  - cbn [map]. rewrite sum_cons, IH. cbn [length]. rewrite S_INR. lra.
Qed.

Lemma len_INR (l : list R) : np.len l = INR (length l).
Proof. unfold np.len. simpl. now rewrite INR_IZR_INZ. Qed.

Lemma sum_map_le {A} (f g : A -> R) (l : list A) :
  (forall x, In x l -> f x <= g x) ->
  np.sum (map f l) <= np.sum (map g l).
Proof.
  induction l as [|x l IH]; intros Hle; simpl.
  - rewrite !sum_nil. lra.
  - rewrite !sum_cons.
    assert (f x <= g x) by (apply Hle; now left).
    assert (np.sum (map f l) <= np.sum (map g l))
      by (apply IH; intros y Hy; apply Hle; now right).
    lra.
Qed.

(** The variance is the mean of the squares minus the square of the
    mean. *)
Lemma var_mean_square (l : list R) :
  l <> [] ->
  np.var l = np.mean (np.square l) - np.mean l * np.mean l.
Proof.
  intros Hne. rewrite var_eq. unfold np.square. rewrite map_map.
  pose proof (len_pos l Hne) as Hn. real_ops.
  set (m := np.mean l).
  replace (map (fun x => (x - m) * (x - m)) l)
    with (map (fun x => x * x + (- (2 * m) * x + m * m)) l)
    by (apply map_ext; intros; ring).
  rewrite (sum_map_plus (fun x => x * x) (fun x => - (2 * m) * x + m * m)).
  rewrite (sum_map_plus (fun x => - (2 * m) * x) (fun _ => m * m)).
  rewrite (sum_map_scal (- (2 * m)) (fun x => x)), map_id, sum_map_const.
  rewrite <- len_INR.
  unfold np.mean at 1.
  replace (np.len (map (fun x => x * x) l)) with (np.len l)
    by (unfold np.len; now rewrite length_map).
  assert (np.sum l = m * np.len l) as Hs.
  { subst m. unfold np.mean. real_ops. field. lra. }
  rewrite Hs. clearbody m. real_ops. field. lra.
Qed.


Lemma mean_square_nonneg (l : list R) : 0 <= np.mean (np.square l).
Proof.
  unfold np.mean. real_ops.
  apply div_nonneg; [apply sum_square_nonneg | apply len_nonneg].
Qed.

(** What [rms_error], [mean_abs_error], [error_bias] and [error_std]
    return for vectors of equal length, in terms of the error vector. *)
Lemma metrics_of_errors (y_true y_pred : list R) :
  length y_pred = length y_true ->
  rms_error y_true y_pred
  = Ok (sqrt (np.mean (np.square (zip_with Rminus y_pred y_true)))) /\
  mean_abs_error y_true y_pred
  = Ok (np.mean (np.abs (zip_with Rminus y_pred y_true))) /\
  error_bias y_true y_pred = Ok (np.mean (zip_with Rminus y_pred y_true)) /\
  error_std y_true y_pred = Ok (np.std (zip_with Rminus y_pred y_true)) /\
  max_abs_error y_true y_pred
  = np.max (np.abs (zip_with Rminus y_pred y_true)).
Proof.
  intros Hlen.
  unfold rms_error, mean_abs_error, error_bias, error_std, max_abs_error.
  rewrite broadcast1_same_length by assumption. simpl.
  repeat split. do 2 f_equal. unfold np.mean, np.len, np.square.
  now rewrite length_map.
Qed.

Lemma square_abs (l : list R) : np.square (np.abs l) = np.square l.
Proof.
  unfold np.square, np.abs. rewrite map_map. apply map_ext. intros x.
  real_ops. unfold Rabs. destruct (Rcase_abs x); ring.
Qed.

Lemma mean_abs_nonneg (l : list R) : 0 <= np.mean (np.abs l).
Proof.
  unfold np.mean. real_ops. apply div_nonneg; [|apply len_nonneg].
  unfold np.abs. induction l as [|x l IH]; simpl.
  - rewrite sum_nil. lra.
  - rewrite sum_cons. pose proof (Rabs_pos x). real_ops. lra.
Qed.

(** The mean of the absolute values is at most the root of the mean of
    the squares. *)
Lemma mean_abs_le_rms (l : list R) :
  l <> [] -> np.mean (np.abs l) <= sqrt (np.mean (np.square l)).
Proof.
  intros Hne.
  assert (np.abs l <> []) as Hne' by (destruct l; [congruence | discriminate]).
  pose proof (var_nonneg (np.abs l)) as Hv.
  rewrite var_mean_square, square_abs in Hv by assumption.
  pose proof (mean_abs_nonneg l) as Ha.
  rewrite <- (sqrt_square (np.mean (np.abs l))) by assumption.
  apply sqrt_le_1_alt. lra.
Qed.

(** [np.max] of a nonempty list: an element of the list that bounds
    all of them. *)
Lemma fold_max_ge (l : list R) (a : R) :
  a <= fold_left Rmax l a /\
  (forall x, In x l -> x <= fold_left Rmax l a) /\
  (fold_left Rmax l a = a \/ In (fold_left Rmax l a) l).
Proof.
  revert a. induction l as [|y l IH]; intros a; simpl.
  - split; [lra|]. split; [intros x []|now left].
  - destruct (IH (Rmax a y)) as (H1 & H2 & H3).
    pose proof (Rmax_l a y). pose proof (Rmax_r a y).
    split; [lra|]. split.
    + intros x [<-|Hx]; [lra | now apply H2].
    + destruct H3 as [H3|H3]; [|now right; right].
      rewrite H3. unfold Rmax. destruct (Rle_dec a y); [right|]; now left.
Qed.

Lemma max_spec (l : list R) :
  l <> [] ->
  exists m, np.max l = Ok m /\ In m l /\ forall x, In x l -> x <= m.
Proof.
  destruct l as [|a l]; [congruence|]. intros _. simpl.
  destruct (fold_max_ge l a) as (H1 & H2 & H3). real_ops.
  eexists. split; [reflexivity|]. split.
  - destruct H3 as [->|H3]; [now left | now right].
  - intros x [<-|Hx]; [exact H1 | now apply H2].
Qed.

Lemma zip_with_nonempty (p t : list R) :
  length p = length t -> t <> [] -> zip_with Rminus p t <> [].
Proof. destruct p, t; simpl; congruence. Qed.

(** For equal-length nonempty vectors the three absolute metrics are
    ordered: mean absolute error, then RMS error, then maximal absolute
    error. *)
Theorem abs_error_ordering (y_true y_pred : list R) :
  length y_pred = length y_true ->
  y_true <> [] ->
  exists a r m,
    mean_abs_error y_true y_pred = Ok a /\
    rms_error y_true y_pred = Ok r /\
    max_abs_error y_true y_pred = Ok m /\
    0 <= a /\ a <= r /\ r <= m.
Proof.
  intros Hlen Hne.
  destruct (metrics_of_errors y_true y_pred Hlen) as (Hr & Ha & _ & _ & Hm).
  pose proof (zip_with_nonempty _ _ Hlen Hne) as He.
  set (e := zip_with Rminus y_pred y_true) in *.
  assert (np.abs e <> []) as Hae by (destruct e; [congruence | discriminate]).
  destruct (max_spec (np.abs e) Hae) as (m & Hmax & Hin & Hub).
  exists (np.mean (np.abs e)), (sqrt (np.mean (np.square e))), m.
  split; [exact Ha|]. split; [exact Hr|]. split; [now rewrite Hm|].
  split; [apply mean_abs_nonneg|]. split; [now apply mean_abs_le_rms|].
  assert (0 <= m) as Hm0.
  { unfold np.abs in Hin. apply in_map_iff in Hin as (x & <- & _).
    apply Rabs_pos. }
  rewrite <- (sqrt_square m) by assumption. apply sqrt_le_1_alt.
  rewrite <- square_abs. unfold np.mean, np.square. real_ops.
  replace (np.len (map (fun x => x * x) (np.abs e))) with (np.len (np.abs e))
    by (unfold np.len; now rewrite length_map).
  pose proof (len_pos _ Hae) as Hn.
  apply (Rmult_le_reg_r (np.len (np.abs e))); [assumption|].
  replace (np.sum (map (fun x => x * x) (np.abs e)) / np.len (np.abs e)
           * np.len (np.abs e))
    with (np.sum (map (fun x => x * x) (np.abs e))) by (field; lra).
  rewrite len_INR, Rmult_comm, <- (sum_map_const (m * m) (np.abs e)).
  apply sum_map_le. intros x Hx. pose proof (Hub x Hx).
  assert (0 <= x).
  { unfold np.abs in Hx. apply in_map_iff in Hx as (z & <- & _).
    apply Rabs_pos. }
  nra.
Qed.


(** The theorem at truth [1; 2] and prediction [1; 4]. *)
Lemma abs_error_ordering_witness :
  exists a r m,
    mean_abs_error [1; 2] [1; 4] = Ok a /\
    rms_error [1; 2] [1; 4] = Ok r /\
    max_abs_error [1; 2] [1; 4] = Ok m /\
    0 <= a /\ a <= r /\ r <= m.
Proof.
  apply (abs_error_ordering [1; 2] [1; 4]); [reflexivity | discriminate].
Defined.

(** The squared RMS error splits into the squared bias and the variance
    of the errors. *)
Theorem rms_bias_std (y_true y_pred : list R) :
  length y_pred = length y_true ->
  y_true <> [] ->
  exists r b s,
    rms_error y_true y_pred = Ok r /\
    error_bias y_true y_pred = Ok b /\
    error_std y_true y_pred = Ok s /\
    r * r = b * b + s * s.
Proof.
  intros Hlen Hne.
  destruct (metrics_of_errors y_true y_pred Hlen) as (Hr & _ & Hb & Hs & _).
  pose proof (zip_with_nonempty _ _ Hlen Hne) as He.
  set (e := zip_with Rminus y_pred y_true) in *.
  do 3 eexists. split; [exact Hr|]. split; [exact Hb|]. split; [exact Hs|].
  unfold np.std. real_ops.
  rewrite sqrt_sqrt by apply mean_square_nonneg.
  rewrite sqrt_sqrt by apply var_nonneg.
  rewrite var_mean_square by assumption. lra.
Qed.

(** The theorem at truth [1; 2] and prediction [1; 4]. *)
Lemma rms_bias_std_witness :
  exists r b s,
    rms_error [1; 2] [1; 4] = Ok r /\
    error_bias [1; 2] [1; 4] = Ok b /\
    error_std [1; 2] [1; 4] = Ok s /\
    r * r = b * b + s * s.
Proof.
  apply (rms_bias_std [1; 2] [1; 4]); [reflexivity | discriminate].
Defined.

(** The maximal absolute error is the largest entry of [|pred - true|]:
    it bounds every entry, it is attained by one, and it is zero exactly
    when the prediction equals the truth. *)
Theorem max_abs_error_spec (y_true y_pred : list R) :
  length y_pred = length y_true ->
  y_true <> [] ->
  exists m,
    max_abs_error y_true y_pred = Ok m /\
    (forall i p t, y_pred !! i = Some p -> y_true !! i = Some t ->
                   Rabs (p - t) <= m) /\
    (exists i p t, y_pred !! i = Some p /\ y_true !! i = Some t /\
                   m = Rabs (p - t)) /\
    (m = 0 <-> y_pred = y_true).
Proof.
  intros Hlen Hne.
  destruct (metrics_of_errors y_true y_pred Hlen) as (_ & _ & _ & _ & Hm).
  pose proof (zip_with_nonempty _ _ Hlen Hne) as He.
  set (e := zip_with Rminus y_pred y_true) in *.
  assert (np.abs e <> []) as Hae by (destruct e; [congruence | discriminate]).
  destruct (max_spec (np.abs e) Hae) as (m & Hmax & Hin & Hub).
  exists m. split; [now rewrite Hm|].
  assert (forall i p t, y_pred !! i = Some p -> y_true !! i = Some t ->
                        In (Rabs (p - t)) (np.abs e)) as Hentry.
  { intros i p t Hp Ht. unfold np.abs. apply in_map_iff. exists (p - t).
    split; [reflexivity|]. apply list_elem_of_In, list_elem_of_lookup.
    exists i. subst e. now rewrite lookup_zip_with, Hp; simpl; rewrite Ht. }
  assert (exists i p t, y_pred !! i = Some p /\ y_true !! i = Some t /\
                        m = Rabs (p - t)) as Hatt.
  { unfold np.abs in Hin. apply in_map_iff in Hin as (x & Hx & Hxin).
    apply list_elem_of_In, list_elem_of_lookup in Hxin as [i Hi].
    subst e. apply lookup_zip_with_Some in Hi as (p & t & -> & Hp & Ht).
    exists i, p, t. real_ops. auto. }
  split; [intros i p t Hp Ht; apply Hub; eauto|].
  split; [exact Hatt|].
  split.
  - intros ->. apply zip_with_Rminus_zero; [assumption|].
    apply Forall_forall. intros x Hx.
    apply list_elem_of_lookup in Hx as [i Hi].
    apply lookup_zip_with_Some in Hi as (p & t & -> & Hp & Ht).
    pose proof (Hub _ (Hentry i p t Hp Ht)) as Hle.
    pose proof (Rabs_pos (p - t)).
    assert (Rabs (p - t) = 0) as Hz by lra.
    destruct (Req_dec (p - t) 0) as [|Hnz]; [assumption|].
    now apply Rabs_no_R0 in Hnz.
  - intros Heq. destruct Hatt as (i & p & t & Hp & Ht & ->).
    subst y_pred. rewrite Hp in Ht. injection Ht as ->.
    replace (t - t) with 0 by lra. apply Rabs_R0.
Qed.

(** The theorem at truth [1; 2] and prediction [1; 4]. *)
Lemma max_abs_error_spec_witness :
  exists m,
    max_abs_error [1; 2] [1; 4] = Ok m /\
    (forall i p t, [1; 4] !! i = Some p -> [1; 2] !! i = Some t ->
                   Rabs (p - t) <= m) /\
    (exists i p t, [1; 4] !! i = Some p /\ [1; 2] !! i = Some t /\
                   m = Rabs (p - t)) /\
    (m = 0 <-> [1; 4] = [1; 2]).
Proof.
  apply (max_abs_error_spec [1; 2] [1; 4]); [reflexivity | discriminate].
Defined.

End MetricRelations.
(** ** Symmetry and scaling of the metrics *)

Section BroadcastSymmetry.
Context {T : Type} `{Scalar T}.

Lemma bshape_comm (n m : nat) : np.bshape n m = np.bshape m n.
Proof.
  unfold np.bshape.
  destruct (Nat.eqb_spec n m) as [->|Hnm].
  - now rewrite Nat.eqb_refl.
  - destruct (Nat.eqb_spec m n) as [->|_]; [congruence|].
    destruct (Nat.eqb_spec n 1) as [->|], (Nat.eqb_spec m 1) as [->|];
      reflexivity.
Qed.

Lemma bvec_flip (f : T -> T -> T) (a b : list T) :
  np.bvec f a b = np.bvec (fun x y => f y x) b a.
Proof.
  unfold np.bvec.
  destruct a as [|x [|x' a]], b as [|y [|y' b]]; try reflexivity.
  apply (zip_with_flip (fun x y => f y x)).
Qed.

Lemma map_zip_with_comp {A B C D} (g : C -> D) (f : A -> B -> C)
  (a : list A) (b : list B) :
  map g (zip_with f a b) = zip_with (fun x y => g (f x y)) a b.
Proof.
  revert b. induction a as [|x a IH]; intros [|y b]; simpl; try reflexivity.
  now rewrite IH.
Qed.

Lemma bvec_map (g : T -> T) (f : T -> T -> T) (a b : list T) :
  map g (np.bvec f a b) = np.bvec (fun x y => g (f x y)) a b.
Proof.
  unfold np.bvec.
  destruct a as [|x [|x' a]], b as [|y [|y' b]];
    rewrite ?map_map, ?map_zip_with_comp; reflexivity.
Qed.

Lemma bvec_ext (f g : T -> T -> T) (a b : list T) :
  (forall x y, f x y = g x y) -> np.bvec f a b = np.bvec g a b.
Proof.
  intros Hfg. unfold np.bvec.
  destruct a as [|x [|x' a]], b as [|y [|y' b]];
    try reflexivity;
    try (apply map_ext; intros; apply Hfg).
  all: rewrite ?Hfg; try reflexivity.
  all: try (f_equal; [apply Hfg|]; f_equal; [apply Hfg|]).
  all: try (apply zip_with_ext; auto).
Qed.

Lemma zip_with_map_args {A B C D E} (f : C -> D -> E) (g : A -> C)
  (h : B -> D) (a : list A) (b : list B) :
  zip_with f (map g a) (map h b) = zip_with (fun x y => f (g x) (h y)) a b.
Proof.
  revert b. induction a as [|x a IH]; intros [|y b]; simpl; try reflexivity.
  now rewrite IH.
Qed.

Lemma bvec_map_args (f : T -> T -> T) (g h : T -> T) (a b : list T) :
  np.bvec f (map g a) (map h b) = np.bvec (fun x y => f (g x) (h y)) a b.
Proof.
  unfold np.bvec.
  destruct a as [|x [|x' a]], b as [|y [|y' b]];
    cbn [map]; rewrite ?map_map; try reflexivity.
  cbn [zip_with]. do 2 f_equal. apply zip_with_map_args.
Qed.

Lemma broadcast1_map_args (f : T -> T -> T) (g h : T -> T) (a b : list T) :
  np.broadcast1 f (map g a) (map h b)
  = np.broadcast1 (fun x y => f (g x) (h y)) a b.
Proof.
  unfold np.broadcast1. rewrite !length_map.
  destruct (np.bshape (length a) (length b)); [|reflexivity].
  cbn [res_bind]. now rewrite bvec_map_args.
Qed.

Lemma broadcast1_ext (f g : T -> T -> T) (a b : list T) :
  (forall x y, f x y = g x y) -> np.broadcast1 f a b = np.broadcast1 g a b.
Proof.
  intros Hfg. unfold np.broadcast1.
  destruct (np.bshape (length a) (length b)); [|reflexivity].
  cbn [res_bind]. now rewrite (bvec_ext f g).
Qed.

Lemma broadcast1_map (g : T -> T) (f : T -> T -> T) (a b : list T) :
  np.broadcast1 (fun x y => g (f x y)) a b
  = (e <~ np.broadcast1 f a b ;; Ok (map g e)).
Proof.
  unfold np.broadcast1.
  destruct (np.bshape (length a) (length b)); [|reflexivity].
  cbn [res_bind]. now rewrite bvec_map.
Qed.

End BroadcastSymmetry.

Section MetricSymmetry.
Local Open Scope R_scope.

Lemma broadcast1_Rminus_swap (a b : list R) :
  np.broadcast1 Rminus a b
  = (e <~ np.broadcast1 Rminus b a ;; Ok (map Ropp e)).
Proof.
  unfold np.broadcast1. rewrite (bshape_comm (length a)).
  destruct (np.bshape (length b) (length a)); [|reflexivity].
  simpl. f_equal. rewrite bvec_flip, bvec_map. apply bvec_ext.
  intros; ring.
Qed.

Lemma square_opp (e : list R) : np.square (map Ropp e) = np.square e.
Proof.
  unfold np.square. rewrite map_map. apply map_ext. intros; real_ops; ring.
Qed.

Lemma abs_opp (e : list R) : np.abs (map Ropp e) = np.abs e.
Proof.
  unfold np.abs. rewrite map_map. apply map_ext. intros; real_ops.
  apply Rabs_Ropp.
Qed.

Lemma mean_opp (e : list R) : np.mean (map Ropp e) = - np.mean e.
Proof.
  unfold np.mean. real_ops.
  replace (np.len (map Ropp e)) with (np.len e)
    by (unfold np.len; now rewrite length_map).
  replace (map Ropp e) with (map (fun x => (-1) * x) e)
    by (apply map_ext; intros; ring).
  rewrite (sum_map_scal (-1) (fun x => x)), map_id.
  unfold Rdiv. ring.
Qed.

Lemma var_opp (e : list R) : np.var (map Ropp e) = np.var e.
Proof.
  rewrite !var_eq, mean_opp.
  replace (np.len (map Ropp e)) with (np.len e)
    by (unfold np.len; now rewrite length_map).
  f_equal. unfold np.square. rewrite !map_map. f_equal.
  apply map_ext. intros. real_ops. ring.
Qed.

(** The absolute metrics do not depend on which argument is the truth
    and which the prediction, except for the sign of the bias: this
    holds for all arguments, also where broadcasting applies or
    fails. *)
Theorem abs_metrics_swap (a b : list R) :
  rms_error a b = rms_error b a /\
  max_abs_error a b = max_abs_error b a /\
  mean_abs_error a b = mean_abs_error b a /\
  error_std a b = error_std b a /\
  error_bias a b = (x <~ error_bias b a ;; Ok (- x)).
Proof.
  unfold rms_error, max_abs_error, mean_abs_error, error_std, error_bias.
  real_ops. rewrite (broadcast1_Rminus_swap b a).
  destruct (np.broadcast1 Rminus a b) as [e|err]; cbn [res_bind].
  - rewrite square_opp, abs_opp, mean_opp. unfold np.std.
    rewrite var_opp.
    replace (np.len (map Ropp e)) with (np.len e)
      by (unfold np.len; now rewrite length_map).
    repeat split.
  - repeat split.
Qed.

End MetricSymmetry.

Section RelativeScale.
Local Open Scope R_scope.

Lemma rel_err_scale (c : R) (t p : list R) :
  c <> 0 -> rel_err (map (Rmult c) t) (map (Rmult c) p) = rel_err t p.
Proof.
  intros Hc. unfold rel_err. real_ops.
  rewrite broadcast1_map_args.
  rewrite (broadcast1_ext (fun x y => c * x - c * y)
             (fun x y => c * (x - y))) by (intros; ring).
  rewrite (broadcast1_map (Rmult c) Rminus).
  destruct (np.broadcast1 Rminus p t) as [d|e]; [|reflexivity].
  cbn [res_bind]. rewrite broadcast1_map_args.
  apply broadcast1_ext. intros x y. unfold Rdiv.
  rewrite Rinv_mult.
  replace (c * x * (/ c * / y)) with (c * / c * (x * / y)) by ring.
  rewrite Rinv_r by assumption. ring.
Qed.

(** The relative metrics do not change when truth and prediction are
    multiplied by the same nonzero factor (a change of units), where no
    true value is zero. *)
Theorem rel_metrics_scale_invariant (c : R) (y_true y_pred : list R) :
  c <> 0 ->
  Forall (fun y => y <> 0) y_true ->
  rms_rel_error (map (Rmult c) y_true) (map (Rmult c) y_pred)
  = rms_rel_error y_true y_pred /\
  max_rel_error (map (Rmult c) y_true) (map (Rmult c) y_pred)
  = max_rel_error y_true y_pred /\
  mean_rel_error (map (Rmult c) y_true) (map (Rmult c) y_pred)
  = mean_rel_error y_true y_pred /\
  rel_error_bias (map (Rmult c) y_true) (map (Rmult c) y_pred)
  = rel_error_bias y_true y_pred /\
  rel_error_std (map (Rmult c) y_true) (map (Rmult c) y_pred)
  = rel_error_std y_true y_pred.
Proof.
  intros Hc _.
  unfold rms_rel_error, max_rel_error, mean_rel_error, rel_error_bias,
    rel_error_std.
  rewrite rel_err_scale by assumption. repeat split.
Qed.

(** The theorem at truth [1; 2], prediction [1; 4] and the factor
    1000. *)
Lemma rel_metrics_scale_invariant_witness :
  rms_rel_error (map (Rmult 1000) [1; 2]) (map (Rmult 1000) [1; 4])
  = rms_rel_error [1; 2] [1; 4] /\
  max_rel_error (map (Rmult 1000) [1; 2]) (map (Rmult 1000) [1; 4])
  = max_rel_error [1; 2] [1; 4] /\
  mean_rel_error (map (Rmult 1000) [1; 2]) (map (Rmult 1000) [1; 4])
  = mean_rel_error [1; 2] [1; 4] /\
  rel_error_bias (map (Rmult 1000) [1; 2]) (map (Rmult 1000) [1; 4])
  = rel_error_bias [1; 2] [1; 4] /\
  rel_error_std (map (Rmult 1000) [1; 2]) (map (Rmult 1000) [1; 4])
  = rel_error_std [1; 2] [1; 4].
Proof.
  apply (rel_metrics_scale_invariant 1000 [1; 2] [1; 4]); [lra|].
  repeat constructor; lra.
Defined.

End RelativeScale.
(** ** Which metric calls return *)

Section MetricErrors.
Context {T : Type} `{Scalar T}.

Lemma bshape_Ok (n m : nat) :
  broadcastable n m ->
  np.bshape n m = Ok (if Nat.eqb n 1 then m else n).
Proof.
  unfold np.bshape, broadcastable. intros Hc.
  destruct (Nat.eqb_spec n m) as [Hnm|Hnm];
    destruct (Nat.eqb_spec n 1) as [Hn|Hn];
    destruct (Nat.eqb_spec m 1) as [Hm|Hm];
    try reflexivity; f_equal; lia.
Qed.

Lemma bshape_Raise (n m : nat) :
  ~ broadcastable n m -> np.bshape n m = Raise ValueError.
Proof.
  unfold np.bshape, broadcastable. intros Hno.
  destruct (Nat.eqb_spec n m); [tauto|].
  destruct (Nat.eqb_spec n 1); [tauto|].
  destruct (Nat.eqb_spec m 1); [tauto|reflexivity].
Qed.

Lemma broadcastable_dec (n m : nat) :
  {broadcastable n m} + {~ broadcastable n m}.
Proof.
  unfold broadcastable.
  destruct (Nat.eq_dec n m); [left; tauto|].
  destruct (Nat.eq_dec n 1); [left; tauto|].
  destruct (Nat.eq_dec m 1); [left; tauto|right; tauto].
Qed.

Lemma bvec_length (f : T -> T -> T) (a b : list T) :
  broadcastable (length a) (length b) ->
  length (np.bvec f a b)
  = if Nat.eqb (length a) 1 then length b else length a.
Proof.
  unfold np.bvec, broadcastable.
  destruct a as [|x [|x' a]], b as [|y [|y' b]]; simpl;
    rewrite ?length_map; try reflexivity; try lia.
  intros [Hl|[?|?]]; try lia.
  rewrite length_zip_with. lia.
Qed.

(** The error vector [pred - true]: it exists exactly when the lengths
    broadcast, it is empty exactly when one of the arguments is, and the
    only exception is the [ValueError] of broadcasting. *)
Lemma broadcast1_cases (f : T -> T -> T) (a b : list T) :
  (broadcastable (length a) (length b) /\
   exists e, np.broadcast1 f a b = Ok e /\
             broadcastable (length e) (length b) /\
             (e = [] <-> a = [] \/ b = [])) \/
  (~ broadcastable (length a) (length b) /\
   np.broadcast1 f a b = Raise ValueError).
Proof.
  destruct (broadcastable_dec (length a) (length b)) as [Hc|Hc].
  - left. split; [assumption|]. unfold np.broadcast1.
    rewrite bshape_Ok by assumption. cbn [res_bind].
    eexists. split; [reflexivity|].
    pose proof (bvec_length f a b Hc) as Hl.
    rewrite <- !length_zero_iff_nil, Hl. unfold broadcastable in *.
    destruct (Nat.eqb_spec (length a) 1); split; lia.
  - right. split; [assumption|]. unfold np.broadcast1.
    now rewrite bshape_Raise.
Qed.

Lemma rel_err_cases (t p : list T) :
  (broadcastable (length p) (length t) /\
   exists e, rel_err t p = Ok e /\ (e = [] <-> p = [] \/ t = [])) \/
  (~ broadcastable (length p) (length t) /\ rel_err t p = Raise ValueError).
Proof.
  unfold rel_err.
  destruct (broadcast1_cases fsub p t) as [(Hc & d & -> & Hd & Hnil)|(Hc & ->)];
    [left|right; now split].
  split; [assumption|]. cbn [res_bind].
  destruct (broadcast1_cases fdiv d t) as [(_ & e & -> & _ & Hnil')|(Hc' & _)];
    [|contradiction].
  exists e. split; [reflexivity|]. tauto.
Qed.

Lemma max_returns (v : list T) : returns (np.max v) <-> v <> [].
Proof.
  unfold returns. destruct v as [|x v]; simpl; split.
  - intros [a Ha]. discriminate.
  - congruence.
  - discriminate.
  - eauto.
Qed.

Lemma max_raises (v : list T) (e : exn) : np.max v = Raise e -> e = ValueError.
Proof. destruct v; simpl; congruence. Qed.

Lemma abs_nil (v : list T) : np.abs v = [] <-> v = [].
Proof. unfold np.abs. destruct v; simpl; split; congruence. Qed.

(** Which calls of the metrics return.  The eight mean-based metrics
    return exactly when the lengths of prediction and truth broadcast
    (they are equal, or one of them is 1); the two maximum-based metrics
    need in addition that neither argument is empty.  A metric that does
    not return raises [ValueError]. *)
Theorem metrics_return_iff (y_true y_pred : list T) :
  (returns (rms_error y_true y_pred)
   <-> broadcastable (length y_pred) (length y_true)) /\
  (returns (rms_rel_error y_true y_pred)
   <-> broadcastable (length y_pred) (length y_true)) /\
  (returns (mean_abs_error y_true y_pred)
   <-> broadcastable (length y_pred) (length y_true)) /\
  (returns (mean_rel_error y_true y_pred)
   <-> broadcastable (length y_pred) (length y_true)) /\
  (returns (error_bias y_true y_pred)
   <-> broadcastable (length y_pred) (length y_true)) /\
  (returns (rel_error_bias y_true y_pred)
   <-> broadcastable (length y_pred) (length y_true)) /\
  (returns (error_std y_true y_pred)
   <-> broadcastable (length y_pred) (length y_true)) /\
  (returns (rel_error_std y_true y_pred)
   <-> broadcastable (length y_pred) (length y_true)) /\
  (returns (max_abs_error y_true y_pred)
   <-> broadcastable (length y_pred) (length y_true)
       /\ y_pred <> [] /\ y_true <> []) /\
  (returns (max_rel_error y_true y_pred)
   <-> broadcastable (length y_pred) (length y_true)
       /\ y_pred <> [] /\ y_true <> []) /\
  (forall metric e,
     In metric [rms_error; rms_rel_error; max_abs_error; max_rel_error;
                mean_abs_error; mean_rel_error; error_bias; rel_error_bias;
                error_std; rel_error_std] ->
     metric y_true y_pred = Raise e -> e = ValueError).
Proof.
  destruct (broadcast1_cases fsub y_pred y_true)
    as [(Hc & d & Hd & _ & Hdnil)|(Hc & Hd)];
    destruct (rel_err_cases y_true y_pred)
      as [(Hc' & e & He & Henil)|(Hc' & He)];
    try contradiction.
  - repeat match goal with |- _ /\ _ => split end;
      try (unfold rms_error, rms_rel_error, mean_abs_error, mean_rel_error,
             error_bias, rel_error_bias, error_std, rel_error_std;
           rewrite ?Hd, ?He; cbn [res_bind];
           split; [intros _; assumption | intros _; eexists; reflexivity]).
    + unfold max_abs_error. rewrite Hd. cbn [res_bind].
      rewrite max_returns, abs_nil. tauto.
    + unfold max_rel_error. rewrite He. cbn [res_bind].
      rewrite max_returns, abs_nil. tauto.
    + intros metric err Hin.
      repeat (destruct Hin as [<-|Hin];
              [unfold rms_error, rms_rel_error, mean_abs_error,
                 mean_rel_error, error_bias, rel_error_bias, error_std,
                 rel_error_std, max_abs_error, max_rel_error;
               rewrite ?Hd, ?He; cbn [res_bind];
               try discriminate; apply max_raises|]).
      destruct Hin.
  - repeat match goal with |- _ /\ _ => split end;
      try (unfold rms_error, rms_rel_error, mean_abs_error, mean_rel_error,
             error_bias, rel_error_bias, error_std, rel_error_std,
             max_abs_error, max_rel_error;
           rewrite ?Hd, ?He; cbn [res_bind];
           split; [intros [a Ha]; discriminate | tauto]).
    intros metric err Hin.
    repeat (destruct Hin as [<-|Hin];
            [unfold rms_error, rms_rel_error, mean_abs_error,
               mean_rel_error, error_bias, rel_error_bias, error_std,
               rel_error_std, max_abs_error, max_rel_error;
             rewrite ?Hd, ?He; cbn [res_bind]; congruence|]).
    destruct Hin.
Qed.

End MetricErrors.
(** ** The metrics in binary64 *)

Section MetricsBinary64.
Local Abbreviation f64 := b64.float64.

(** A square root in binary64 is never below zero: it is a NaN, a zero,
    [+inf] or a positive number. *)
Lemma sqrt_not_negative (x : f64) :
  SFltb (fsqrt x) (S754_zero false) = false.
Proof.
  destruct x as [s|[|]| |[|] m e]; try reflexivity.
  cbn [fsqrt b64_scalar]. unfold SFsqrt.
  destruct (SFsqrt_core_binary _ _ _ _) as [[mz ez] lz].
  unfold binary_round_aux.
  destruct (shr_fexp _ _ _ _ _) as [mrs' e'].
  destruct (shr_fexp _ _ _ _ _) as [mrs'' e''].
  destruct (shr_m mrs''); try reflexivity.
  destruct (Z.leb _ _); reflexivity.
Qed.

Lemma sub_nan_l (x y : f64) : b64.is_nan x = true -> b64.is_nan (fsub x y) = true.
Proof. destruct x as [| | |]; try discriminate. now destruct y. Qed.

Lemma sub_nan_r (x y : f64) : b64.is_nan y = true -> b64.is_nan (fsub x y) = true.
Proof. destruct y as [| | |]; try discriminate. now destruct x as [|[|]| |]. Qed.

Lemma square_nan (x : f64) : b64.is_nan x = true -> b64.is_nan (fmul x x) = true.
Proof. now destruct x. Qed.

Lemma add_nan_l (x y : f64) : b64.is_nan x = true -> b64.is_nan (fadd x y) = true.
Proof. destruct x as [| | |]; try discriminate. now destruct y. Qed.

Lemma add_nan_r (x y : f64) : b64.is_nan y = true -> b64.is_nan (fadd x y) = true.
Proof. destruct y as [| | |]; try discriminate. now destruct x as [|[|]| |]. Qed.

Lemma div_nan_l (x y : f64) : b64.is_nan x = true -> b64.is_nan (fdiv x y) = true.
Proof. destruct x as [| | |]; try discriminate. now destruct y. Qed.

Lemma sqrt_nan (x : f64) : b64.is_nan x = true -> b64.is_nan (fsqrt x) = true.
Proof. now destruct x. Qed.

Lemma fold_add_nan_acc (l : list f64) (a : f64) :
  b64.is_nan a = true -> b64.is_nan (fold_left fadd l a) = true.
Proof.
  revert a. induction l as [|x l IH]; intros a Ha; simpl; [assumption|].
  apply IH. now apply add_nan_l.
Qed.

Lemma sum_nan (l : list f64) :
  Exists (fun x => b64.is_nan x = true) l -> b64.is_nan (np.sum l) = true.
Proof.
  unfold np.sum. generalize (of_Z 0 : f64).
  induction l as [|x l IH]; intros a Hex; inversion Hex; subst; simpl.
  - apply fold_add_nan_acc. now apply add_nan_r.
  - now apply IH.
Qed.

(** [rms_error] and [rms_rel_error] in binary64: the result is never
    below zero, and the only exception is the [ValueError] of
    broadcasting; a NaN among the predictions or the true values makes
    [rms_error] return NaN. *)
Theorem rms_error_binary64_range (y_true y_pred : list f64) :
  match rms_error y_true y_pred with
  | Ok r => SFltb r (S754_zero false) = false
  | Raise e => e = ValueError
  end /\
  match rms_rel_error y_true y_pred with
  | Ok r => SFltb r (S754_zero false) = false
  | Raise e => e = ValueError
  end /\
  (length y_pred = length y_true ->
   Exists (fun x => b64.is_nan x = true) (y_pred ++ y_true) ->
   exists r, rms_error y_true y_pred = Ok r /\ b64.is_nan r = true).
Proof.
  split; [|split].
  - unfold rms_error.
    destruct (broadcast1_cases fsub y_pred y_true)
      as [(_ & d & -> & _)|(_ & ->)]; cbn [res_bind];
      [apply sqrt_not_negative | reflexivity].
  - unfold rms_rel_error.
    destruct (rel_err_cases y_true y_pred)
      as [(_ & d & -> & _)|(_ & ->)]; cbn [res_bind];
      [apply sqrt_not_negative | reflexivity].
  - intros Hlen Hex. unfold rms_error.
    rewrite broadcast1_same_length by assumption. cbn [res_bind].
    eexists. split; [reflexivity|].
    apply sqrt_nan, div_nan_l, sum_nan.
    unfold np.square. apply Exists_fmap.
    revert y_true Hlen Hex.
    induction y_pred as [|p ps IH]; intros [|t ts] Hlen Hex;
      try discriminate.
    + inversion Hex.
    + simpl in Hex. cbn [zip_with].
      apply Exists_cons in Hex as [Hp|Hex].
      * left. simpl. now apply square_nan, sub_nan_l.
      * apply Exists_app in Hex as [Hps|Hts].
        -- right. apply IH; [now injection Hlen|].
           apply Exists_app. now left.
        -- apply Exists_cons in Hts as [Ht|Hts].
           ++ left. simpl. now apply square_nan, sub_nan_r.
           ++ right. apply IH; [now injection Hlen|].
              apply Exists_app. now right.
Qed.

(** The theorem at the truth [1; NaN] and the prediction [1; 4]. *)
Lemma rms_error_binary64_range_witness :
  match rms_error [of_Z 1; S754_nan] [of_Z 1; of_Z 4] with
  | Ok r => SFltb r (S754_zero false) = false
  | Raise e => e = ValueError
  end /\
  match rms_rel_error [of_Z 1; S754_nan] [of_Z 1; of_Z 4] with
  | Ok r => SFltb r (S754_zero false) = false
  | Raise e => e = ValueError
  end /\
  exists r, rms_error [of_Z 1; S754_nan] [of_Z 1; of_Z 4] = Ok r
            /\ b64.is_nan r = true.
Proof.
  destruct (rms_error_binary64_range [of_Z 1; S754_nan] [of_Z 1; of_Z 4])
    as (Hrms & Hrel & Hnan).
  split; [exact Hrms|]. split; [exact Hrel|].
  apply Hnan; [reflexivity|]. do 3 right. left. reflexivity.
Defined.

(** The metrics on an empty error vector (one argument is empty, the
    other has at most one entry), in binary64: the mean-based metrics
    divide zero by zero and return NaN, the maximum-based ones raise
    [ValueError]. *)
Theorem metrics_on_empty_input (y_true y_pred : list f64) :
  (y_true = [] /\ length y_pred <= 1) \/ (y_pred = [] /\ length y_true <= 1) ->
  rms_error y_true y_pred = Ok S754_nan /\
  rms_rel_error y_true y_pred = Ok S754_nan /\
  mean_abs_error y_true y_pred = Ok S754_nan /\
  mean_rel_error y_true y_pred = Ok S754_nan /\
  error_bias y_true y_pred = Ok S754_nan /\
  rel_error_bias y_true y_pred = Ok S754_nan /\
  error_std y_true y_pred = Ok S754_nan /\
  rel_error_std y_true y_pred = Ok S754_nan /\
  max_abs_error y_true y_pred = Raise ValueError /\
  max_rel_error y_true y_pred = Raise ValueError.
Proof.
  intros [[-> Hl]|[-> Hl]].
  - destruct y_pred as [|p [|p' ps]]; [| |simpl in Hl; lia];
      repeat split.
  - destruct y_true as [|p [|p' ps]]; [| |simpl in Hl; lia];
      repeat split.
Qed.

(** The theorem at two empty vectors. *)
Lemma metrics_on_empty_input_witness :
  rms_error [] [] = Ok S754_nan /\
  rms_rel_error [] [] = Ok S754_nan /\
  mean_abs_error [] [] = Ok S754_nan /\
  mean_rel_error [] [] = Ok S754_nan /\
  error_bias [] [] = Ok S754_nan /\
  rel_error_bias [] [] = Ok S754_nan /\
  error_std [] [] = Ok S754_nan /\
  rel_error_std [] [] = Ok S754_nan /\
  max_abs_error [] [] = Raise ValueError /\
  max_rel_error [] [] = Raise ValueError.
Proof.
  apply (metrics_on_empty_input [] []). left. split; [reflexivity|].
  simpl. lia.
Defined.

End MetricsBinary64.
(** ** The default kernel *)

Section Gaussian.
Local Open Scope R_scope.

(** The Gaussian kernel is a bump: its values lie in (0, 1], it is 1
    at zero only, it is even, and it decays strictly with the absolute
    value of its argument. *)
Theorem gaussian_bump (s t : R) :
  0 < gaussian t <= 1 /\
  (gaussian t = 1 <-> t = 0) /\
  gaussian (- t) = gaussian t /\
  (gaussian t < gaussian s <-> Rabs s < Rabs t).
Proof.
  unfold gaussian.
  assert (forall u, - (5 / 10) * (u * u) <= 0) as Hneg by (intros u; nra).
  split; [|split; [|split]].
  - split; [apply exp_pos|].
    rewrite <- exp_0. destruct (Hneg t) as [Hlt| ->].
    + left. now apply exp_increasing.
    + right. reflexivity.
  - split.
    + intros He. rewrite <- exp_0 in He. apply exp_inv in He. nra.
    + intros ->. rewrite Rmult_0_r, Rmult_0_r. apply exp_0.
  - f_equal. ring.
  - split.
    + intros Hlt. apply exp_lt_inv in Hlt.
      apply Rsqr_lt_abs_0. unfold Rsqr. lra.
    + intros Hlt. apply exp_increasing.
      apply Rsqr_lt_abs_1 in Hlt. unfold Rsqr in Hlt. lra.
Qed.

End Gaussian.
(** ** What the normalisation does to the training data *)

Section Standardisation.
Local Open Scope R_scope.

Lemma var_nil : np.var (@nil R) = 0.
Proof. unfold np.var, np.mean, np.sum. simpl. unfold Rdiv. ring. Qed.

Lemma var_nonzero_nonempty (l : list R) : np.var l <> 0 -> l <> [].
Proof. intros Hv ->. apply Hv, var_nil. Qed.

Lemma mean_affine (l : list R) (a s : R) :
  l <> [] -> np.mean (map (fun x => (x - a) / s) l) = (np.mean l - a) / s.
Proof.
  intros Hne. pose proof (len_pos l Hne) as Hn.
  unfold np.mean. real_ops.
  replace (np.len (map (fun x => (x - a) / s) l)) with (np.len l)
    by (unfold np.len; now rewrite length_map).
  unfold Rdiv. set (q := / s).
  replace (map (fun x => (x - a) * q) l)
    with (map (fun x => q * x + - a * q) l)
    by (apply map_ext; intros; ring).
  rewrite (sum_map_plus (fun x => q * x) (fun _ => - a * q)).
  rewrite (sum_map_scal q (fun x => x)), map_id, sum_map_const.
  rewrite <- len_INR. clearbody q. field. lra.
Qed.

Lemma var_affine (l : list R) (a s : R) :
  l <> [] -> np.var (map (fun x => (x - a) / s) l) = np.var l / (s * s).
Proof.
  intros Hne. rewrite !var_eq, mean_affine by assumption.
  replace (np.len (map (fun x => (x - a) / s) l)) with (np.len l)
    by (unfold np.len; now rewrite length_map).
  unfold np.square. rewrite !map_map. real_ops.
  set (m := np.mean l).
  replace (map (fun x => ((x - a) / s - (m - a) / s)
                         * ((x - a) / s - (m - a) / s)) l)
    with (map (fun x => (/ s * / s) * ((x - m) * (x - m))) l)
    by (apply map_ext; intros; unfold Rdiv; ring).
  rewrite (sum_map_scal (/ s * / s) (fun x => (x - m) * (x - m))).
  unfold Rdiv. rewrite Rinv_mult. ring.
Qed.

Lemma std_affine (l : list R) (a s : R) :
  l <> [] -> 0 < s ->
  np.std (map (fun x => (x - a) / s) l) = np.std l / s.
Proof.
  intros Hne Hs. unfold np.std. real_ops. rewrite var_affine by assumption.
  rewrite sqrt_div_alt by nra. now rewrite sqrt_square by lra.
Qed.

Lemma nth_zip_with (f : R -> R -> R) (a b : list R) (j : nat) :
  (j < length a)%nat -> (j < length b)%nat ->
  nth j (zip_with f a b) 0 = f (nth j a 0) (nth j b 0).
Proof.
  revert a b. induction j as [|j IH]; intros [|x a] [|y b] Ha Hb;
    simpl in *; try lia; [reflexivity|].
  apply IH; lia.
Qed.

Lemma nth_map_seq (f : nat -> R) (d j : nat) :
  (j < d)%nat -> nth j (map f (seq 0 d)) 0 = f j.
Proof.
  intros Hj. rewrite (nth_indep _ 0 (f 0%nat))
    by now rewrite length_map, length_seq.
  rewrite map_nth, seq_nth by assumption. reflexivity.
Qed.

Lemma nth_repeat_lt (s : R) (d j : nat) :
  (j < d)%nat -> nth j (repeat s d) 0 = s.
Proof.
  intros Hj. rewrite (nth_indep _ 0 s) by now rewrite repeat_length.
  apply nth_repeat.
Qed.

(** A column of the normalised matrix is the column of the matrix,
    shifted and scaled by the entries of its axis. *)
Lemma col_normalized (d : nat) (rs : list (list R)) (m s : list R) (j : nat) :
  Forall (fun r => length r = d) rs ->
  length m = d -> length s = d -> (j < d)%nat ->
  np.col (np.Matrix d
            (map (fun r => zip_with Rdiv (zip_with Rminus r m) s) rs)) j
  = map (fun x => (x - nth j m 0) / nth j s 0) (np.col (np.Matrix d rs) j).
Proof.
  intros Hwf Hm Hs Hj. unfold np.col. simpl. rewrite !map_map.
  induction Hwf as [|r rs Hr _ IH]; simpl; [reflexivity|].
  rewrite IH. f_equal.
  rewrite nth_zip_with, nth_zip_with; try reflexivity;
    rewrite ?length_zip_with; lia.
Qed.

(** After [adapt_normalization] on data with nonzero variance, the
    normalised training data is standardised: the normalised output
    has mean 0 and standard deviation 1, and so has every column of
    the normalised input; with [keep_aspect] the columns have mean 0
    and their standard deviations are those of the raw columns divided
    by the one standard deviation of the whole input. *)
Theorem adapt_normalization_standardizes
  (input : np.matrix R) (output : list R) (keep_aspect : bool)
  (w : world R) :
  nonzero_variance input output keep_aspect ->
  np.wf input ->
  exists inp outp,
    normalize_input input
      (snd (adapt_normalization input output keep_aspect w))
    = (Ok inp, snd (adapt_normalization input output keep_aspect w)) /\
    normalize_output output
      (snd (adapt_normalization input output keep_aspect w))
    = (Ok outp, snd (adapt_normalization input output keep_aspect w)) /\
    np.mean outp = 0 /\
    np.std outp = 1 /\
    forall j, (j < np.ncols input)%nat ->
      np.mean (np.col inp j) = 0 /\
      np.std (np.col inp j)
      = if keep_aspect
        then np.std (np.col input j) / np.std_all input
        else 1.
Proof.
  intros [Hout Hin] Hwf. rewrite adapt_normalization_run. cbn [snd].
  assert (length (np.mean_axis0 input) = np.ncols input) as Hlm
    by (unfold np.mean_axis0; now rewrite length_map, length_seq).
  assert (length (np.std_axis0 input) = np.ncols input) as Hls
    by (unfold np.std_axis0; now rewrite length_map, length_seq).
  rewrite normalize_input_fits;
    cbn [self input_shift input_scale output_shift output_scale fits];
    try assumption; [|destruct keep_aspect; cbn [fits]; trivial].
  rewrite normalize_output_run. unfold normalized_output.
  cbn [self input_shift input_scale output_shift output_scale per_axis].
  do 2 eexists. split; [reflexivity|]. split; [reflexivity|].
  pose proof (var_nonzero_nonempty _ Hout) as Hone.
  pose proof (std_pos _ Hout) as Hso.
  real_ops.
  split; [|split].
  - rewrite mean_affine by assumption. unfold Rdiv. ring.
  - rewrite std_affine by assumption. field. lra.
  - intros j Hj. destruct input as [d rs].
    cbn [np.ncols np.rows] in *. unfold np.wf in Hwf. cbn [np.ncols np.rows] in Hwf.
    rewrite col_normalized; try assumption;
      [|destruct keep_aspect; cbn [per_axis];
        [apply repeat_length | assumption]].
    unfold np.mean_axis0 at 1 2. cbn [np.ncols].
    rewrite !nth_map_seq by assumption.
    assert (np.col (np.Matrix d rs) j <> []) as Hcne.
    { destruct keep_aspect.
      - apply var_nonzero_nonempty in Hin. unfold np.flatten in Hin.
        cbn [np.rows] in Hin. unfold np.col. cbn [np.rows].
        destruct rs; [now contradiction Hin | discriminate].
      - apply var_nonzero_nonempty. now apply Hin. }
    rewrite mean_affine by assumption.
    split; [unfold Rdiv; ring|].
    destruct keep_aspect; cbn [per_axis].
    + rewrite nth_repeat_lt by assumption.
      apply std_affine; [assumption|]. now apply std_pos.
    + unfold np.std_axis0. cbn [np.ncols].
      rewrite nth_map_seq by assumption.
      pose proof (std_pos _ (Hin j Hj)) as Hsj.
      rewrite std_affine by assumption. field. lra.
Qed.

(** The theorem at the training data [[0], [2]] -> [0, 2]. *)
Lemma adapt_normalization_standardizes_witness :
  exists inp outp,
    normalize_input (np.Matrix 1 [[0]; [2]])
      (snd (adapt_normalization (np.Matrix 1 [[0]; [2]]) [0; 2] false
              (World __init__ [])))
    = (Ok inp,
       snd (adapt_normalization (np.Matrix 1 [[0]; [2]]) [0; 2] false
              (World __init__ []))) /\
    normalize_output [0; 2]
      (snd (adapt_normalization (np.Matrix 1 [[0]; [2]]) [0; 2] false
              (World __init__ [])))
    = (Ok outp,
       snd (adapt_normalization (np.Matrix 1 [[0]; [2]]) [0; 2] false
              (World __init__ []))) /\
    np.mean outp = 0 /\
    np.std outp = 1 /\
    forall j, (j < np.ncols (np.Matrix 1 [[0]; [2]]))%nat ->
      np.mean (np.col inp j) = 0 /\
      np.std (np.col inp j)
      = if false
        then np.std (np.col (np.Matrix 1 [[0]; [2]]) j)
             / np.std_all (np.Matrix 1 [[0]; [2]])
        else 1.
Proof.
  apply (adapt_normalization_standardizes (np.Matrix 1 [[0]; [2]]) [0; 2]
           false (World __init__ [])).
  - assert (0 < np.var [0; 2]) as Hv.
    { apply varies_var_pos. exists 0, 2. simpl.
      split; [tauto|]. split; [tauto|lra]. }
    split; [lra|]. intros j Hj. simpl in Hj.
    assert (j = 0%nat) as -> by lia.
    change (np.col (np.Matrix 1 [[0]; [2]]) 0) with [0; 2]. lra.
  - repeat constructor.
Defined.

End Standardisation.
(** ** The inverse round trip, and the aspect ratio *)

Section NormalizationGeometry.
Local Open Scope R_scope.

Lemma row_roundtrip_rev (r m s : list R) :
  length r = length m -> length r = length s ->
  Forall (fun c => c <> 0) s ->
  zip_with Rdiv (zip_with Rminus (zip_with Rplus (zip_with Rmult r s) m) m) s
  = r.
Proof.
  revert m s. induction r as [|a r IH]; intros [|b m] [|c s] Hm Hs Hnz;
    simpl in *; try discriminate; [reflexivity|].
  inversion Hnz as [|? ? Hc Hnz']; subst.
  f_equal; [field; assumption|]. apply IH; congruence.
Qed.

(** Normalising a denormalised input gives the input back, provided no
    scale is zero. *)
Lemma input_roundtrip_rev (w : world R) (x : np.matrix R) :
  np.wf x ->
  fits (input_shift (self w)) (np.ncols x) ->
  fits (input_scale (self w)) (np.ncols x) ->
  Forall (fun c => c <> 0) (per_axis (input_scale (self w)) (np.ncols x)) ->
  (y <- denormalize_input x ;; normalize_input y) w = (Ok x, w).
Proof.
  intros Hwf Hshift Hscale Hnz.
  rewrite (run_bind_Ok _ _ _ _ _ (denormalize_input_fits w x Hwf Hshift Hscale)).
  rewrite normalize_input_fits; simpl; try assumption.
  - rewrite map_map. destruct x as [d rs]. simpl in *. do 3 f_equal.
    apply (rows_fixed _ d); [exact Hwf|]. intros r Hr.
    apply row_roundtrip_rev; [| |assumption]; rewrite per_axis_length;
      congruence.
  - apply Forall_map. eapply Forall_impl; [exact Hwf|]. intros r Hr.
    simpl in *.
    rewrite !length_zip_with, !per_axis_length by assumption. lia.
Qed.

Lemma output_roundtrip_rev (w : world R) (y : list R) :
  output_scale (self w) <> 0 ->
  (z <- denormalize_output y ;; normalize_output z) w = (Ok y, w).
Proof.
  intros Hnz.
  unfold normalize_output, denormalize_output, bind, get, ret. simpl.
  do 2 f_equal. apply map_roundtrip. intros a. field. assumption.
Qed.

(** Once [adapt_normalization] has run on data with nonzero variance,
    normalising a denormalised value returns the value: normalisation
    and denormalisation are inverse to each other in this order too,
    for every input with the columns of the training input and every
    output. *)
Theorem denormalization_roundtrip
  (input : np.matrix R) (output : list R) (keep_aspect : bool)
  (w : world R) (x : np.matrix R) (y : list R) :
  nonzero_variance input output keep_aspect ->
  np.wf x ->
  np.ncols x = np.ncols input ->
  (x' <- denormalize_input x ;; normalize_input x')
    (snd (adapt_normalization input output keep_aspect w))
  = (Ok x, snd (adapt_normalization input output keep_aspect w)) /\
  (y' <- denormalize_output y ;; normalize_output y')
    (snd (adapt_normalization input output keep_aspect w))
  = (Ok y, snd (adapt_normalization input output keep_aspect w)).
Proof.
  intros [Hout Hin] Hwf Hcols. rewrite adapt_normalization_run. simpl snd.
  split.
  - apply input_roundtrip_rev; simpl; try assumption.
    + unfold np.mean_axis0. now rewrite length_map, length_seq.
    + destruct keep_aspect; simpl; [trivial|].
      unfold np.std_axis0. now rewrite length_map, length_seq.
    + destruct keep_aspect; simpl.
      * apply Forall_forall. intros c Hc.
        apply list_elem_of_In, repeat_spec in Hc. subst c.
        apply Rgt_not_eq, Rlt_gt, std_pos, Hin.
      * now apply std_axis0_nonzero.
  - apply output_roundtrip_rev. simpl.
    apply Rgt_not_eq, Rlt_gt, std_pos, Hout.
Qed.

(** The theorem at the training data [[0], [2]] -> [0, 2], the
    normalised input [[5]] and the normalised output [7]. *)
Lemma denormalization_roundtrip_witness :
  (x' <- denormalize_input (np.Matrix 1 [[5]]) ;; normalize_input x')
    (snd (adapt_normalization (np.Matrix 1 [[0]; [2]]) [0; 2] false
            (World __init__ [])))
  = (Ok (np.Matrix 1 [[5]]),
     snd (adapt_normalization (np.Matrix 1 [[0]; [2]]) [0; 2] false
            (World __init__ []))) /\
  (y' <- denormalize_output [7] ;; normalize_output y')
    (snd (adapt_normalization (np.Matrix 1 [[0]; [2]]) [0; 2] false
            (World __init__ [])))
  = (Ok [7],
     snd (adapt_normalization (np.Matrix 1 [[0]; [2]]) [0; 2] false
            (World __init__ []))).
Proof.
  apply (denormalization_roundtrip (np.Matrix 1 [[0]; [2]]) [0; 2] false
           (World __init__ []) (np.Matrix 1 [[5]]) [7]).
  - assert (0 < np.var [0; 2]) as Hv.
    { apply varies_var_pos. exists 0, 2. simpl.
      split; [tauto|]. split; [tauto|lra]. }
    split; [lra|]. intros j Hj. simpl in Hj.
    assert (j = 0%nat) as -> by lia.
    change (np.col (np.Matrix 1 [[0]; [2]]) 0) with [0; 2]. lra.
  - repeat constructor.
  - reflexivity.
Defined.

Lemma shift_scale_difference (x y m : list R) (s : R) :
  length x = length m -> length y = length m ->
  zip_with Rminus
    (zip_with Rdiv (zip_with Rminus x m) (repeat s (length m)))
    (zip_with Rdiv (zip_with Rminus y m) (repeat s (length m)))
  = map (fun z => z / s) (zip_with Rminus x y).
Proof.
  revert x y. induction m as [|c m IH]; intros [|a x] [|b y] Hx Hy;
    simpl in *; try discriminate; [reflexivity|].
  f_equal; [unfold Rdiv; ring|]. apply IH; congruence.
Qed.

Lemma norm_scale (l : list R) (s : R) :
  0 < s -> np.norm (map (fun z => z / s) l) = np.norm l / s.
Proof.
  intros Hs. unfold np.norm, np.square. rewrite map_map. real_ops.
  replace (map (fun x => x / s * (x / s)) l)
    with (map (fun x => (/ s * / s) * (x * x)) l)
    by (apply map_ext; intros; unfold Rdiv; ring).
  rewrite (sum_map_scal (/ s * / s) (fun x => x * x)).
  rewrite <- Rinv_mult, Rmult_comm.
  change (np.sum (map (fun x => x * x) l) * / (s * s))
    with (np.sum (map (fun x => x * x) l) / (s * s)).
  rewrite sqrt_div_alt by nra. now rewrite sqrt_square by lra.
Qed.

(** With [keep_aspect] the normalisation keeps the aspect ratio: the
    distance between two normalised points is the distance between the
    points divided by one and the same factor, the standard deviation
    of the whole training input. *)
Theorem keep_aspect_scales_distances
  (input : np.matrix R) (output : list R) (w : world R) (X : np.matrix R) :
  np.var (np.flatten input) <> 0 ->
  np.wf X ->
  np.ncols X = np.ncols input ->
  exists inp,
    normalize_input X (snd (adapt_normalization input output true w))
    = (Ok inp, snd (adapt_normalization input output true w)) /\
    forall i k x y u v,
      np.rows X !! i = Some x -> np.rows X !! k = Some y ->
      np.rows inp !! i = Some u -> np.rows inp !! k = Some v ->
      distance u v = distance x y / np.std_all input.
Proof.
  intros Hvar Hwf Hcols. rewrite adapt_normalization_run. cbn [snd].
  assert (length (np.mean_axis0 input) = np.ncols X) as Hlm
    by (unfold np.mean_axis0; now rewrite length_map, length_seq).
  rewrite normalize_input_fits;
    cbn [self input_shift input_scale fits]; try assumption; [|trivial].
  eexists. split; [reflexivity|].
  intros i k x y u v Hx Hy Hu Hv. cbn [np.rows per_axis] in Hu, Hv.
  rewrite list_lookup_fmap, Hx in Hu. rewrite list_lookup_fmap, Hy in Hv.
  injection Hu as <-. injection Hv as <-.
  assert (length x = np.ncols X /\ length y = np.ncols X) as [Hlx Hly].
  { unfold np.wf in Hwf. rewrite Forall_forall in Hwf.
    split; apply Hwf; eapply list_elem_of_lookup_2; eassumption. }
  unfold distance. real_ops. rewrite <- Hlm.
  rewrite shift_scale_difference by congruence.
  apply norm_scale. now apply std_pos.
Qed.

(** The theorem at the training input [[0, 0], [2, 4]] and the same
    points. *)
Lemma keep_aspect_scales_distances_witness :
  exists inp,
    normalize_input two_columns
      (snd (adapt_normalization two_columns [0; 2] true (World __init__ [])))
    = (Ok inp,
       snd (adapt_normalization two_columns [0; 2] true (World __init__ [])))
    /\
    forall i k x y u v,
      np.rows two_columns !! i = Some x -> np.rows two_columns !! k = Some y ->
      np.rows inp !! i = Some u -> np.rows inp !! k = Some v ->
      distance u v = distance x y / np.std_all two_columns.
Proof.
  apply (keep_aspect_scales_distances two_columns [0; 2] (World __init__ [])
           two_columns).
  - apply Rgt_not_eq, Rlt_gt, varies_var_pos. exists 0, 2. simpl.
    split; [tauto|]. split; [tauto|lra].
  - repeat constructor.
  - reflexivity.
Defined.

End NormalizationGeometry.
(** ** What each method writes, and what a failure leaves behind *)

Section KeepsFacts.
Context {T : Type} `{Scalar T}.

Section Projection.
Context {B : Type} (proj : world T -> B).

Lemma keeps_ret {A} (a : A) : keeps proj (ret a : M T A).
Proof. now intros w. Qed.

Lemma keeps_lift {A} (r : res A) : keeps proj (lift r : M T A).
Proof. now intros w. Qed.

Lemma keeps_get {A} (field : RBFnet T -> A) : keeps proj (get field).
Proof. now intros w. Qed.

Lemma keeps_getattr {A} (field : RBFnet T -> option A) :
  keeps proj (getattr field).
Proof. intros w. unfold getattr. now destruct (field (self w)). Qed.

Lemma keeps_assert (b : bool) : keeps proj (assert b : M T unit).
Proof. now destruct b. Qed.

Lemma keeps_setattr (update : RBFnet T -> RBFnet T) :
  (forall w, proj (World (update (self w)) (stdout w)) = proj w) ->
  keeps proj (setattr update).
Proof. intros Hu w. apply Hu. Qed.

Lemma keeps_print (l : line T) :
  (forall w, proj (World (self w) (stdout w ++ [l])) = proj w) ->
  keeps proj (print l).
Proof. intros Hp w. apply Hp. Qed.

Lemma keeps_bind {A C} (c : M T A) (k : A -> M T C) :
  keeps proj c -> (forall a, keeps proj (k a)) -> keeps proj (x <- c ;; k x).
Proof.
  intros Hc Hk w. unfold bind. specialize (Hc w).
  destruct (c w) as [[a|e] w']; simpl in *; [|assumption].
  now rewrite Hk.
Qed.

Lemma keeps_for_each {S} (body : nat -> S -> M T S) (idx : list nat) (s : S) :
  (forall j s', keeps proj (body j s')) -> keeps proj (for_each body idx s).
Proof.
  intros Hbody. revert s. induction idx as [|j idx IH]; intros s; simpl.
  - apply keeps_ret.
  - apply keeps_bind; [apply Hbody | intros s'; apply IH].
Qed.

Lemma keeps_run_minimize (fun_ : T -> M T T) (callback_ : T -> M T unit)
  (o : optimizer T) :
  (forall x, keeps proj (fun_ x)) -> (forall x, keeps proj (callback_ x)) ->
  keeps proj (run_minimize fun_ callback_ o).
Proof.
  intros Hf Hc. induction o as [x | x k IH | xk k IH]; simpl.
  - apply keeps_ret.
  - apply keeps_bind; [apply Hf | intros y; apply IH].
  - apply keeps_bind; [apply Hc | intros _; apply IH].
Qed.

End Projection.

Create HintDb keeps.
#[local] Hint Resolve keeps_ret keeps_lift keeps_get keeps_getattr
  keeps_assert : keeps.
#[local] Hint Extern 1 (keeps _ (setattr _)) =>
  apply keeps_setattr; intros ?; reflexivity : keeps.
#[local] Hint Extern 1 (keeps _ (print _)) =>
  apply keeps_print; intros ?; reflexivity : keeps.

(** One step through a method body: a primitive, a loop, a
    destructuring [let], a branch, or a sequencing. *)
Ltac keeps_step :=
  first
    [ solve [auto 1 with keeps nocore]
    | apply keeps_for_each; intros ? ?
    | match goal with
      | |- keeps _ (let '(_, _) := ?p in _) => destruct p
      | |- keeps _ (if ?b then _ else _) => destruct b
      end
    | apply keeps_bind; [|intros ?] ].

Ltac keeps_steps := repeat keeps_step.

Ltac unfold_methods :=
  unfold fit_weights_and_radius, objective, callback, fit_weights,
    fit_weights_matrix, predict, compute_centers, adapt_normalization,
    normalize_input, normalize_output, denormalize_input,
    denormalize_output, for_range.

(** *** Failure *)

Lemma readonly_assert (b : bool) : readonly (assert b : M T unit).
Proof. now destruct b. Qed.

Lemma atomic_readonly {A} (c : M T A) : readonly c -> atomic c.
Proof. intros Hc w e _. apply Hc. Qed.

Lemma atomic_bind_readonly {A C} (c : M T A) (k : A -> M T C) :
  readonly c -> (forall a, atomic (k a)) -> atomic (x <- c ;; k x).
Proof.
  intros Hc Hk w e. unfold bind. specialize (Hc w).
  destruct (c w) as [[a|e'] w']; simpl in *; subst w'.
  - apply Hk.
  - reflexivity.
Qed.

Lemma readonly_fit_weights_matrix (inp cs : np.matrix T) (radius : T)
  (kernel : T -> T) :
  readonly (fit_weights_matrix inp cs radius kernel).
Proof.
  unfold fit_weights_matrix, for_range. apply readonly_for_each.
  intros j s. repeat (apply readonly_bind; [apply readonly_lift | intros ?]).
  apply readonly_lift.
Qed.

Variable KMeans_fit : nat -> option Z -> np.matrix T -> res (np.matrix T).
Variable lstsq :
  np.matrix T -> list T -> res (list T * list T * nat * list T).

Lemma atomic_compute_centers (input : np.matrix T) (num : nat)
  (random_state : option Z) :
  atomic (compute_centers KMeans_fit input num random_state).
Proof.
  unfold compute_centers.
  apply atomic_bind_readonly; [apply readonly_normalize_input | intros inp].
  apply atomic_bind_readonly; [apply readonly_lift | intros cs].
  intros w e Hr. discriminate.
Qed.

Lemma atomic_fit_weights (input : np.matrix T) (output : list T)
  (radius : T) (kernel : T -> T) :
  atomic (fit_weights lstsq input output radius kernel).
Proof.
  unfold fit_weights.
  apply atomic_bind_readonly; [apply readonly_normalize_input | intros inp].
  apply atomic_bind_readonly; [apply readonly_normalize_output | intros outp].
  apply atomic_bind_readonly; [apply readonly_assert | intros _].
  apply atomic_bind_readonly; [apply readonly_getattr | intros cs].
  apply atomic_bind_readonly; [apply readonly_assert | intros _].
  apply atomic_bind_readonly; [apply readonly_fit_weights_matrix | intros A].
  apply atomic_bind_readonly; [apply readonly_lift | intros [[[c r] k] s]].
  intros w e Hr. discriminate.
Qed.

(** A failure of a staged method leaves no trace: when
    [compute_centers] or [fit_weights] raises, the network and the
    standard output are as they were before the call (every assignment
    comes after the last step that can fail); and
    [adapt_normalization] never raises. *)
Theorem staged_methods_fail_cleanly
  (input : np.matrix T) (output : list T) (num : nat)
  (random_state : option Z) (radius : T) (kernel : T -> T)
  (keep_aspect : bool) (w : world T) :
  fst (adapt_normalization input output keep_aspect w) = Ok tt /\
  (forall e, fst (compute_centers KMeans_fit input num random_state w)
             = Raise e ->
             snd (compute_centers KMeans_fit input num random_state w) = w) /\
  (forall e, fst (fit_weights lstsq input output radius kernel w) = Raise e ->
             snd (fit_weights lstsq input output radius kernel w) = w).
Proof.
  split; [now rewrite adapt_normalization_run|]. split; intros e.
  - apply atomic_compute_centers.
  - apply atomic_fit_weights.
Qed.

Variable options : Type.
Variable minimize : T -> T -> option options -> string -> optimizer T.

(** *** Frames *)

(** What the methods never write.  [adapt_normalization] writes the
    four normalisation attributes only; [compute_centers] writes
    [centers] only; [fit_weights] writes [coeffs], [residual], [rbf] and
    [radius] only; [fit_weights_and_radius] leaves the normalisation and
    the centres alone; none of the first three prints.  This holds
    whether the call returns or raises. *)
Theorem method_frames
  (input : np.matrix T) (output : list T) (num : nat)
  (random_state : option Z) (radius_ : T) (kernel : T -> T)
  (keep_aspect : bool) (measure verbose : pyobj T) (method : string)
  (options_ : option options) (tol : T) :
  keeps (fun w => (centers (self w), coeffs (self w), residual (self w),
                   rbf (self w), radius (self w), error (self w),
                   fcall (self w), stdout w))
    (adapt_normalization input output keep_aspect) /\
  keeps (fun w => (normalization_of (self w), coeffs (self w),
                   residual (self w), rbf (self w), radius (self w),
                   error (self w), fcall (self w), stdout w))
    (compute_centers KMeans_fit input num random_state) /\
  keeps (fun w => (normalization_of (self w), centers (self w),
                   error (self w), fcall (self w), stdout w))
    (fit_weights lstsq input output radius_ kernel) /\
  keeps (fun w => (normalization_of (self w), centers (self w)))
    (fit_weights_and_radius lstsq options minimize input output kernel
       measure verbose method options_ tol).
Proof.
  split; [|split; [|split]].
  - unfold_methods. keeps_steps.
  - unfold_methods. keeps_steps.
  - unfold_methods. keeps_steps.
  - unfold fit_weights_and_radius.
    apply keeps_bind; [keeps_steps | intros _].
    apply keeps_bind; [keeps_steps | intros _].
    apply keeps_bind; [|intros _; apply keeps_ret].
    apply keeps_run_minimize; intros x; unfold_methods; keeps_steps.
Qed.

Lemma keeps_centers_exec (w : world T) (op : operation options) :
  places_centers op = false ->
  centers (self (exec KMeans_fit lstsq options minimize w op))
  = centers (self w).
Proof.
  destruct op as [x n rs | x y r k | x y k ms vb mt os tl | x | x | y | x | y];
    try discriminate; intros _; unfold exec; revert w.
  - change (keeps (fun w => centers (self w)) (fit_weights lstsq x y r k)).
    unfold_methods. keeps_steps.
  - change (keeps (fun w => centers (self w))
              (fit_weights_and_radius lstsq options minimize x y k ms vb mt
                 os tl)).
    unfold fit_weights_and_radius.
    apply keeps_bind; [keeps_steps | intros _].
    apply keeps_bind; [keeps_steps | intros _].
    apply keeps_bind; [|intros _; apply keeps_ret].
    apply keeps_run_minimize; intros x'; unfold_methods; keeps_steps.
  - change (keeps (fun w => centers (self w)) (predict x)).
    unfold_methods. keeps_steps.
  - change (keeps (fun w => centers (self w)) (normalize_input x)).
    unfold_methods. keeps_steps.
  - change (keeps (fun w => centers (self w)) (normalize_output y)).
    unfold_methods. keeps_steps.
  - change (keeps (fun w => centers (self w)) (denormalize_input x)).
    unfold_methods. keeps_steps.
  - change (keeps (fun w => centers (self w)) (denormalize_output y)).
    unfold_methods. keeps_steps.
Qed.

(** The centres are fixed once placed: no sequence of calls of
    [fit_weights], [fit_weights_and_radius], [predict] and the four
    normalisation maps changes [centers], whether the calls return or
    raise; only [compute_centers] (and so [train]) writes them. *)
Theorem centers_fixed_until_compute_centers
  (ops : list (operation options)) (w : world T) :
  Forall (fun op => places_centers op = false) ops ->
  centers (self (fold_left (exec KMeans_fit lstsq options minimize) ops w))
  = centers (self w).
Proof.
  intros Hops. revert w.
  induction Hops as [|op ops Hop _ IH]; intros w; simpl; [reflexivity|].
  rewrite IH. now apply keeps_centers_exec.
Qed.

End KeepsFacts.
(** ** The run of the radius optimisation *)

Section RadiusSearch.
Context {T : Type} `{Scalar T}.
Variable lstsq :
  np.matrix T -> list T -> res (list T * list T * nat * list T).

Lemma returns_last {A B} (c : M T A) (k : A -> M T B) (Q : world T -> Prop) :
  (forall a w b w', k a w = (Ok b, w') -> Q w') ->
  forall w b w', (x <- c ;; k x) w = (Ok b, w') -> Q w'.
Proof.
  intros Hk w b w'. unfold bind.
  destruct (c w) as [[a|e] w1]; [apply Hk | discriminate].
Qed.

(** A call of [fit_weights] that returns has stored its radius. *)
Lemma fit_weights_stores_radius (input : np.matrix T) (output : list T)
  (r : T) (kernel : T -> T) (w w' : world T) (u : unit) :
  fit_weights lstsq input output r kernel w = (Ok u, w') ->
  radius (self w') = Some r.
Proof.
  revert w u w'. unfold fit_weights.
  do 6 (apply returns_last; intros ?). apply returns_last.
  intros [[[c rs] rk] sv] w u w'.
  unfold bind, setattr. simpl. intros Heq. injection Heq as _ <-.
  reflexivity.
Qed.

(** An evaluation of the objective that returns leaves the trial
    radius in the network. *)
Lemma objective_stores_radius (input : np.matrix T) (output : list T)
  (kernel : T -> T) (measure : pyobj T) (x : T) (w : world T) (y : T)
  (w' : world T) :
  objective lstsq input output kernel measure x w = (Ok y, w') ->
  radius (self w') = Some x.
Proof.
  unfold objective. unfold bind at 1.
  destruct (fit_weights lstsq input output x kernel w) as [[u|e] w1] eqn:Hfit;
    [|discriminate].
  apply fit_weights_stores_radius in Hfit. intros Hrest.
  rewrite <- Hfit.
  change (radius (self w')) with ((fun w => radius (self w)) w').
  replace w' with (snd ((pred <- predict input ;;
                         e <- lift (call measure output pred) ;;
                         _ <- setattr (set_error e) ;;
                         getattr error) w1))
    by now rewrite Hrest.
  revert w1 Hfit Hrest. intros w1 _ _. revert w1.
  change (keeps (fun w => radius (self w))
            (pred <- predict input ;;
             e <- lift (call measure output pred) ;;
             _ <- setattr (set_error e) ;;
             getattr error)).
  unfold predict, denormalize_output, normalize_input, for_range.
  repeat first
    [ apply keeps_ret | apply keeps_lift | apply keeps_get
    | apply keeps_getattr
    | apply keeps_setattr; intros ?; reflexivity
    | apply keeps_for_each; intros ? ?
    | apply keeps_bind; [|intros ?] ].
Qed.

Lemma callback_keeps_radius (verbose : pyobj T) (xk : T) :
  keeps (fun w => radius (self w)) (callback verbose xk).
Proof.
  unfold callback. destruct (truth verbose); [|apply keeps_ret].
  repeat first
    [ apply keeps_getattr
    | apply keeps_setattr; intros ?; reflexivity
    | apply keeps_print; intros ?; reflexivity
    | apply keeps_bind; [|intros ?] ].
Qed.

Lemma run_minimize_last_trial (fun_ : T -> M T T) (callback_ : T -> M T unit)
  (o : optimizer T) :
  (forall x w y w', fun_ x w = (Ok y, w') -> radius (self w') = Some x) ->
  (forall xk, keeps (fun w => radius (self w)) (callback_ xk)) ->
  forall w a w',
    run_minimize fun_ callback_ o w = (Ok a, w') ->
    radius (self w')
    = match last (trials fun_ callback_ o w) with
      | Some x => Some x
      | None => radius (self w)
      end.
Proof.
  intros Hf Hc.
  induction o as [x | x k IH | xk k IH]; intros w a w'; simpl.
  - unfold ret. intros Heq. now injection Heq as _ <-.
  - unfold bind. destruct (fun_ x w) as [[y|e] w1] eqn:Hfx; [|discriminate].
    intros Hrun. rewrite last_cons, (IH y w1 a w' Hrun).
    rewrite (Hf x w y w1 Hfx). now destruct (last _).
  - unfold bind. pose proof (Hc xk w) as Hk.
    destruct (callback_ xk w) as [[u|e] w1] eqn:Hcb; [|discriminate].
    simpl in Hk. intros Hrun. rewrite (IH w1 a w' Hrun). now rewrite Hk.
Qed.

Lemma run_minimize_with_result (fun_ : T -> M T T)
  (callback_ : T -> M T unit) (g : T -> T) (o : optimizer T) (w : world T) :
  run_minimize fun_ callback_ (with_result g o) w
  = (match fst (run_minimize fun_ callback_ o w) with
     | Ok x => Ok (g x)
     | Raise e => Raise e
     end,
     snd (run_minimize fun_ callback_ o w)).
Proof.
  revert w. induction o as [x | x k IH | xk k IH]; intros w; simpl.
  - reflexivity.
  - unfold bind. destruct (fun_ x w) as [[y|e] w1]; [apply IH | reflexivity].
  - unfold bind.
    destruct (callback_ xk w) as [[u|e] w1]; [apply IH | reflexivity].
Qed.

Variable options : Type.
Variable minimize : T -> T -> option options -> string -> optimizer T.

(** [fit_weights_and_radius] prints the header if [verbose], resets
    [fcall], runs the minimizer and discards its result. *)
Lemma fit_weights_and_radius_from_start
  (input : np.matrix T) (output : list T) (kernel : T -> T)
  (measure verbose : pyobj T) (method : string) (options_ : option options)
  (tol : T) (w : world T) :
  fit_weights_and_radius lstsq options minimize input output kernel
    measure verbose method options_ tol w
  = (match fst (run_minimize (objective lstsq input output kernel measure)
                  (callback verbose)
                  (minimize (of_Z 1) lit_1e_6 options_ method)
                  (search_start verbose w)) with
     | Ok _ => Ok tt
     | Raise e => Raise e
     end,
     snd (run_minimize (objective lstsq input output kernel measure)
            (callback verbose)
            (minimize (of_Z 1) lit_1e_6 options_ method)
            (search_start verbose w))).
Proof.
  unfold fit_weights_and_radius, search_start, bind, print, setattr, ret.
  destruct (truth verbose); cbn [self stdout];
    now destruct (run_minimize _ _ _ _) as [[x|e] w1].
Qed.

(** When [fit_weights_and_radius] returns, the radius in the network is
    the last trial point at which the minimizer evaluated the objective
    (the radius is untouched if there was no evaluation); the result
    reported by the minimizer is not used: a minimizer that reports any
    other result leaves the same network and the same output. *)
Theorem fit_weights_and_radius_keeps_last_trial
  (input : np.matrix T) (output : list T) (kernel : T -> T)
  (measure verbose : pyobj T) (method : string) (options_ : option options)
  (tol : T) (w : world T) (g : T -> T) :
  (fst (fit_weights_and_radius lstsq options minimize input output kernel
          measure verbose method options_ tol w) = Ok tt ->
   radius (self (snd (fit_weights_and_radius lstsq options minimize input
                        output kernel measure verbose method options_ tol
                        w)))
   = match last (trials (objective lstsq input output kernel measure)
                   (callback verbose)
                   (minimize (of_Z 1) lit_1e_6 options_ method)
                   (search_start verbose w)) with
     | Some x => Some x
     | None => radius (self w)
     end) /\
  fit_weights_and_radius lstsq options
    (fun x0 tol' options' method' =>
       with_result g (minimize x0 tol' options' method'))
    input output kernel measure verbose method options_ tol w
  = fit_weights_and_radius lstsq options minimize input output kernel
      measure verbose method options_ tol w.
Proof.
  split.
  - rewrite fit_weights_and_radius_from_start. cbn [fst snd].
    destruct (run_minimize _ _ _ (search_start verbose w))
      as [[x|e] w1] eqn:Hrun; [|discriminate].
    intros _. cbn [snd].
    rewrite (run_minimize_last_trial _ _ _
               (objective_stores_radius input output kernel measure)
               (callback_keeps_radius verbose) _ _ _ Hrun).
    destruct (last _); [reflexivity|].
    unfold search_start. now destruct (truth verbose).
  - unfold fit_weights_and_radius, bind.
    destruct ((if truth verbose then print Header else ret tt) w)
      as [[u|e] w1]; [|reflexivity].
    destruct (setattr (set_fcall 0) w1) as [[u'|e] w2]; [|reflexivity].
    rewrite run_minimize_with_result.
    destruct (run_minimize _ _ _ w2) as [[x|e] w3]; reflexivity.
Qed.

(** *** The progress table *)

Lemma objective_keeps_log (input : np.matrix T) (output : list T)
  (kernel : T -> T) (measure : pyobj T) (x : T) :
  keeps (fun w => (fcall (self w), stdout w))
    (objective lstsq input output kernel measure x).
Proof.
  unfold objective, fit_weights, fit_weights_matrix, predict,
    denormalize_output, normalize_input, normalize_output, for_range.
  repeat first
    [ apply keeps_ret | apply keeps_lift | apply keeps_get
    | apply keeps_getattr | apply keeps_assert
    | apply keeps_setattr; intros ?; reflexivity
    | apply keeps_for_each; intros ? ?
    | match goal with
      | |- keeps _ (let '(_, _) := ?p in _) => destruct p
      end
    | apply keeps_bind; [|intros ?] ].
Qed.

Lemma callback_quiet (verbose : pyobj T) (xk : T) (w : world T) :
  truth verbose = false -> callback verbose xk w = (Ok tt, w).
Proof. intros Hv. unfold callback. now rewrite Hv. Qed.

Lemma run_minimize_quiet (verbose : pyobj T) (fun_ : T -> M T T)
  (o : optimizer T) :
  truth verbose = false ->
  (forall x, keeps (fun w => stdout w) (fun_ x)) ->
  keeps (fun w => stdout w) (run_minimize fun_ (callback verbose) o).
Proof.
  intros Hv Hf. apply keeps_run_minimize; [assumption|].
  intros xk w. now rewrite callback_quiet.
Qed.

(** One report to a verbose callback: the counter is incremented, and
    a progress row is printed unless no error has been recorded yet. *)
Lemma callback_verbose (verbose : pyobj T) (xk : T) (w : world T) (n : nat) :
  truth verbose = true ->
  fcall (self w) = Some n ->
  callback verbose xk w
  = match error (self w) with
    | Some e =>
        (Ok tt,
         World (set_fcall (n + 1) (self w))
           (stdout w ++ [Progress (n + 1) xk e]))
    | None =>
        (Raise AttributeError,
         World (set_fcall (n + 1) (self w)) (stdout w))
    end.
Proof.
  intros Hv Hn. unfold callback. rewrite Hv.
  rewrite (run_getattr_Some _ _ _ _ Hn), run_setattr.
  erewrite run_getattr_Some by reflexivity.
  unfold bind, getattr, print. cbn [self stdout error set_fcall].
  now destruct (error (self w)).
Qed.

Lemma run_minimize_log (input : np.matrix T) (output : list T)
  (kernel : T -> T) (measure verbose : pyobj T) (o : optimizer T) :
  truth verbose = true ->
  forall w n,
    fcall (self w) = Some n ->
    exists rows,
      stdout (snd (run_minimize (objective lstsq input output kernel measure)
                     (callback verbose) o w))
      = stdout w ++ rows /\
      map iteration rows = map Some (seq (S n) (length rows)).
Proof.
  intros Hv.
  induction o as [x | x k IH | xk k IH]; intros w n Hn; simpl.
  - exists []. now rewrite app_nil_r.
  - pose proof (objective_keeps_log input output kernel measure x w) as Hk.
    unfold bind.
    destruct (objective lstsq input output kernel measure x w)
      as [[y|e] w1]; simpl in Hk; injection Hk as Hfc Hout.
    + destruct (IH y w1 n) as (rows & Hrows & Hits); [congruence|].
      exists rows. now rewrite Hrows, Hout.
    + exists []. simpl. now rewrite app_nil_r.
  - unfold bind. rewrite (callback_verbose verbose xk w n Hv Hn).
    destruct (error (self w)) as [err|].
    + destruct (IH (World (set_fcall (n + 1) (self w))
                      (stdout w ++ [Progress (n + 1) xk err])) (n + 1)%nat)
        as (rows & Hrows & Hits); [reflexivity|].
      exists (Progress (n + 1) xk err :: rows).
      rewrite Hrows. cbn [stdout]. rewrite <- app_assoc. split; [reflexivity|].
      cbn [map iteration length seq]. rewrite Hits.
      now replace (n + 1)%nat with (S n) by lia.
    + exists []. simpl. now rewrite app_nil_r.
Qed.

(** What [fit_weights_and_radius] prints.  With a false [verbose] it
    prints nothing.  With a true [verbose] it prints the header and
    then only progress rows, numbered 1, 2, 3, ... in order.  Both hold
    whether the call returns or raises. *)
Theorem fit_weights_and_radius_log
  (input : np.matrix T) (output : list T) (kernel : T -> T)
  (measure verbose : pyobj T) (method : string) (options_ : option options)
  (tol : T) (w : world T) :
  (truth verbose = false ->
   stdout (snd (fit_weights_and_radius lstsq options minimize input output
                  kernel measure verbose method options_ tol w))
   = stdout w) /\
  (truth verbose = true ->
   exists rows,
     stdout (snd (fit_weights_and_radius lstsq options minimize input output
                    kernel measure verbose method options_ tol w))
     = stdout w ++ Header :: rows /\
     map iteration rows = map Some (seq 1 (length rows))).
Proof.
  split; intros Hv.
  - revert w.
    change (keeps (fun w => stdout w)
              (fit_weights_and_radius lstsq options minimize input output
                 kernel measure verbose method options_ tol)).
    unfold fit_weights_and_radius. rewrite Hv.
    apply keeps_bind; [apply keeps_ret | intros _].
    apply keeps_bind; [apply keeps_setattr; intros ?; reflexivity | intros _].
    apply keeps_bind; [|intros _; apply keeps_ret].
    apply run_minimize_quiet; [assumption|]. intros x w.
    pose proof (objective_keeps_log input output kernel measure x w) as Hk.
    now injection Hk.
  - unfold fit_weights_and_radius. rewrite Hv.
    unfold bind at 1, print at 1. rewrite run_setattr. cbn [self stdout].
    destruct (run_minimize_log input output kernel measure verbose
                (minimize (of_Z 1) lit_1e_6 options_ method) Hv
                (World (set_fcall 0 (self w)) (stdout w ++ [Header])) 0%nat)
      as (rows & Hrows & Hits); [reflexivity|].
    exists rows. split; [|assumption].
    unfold bind.
    destruct (run_minimize _ _ _ _) as [[x|e] w1]; simpl in *;
      rewrite Hrows, <- app_assoc; reflexivity.
Qed.

End RadiusSearch.
(** ** The frame and radius-search theorems on examples *)

Section FrameExamples.
Local Open Scope R_scope.

(** The centres of [one_centre_net] after a weight fit, a radius search
    and a prediction. *)
Lemma centers_fixed_until_compute_centers_witness :
  centers
    (self
       (fold_left (exec first_points zero_weights unit one_evaluation)
          [call_fit_weights (np.Matrix 1 [[3]]) [5] 2 gaussian;
           call_fit_weights_and_radius (np.Matrix 1 [[3]]) [5] gaussian
             (PyFunction rms_error) (PyBool false) default_method None
             default_tol;
           call_predict (np.Matrix 1 [[1]])]
          one_centre_net))
  = centers (self one_centre_net).
Proof.
  apply (centers_fixed_until_compute_centers first_points zero_weights unit
           one_evaluation
           [call_fit_weights (np.Matrix 1 [[3]]) [5] 2 gaussian;
            call_fit_weights_and_radius (np.Matrix 1 [[3]]) [5] gaussian
              (PyFunction rms_error) (PyBool false) default_method None
              default_tol;
            call_predict (np.Matrix 1 [[1]])]
           one_centre_net).
  repeat constructor.
Defined.

(** A radius search with two trials, at 1 and then at [1e-6], whose
    minimizer reports 1. *)
Lemma fit_weights_and_radius_keeps_last_trial_witness :
  radius
    (self
       (snd (fit_weights_and_radius zero_weights unit two_trials
               (np.Matrix 1 [[3]]) [5] gaussian (PyFunction rms_error)
               (PyBool false) default_method None default_tol
               one_centre_net)))
  = match last (trials (objective zero_weights (np.Matrix 1 [[3]]) [5]
                          gaussian (PyFunction rms_error))
                  (callback (PyBool false))
                  (two_trials (of_Z 1) lit_1e_6 None default_method)
                  (search_start (PyBool false) one_centre_net)) with
    | Some x => Some x
    | None => radius (self one_centre_net)
    end /\
  fit_weights_and_radius zero_weights unit
    (fun x0 tol' options' method' =>
       with_result (fun x => x + 1) (two_trials x0 tol' options' method'))
    (np.Matrix 1 [[3]]) [5] gaussian (PyFunction rms_error) (PyBool false)
    default_method None default_tol one_centre_net
  = fit_weights_and_radius zero_weights unit two_trials
      (np.Matrix 1 [[3]]) [5] gaussian (PyFunction rms_error) (PyBool false)
      default_method None default_tol one_centre_net.
Proof.
  destruct (fit_weights_and_radius_keeps_last_trial zero_weights unit
              two_trials (np.Matrix 1 [[3]]) [5] gaussian
              (PyFunction rms_error) (PyBool false) default_method None
              default_tol one_centre_net (fun x => x + 1))
    as [Hlast Hresult].
  split; [apply Hlast; reflexivity | exact Hresult].
Defined.

(** In that search the minimizer reports the radius 1, and the radius
    left in the network is [1e-6]. *)
Example last_trial_is_not_the_result :
  fst (run_minimize
         (objective zero_weights (np.Matrix 1 [[3]]) [5] gaussian
            (PyFunction rms_error))
         (callback (PyBool false))
         (two_trials (of_Z 1) lit_1e_6 None default_method)
         (search_start (PyBool false) one_centre_net))
  = Ok 1 /\
  radius
    (self
       (snd (fit_weights_and_radius zero_weights unit two_trials
               (np.Matrix 1 [[3]]) [5] gaussian (PyFunction rms_error)
               (PyBool false) default_method None default_tol
               one_centre_net)))
  = Some (1 / 1000000).
Proof. repeat split. Qed.

(** A verbose radius search with two reported iterations. *)
Lemma fit_weights_and_radius_log_witness :
  exists rows,
    stdout
      (snd (fit_weights_and_radius zero_weights unit two_iterations
              (np.Matrix 1 [[3]]) [5] gaussian (PyFunction rms_error)
              (PyBool true) default_method None default_tol one_centre_net))
    = stdout one_centre_net ++ Header :: rows /\
    map iteration rows = map Some (seq 1 (length rows)).
Proof.
  destruct (fit_weights_and_radius_log zero_weights unit two_iterations
              (np.Matrix 1 [[3]]) [5] gaussian (PyFunction rms_error)
              (PyBool true) default_method None default_tol one_centre_net)
    as [_ Hverbose].
  apply Hverbose. reflexivity.
Defined.

(** The table printed by that search: the header and two rows. *)
Example verbose_search_prints_two_rows :
  map iteration
    (stdout
       (snd (fit_weights_and_radius zero_weights unit two_iterations
               (np.Matrix 1 [[3]]) [5] gaussian (PyFunction rms_error)
               (PyBool true) default_method None default_tol
               one_centre_net)))
  = [None; Some 1%nat; Some 2%nat].
Proof. reflexivity. Qed.

End FrameExamples.
(** ** Using the network: before training, after training *)

Section Lifecycle.
Context {T : Type} `{Scalar T}.

(** Predictions are made row by row: the prediction for a batch of
    points is the predictions for its parts, one after the other, so a
    point's prediction does not depend on the points it is batched
    with. *)
Theorem predict_rowwise (w : world T) (d : nat) (xs ys : list (list T))
  (cs : np.matrix T) (ws : list T) (kernel : T -> T) (r : T) :
  centers (self w) = Some cs -> coeffs (self w) = Some ws ->
  rbf (self w) = Some kernel -> radius (self w) = Some r ->
  np.wf cs -> length ws = np.nrows cs ->
  np.wf (np.Matrix d xs) -> np.wf (np.Matrix d ys) ->
  d = np.ncols cs ->
  fits (input_shift (self w)) d ->
  fits (input_scale (self w)) d ->
  exists p q,
    predict (np.Matrix d xs) w = (Ok p, w) /\
    predict (np.Matrix d ys) w = (Ok q, w) /\
    predict (np.Matrix d (xs ++ ys)) w = (Ok (p ++ q), w).
Proof.
  intros Hcs Hws Hk Hr Hwfc Hlen Hwx Hwy Hd Hshift Hscale.
  assert (np.wf (np.Matrix d (xs ++ ys))) as Hwxy
    by (unfold np.wf in *; simpl in *; now apply Forall_app).
  do 2 eexists.
  rewrite !(predict_run w _ cs ws kernel r) by assumption.
  split; [reflexivity|]. split; [reflexivity|].
  unfold normalized_rows. cbn [np.rows np.ncols].
  now rewrite !map_app.
Qed.

Variable KMeans_fit : nat -> option Z -> np.matrix T -> res (np.matrix T).
Variable lstsq :
  np.matrix T -> list T -> res (list T * list T * nat * list T).

(** A network without centres cannot be used: [predict] and
    [fit_weights] raise and leave the state as it was.  Where the input
    fits the normalisation, the exception is [AttributeError] (the
    attribute [centers] does not exist), for [fit_weights] after the
    check of the row counts. *)
Theorem network_without_centers_raises (w : world T) (input : np.matrix T)
  (output : list T) (r : T) (kernel : T -> T) :
  centers (self w) = None ->
  (exists e, predict input w = (Raise e, w) /\
             (e = AttributeError \/ e = ValueError)) /\
  (exists e, fit_weights lstsq input output r kernel w = (Raise e, w) /\
             (e = AttributeError \/ e = AssertionError \/ e = ValueError)) /\
  (np.wf input ->
   fits (input_shift (self w)) (np.ncols input) ->
   fits (input_scale (self w)) (np.ncols input) ->
   predict input w = (Raise AttributeError, w) /\
   (np.nrows input = length output ->
    fit_weights lstsq input output r kernel w = (Raise AttributeError, w))).
Proof.
  intros Hcs.
  assert (forall B (k : np.matrix T -> M T B),
            (x <- getattr centers ;; k x) w = (Raise AttributeError, w))
    as Hget.
  { intros B k. unfold bind, getattr. now rewrite Hcs. }
  split; [|split].
  - unfold predict.
    pose proof (normalize_input_shape w input) as Hshape. unfold bind at 1.
    destruct (normalize_input input w) as [[inp|e] w1].
    + destruct Hshape as (-> & _). rewrite Hget. eauto.
    + destruct Hshape as (-> & ->). eauto.
  - unfold fit_weights.
    pose proof (normalize_input_shape w input) as Hshape. unfold bind at 1.
    destruct (normalize_input input w) as [[inp|e] w1].
    + destruct Hshape as (-> & _).
      rewrite (run_bind_Ok _ _ _ _ _ (normalize_output_run w output)).
      destruct (Nat.eqb (np.nrows inp)
                  (length (normalized_output (self w) output))) eqn:Heq.
      * rewrite run_assert_true by reflexivity. rewrite Hget. eauto.
      * rewrite run_assert_false by reflexivity. eauto 6.
    + destruct Hshape as (-> & ->). eauto 6.
  - intros Hwf Hshift Hscale.
    pose proof (normalize_input_fits w input Hwf Hshift Hscale) as Hnorm.
    destruct (normalize_input_wf _ _ _ _ Hwf Hshift Hscale Hnorm)
      as (_ & _ & Hnrows & _).
    split.
    + unfold predict. rewrite (run_bind_Ok _ _ _ _ _ Hnorm).
      apply Hget.
    + intros Hrows. unfold fit_weights.
      rewrite (run_bind_Ok _ _ _ _ _ Hnorm).
      rewrite (run_bind_Ok _ _ _ _ _ (normalize_output_run w output)).
      rewrite run_assert_true.
      * apply Hget.
      * apply Nat.eqb_eq. rewrite Hnrows, Hrows. unfold normalized_output.
        now rewrite length_map.
Qed.

Variable options : Type.
Variable minimize : T -> T -> option options -> string -> optimizer T.

(** Training with a given radius, then predicting.  When the
    clustering returns well-formed centres of the input's dimension on
    the normalised training input, and the solver returns one weight
    per centre, [train] returns, prints nothing, and leaves a network
    with these centres and weights, the given radius and kernel; and
    then [predict] returns one prediction per row for every well-formed
    input with the training input's number of columns. *)
Theorem train_then_predict
  (input : np.matrix T) (output : list T) (num : nat) (r : T)
  (kernel : T -> T) (random_state : option Z) (keep_aspect : bool)
  (verbose measure : pyobj T) (w : world T)
  (cs : np.matrix T) (c rsd sv : list T) (rk : nat) :
  np.wf input ->
  np.nrows input = length output ->
  KMeans_fit num random_state
    (np.Matrix (np.ncols input)
       (normalized_rows
          (self (snd (adapt_normalization input output keep_aspect w)))
          input))
  = Ok cs ->
  np.wf cs ->
  np.ncols cs = np.ncols input ->
  lstsq
    (design
       (normalized_rows
          (self (snd (adapt_normalization input output keep_aspect w)))
          input)
       (np.rows cs) kernel r)
    (normalized_output
       (self (snd (adapt_normalization input output keep_aspect w)))
       output)
  = Ok (c, rsd, rk, sv) ->
  length c = np.nrows cs ->
  exists w',
    train KMeans_fit lstsq options minimize input output num (Some r)
      kernel random_state keep_aspect verbose measure w
    = (Ok tt, w') /\
    centers (self w') = Some cs /\
    coeffs (self w') = Some c /\
    residual (self w') = Some rsd /\
    rbf (self w') = Some kernel /\
    radius (self w') = Some r /\
    stdout w' = stdout w /\
    forall x, np.wf x -> np.ncols x = np.ncols input ->
              exists p, predict x w' = (Ok p, w') /\
                        length p = np.nrows x.
Proof.
  intros Hwf Hrows HK Hwfc Hcols HL Hlen.
  rewrite adapt_normalization_run in HK, HL. cbn [snd self] in HK, HL.
  unfold train.
  rewrite (run_bind_Ok _ _ _ _ _
             (adapt_normalization_run input output keep_aspect w)).
  set (n1 := mkRBFnet _ _ _ _ _ _ _ _ _ _ _) in *.
  set (w1 := World n1 (stdout w)).
  assert (fits (input_shift n1) (np.ncols input)) as Hshift
    by (subst n1; cbn [input_shift fits]; unfold np.mean_axis0;
        now rewrite length_map, length_seq).
  assert (fits (input_scale n1) (np.ncols input)) as Hscale
    by (subst n1; cbn [input_scale]; destruct keep_aspect; cbn [fits];
        [trivial | unfold np.std_axis0; now rewrite length_map, length_seq]).
  assert (compute_centers KMeans_fit input num random_state w1
          = (Ok tt, World (set_centers cs n1) (stdout w))) as Hcc.
  { unfold compute_centers.
    rewrite (run_bind_Ok _ _ _ _ _
               (normalize_input_fits w1 input Hwf Hshift Hscale)).
    fold (normalized_rows (self w1) input). cbn [self w1].
    rewrite HK, run_lift_Ok. reflexivity. }
  rewrite (run_bind_Ok _ _ _ _ _ Hcc).
  rewrite (fit_weights_run lstsq _ input cs output r kernel);
    cbn [self set_centers centers input_shift input_scale];
    try assumption; try reflexivity; try congruence.
  change (normalized_rows (set_centers cs n1) input)
    with (normalized_rows n1 input).
  change (normalized_output (set_centers cs n1) output)
    with (normalized_output n1 output).
  rewrite HL.
  eexists. split; [reflexivity|]. cbn [self stdout].
  repeat (split; [reflexivity|]).
  intros x Hwx Hcx.
  eexists. rewrite (predict_run _ x cs c kernel r);
    cbn [self set_radius set_rbf set_residual set_coeffs set_centers
           centers coeffs rbf radius input_shift input_scale];
    try assumption; try reflexivity; try congruence.
  split; [reflexivity|].
  unfold normalized_rows, np.nrows. now rewrite !length_map.
Qed.

End Lifecycle.
(** ** The training error and the residual of the least-squares fit *)

Section TrainingError.
Local Open Scope R_scope.
Variable lstsq :
  np.matrix R -> list R -> res (list R * list R * nat * list R).

(** In exact arithmetic the sum accumulated by [predict] is the
    product of the row of the design matrix with the weights. *)
Lemma rbf_sum_dot (cs : list (list R)) (ws : list R) (kernel : R -> R)
  (r : R) (x : list R) :
  rbf_sum cs ws kernel r x
  = dot (map (fun c => basis kernel r x c) cs) ws.
Proof.
  unfold rbf_sum, dot, np.sum. real_ops. generalize 0.
  revert ws. induction cs as [|c cs IH]; intros [|v ws] a; simpl;
    try reflexivity.
  rewrite IH. f_equal. real_ops. ring.
Qed.

Lemma sum_square_swap (a b : list R) :
  np.sum (np.square (zip_with Rminus a b))
  = np.sum (np.square (zip_with Rminus b a)).
Proof.
  f_equal. unfold np.square. revert b.
  induction a as [|x a IH]; intros [|y b]; simpl; try reflexivity.
  rewrite IH. f_equal. real_ops. ring.
Qed.

(** After a weight fit, the prediction on the training input is, in
    normalised units, the design matrix times the fitted weights; and
    the RMS error between the normalised prediction and the normalised
    training output is the root of the mean squared residual of the
    linear system that was solved.  (The script at the end of the
    source prints this RMS error next to [sqrt(residual / N)] for the
    residual returned by the solver.) *)
Theorem training_error_is_residual
  (w : world R) (input cs : np.matrix R) (output : list R) (r : R)
  (kernel : R -> R) (c rsd sv : list R) (rk : nat) :
  centers (self w) = Some cs ->
  np.wf cs ->
  np.wf input ->
  np.nrows input = length output ->
  np.ncols input = np.ncols cs ->
  fits (input_shift (self w)) (np.ncols input) ->
  fits (input_scale (self w)) (np.ncols input) ->
  output_scale (self w) <> 0 ->
  lstsq (design (normalized_rows (self w) input) (np.rows cs) kernel r)
    (normalized_output (self w) output)
  = Ok (c, rsd, rk, sv) ->
  length c = np.nrows cs ->
  exists w' pred npred ntrue,
    fit_weights lstsq input output r kernel w = (Ok tt, w') /\
    predict input w' = (Ok pred, w') /\
    normalize_output pred w' = (Ok npred, w') /\
    normalize_output output w' = (Ok ntrue, w') /\
    npred
    = matvec (design (normalized_rows (self w) input) (np.rows cs) kernel r)
        c /\
    rms_error npred ntrue
    = Ok (sqrt (residual_sq
                  (design (normalized_rows (self w) input) (np.rows cs)
                     kernel r)
                  (normalized_output (self w) output) c
                / np.len pred)).
Proof.
  intros Hcs Hwfc Hwfi Hrows Hcols Hshift Hscale Hs HL Hlen.
  rewrite (fit_weights_run lstsq w input cs output r kernel) by assumption.
  rewrite HL.
  set (w' := World _ (stdout w)).
  assert (predict input w'
          = (Ok (map (fun x =>
                        rbf_sum (np.rows cs) c kernel r x
                        * output_scale (self w) + output_shift (self w))
                   (normalized_rows (self w) input)), w')) as Hpred.
  { rewrite (predict_run w' input cs c kernel r); subst w';
      cbn [self set_radius set_rbf set_residual set_coeffs centers coeffs
             rbf radius input_shift input_scale];
      try assumption; reflexivity. }
  exists w'. eexists. eexists. eexists.
  split; [reflexivity|]. split; [exact Hpred|].
  rewrite !normalize_output_run.
  split; [reflexivity|]. split; [reflexivity|].
  assert (normalized_output (self w')
            (map (fun x =>
                    rbf_sum (np.rows cs) c kernel r x
                    * output_scale (self w) + output_shift (self w))
               (normalized_rows (self w) input))
          = matvec
              (design (normalized_rows (self w) input) (np.rows cs) kernel r)
              c) as Hnp.
  { unfold normalized_output, matvec, design. cbn [np.rows].
    rewrite !map_map. apply map_ext. intros x. subst w'.
    cbn [self set_radius set_rbf set_residual set_coeffs output_shift
           output_scale].
    rewrite rbf_sum_dot. real_ops. field. assumption. }
  split; [exact Hnp|].
  rewrite Hnp. unfold rms_error. real_ops.
  assert (length (normalized_output (self w') output)
          = length (matvec
                      (design (normalized_rows (self w) input) (np.rows cs)
                         kernel r) c)) as Hl.
  { unfold normalized_output, matvec, design, normalized_rows.
    cbn [np.rows]. rewrite !length_map. unfold np.nrows in Hrows. lia. }
  rewrite broadcast1_same_length by exact Hl. cbn [res_bind].
  do 2 f_equal. unfold residual_sq, sqnorm.
  f_equal.
  - rewrite sum_square_swap. reflexivity.
  - unfold np.len. rewrite length_zip_with, Hl, !length_map.
    unfold matvec, design. cbn [np.rows]. rewrite !length_map.
    f_equal. f_equal. lia.
Qed.

End TrainingError.
(** ** The lifecycle theorems on examples *)

Section LifecycleExamples.
Local Open Scope R_scope.

(** The batch [[3], [1]] on [one_centre_net]. *)
Lemma predict_rowwise_witness :
  exists p q,
    predict (np.Matrix 1 [[3]]) one_centre_net = (Ok p, one_centre_net) /\
    predict (np.Matrix 1 [[1]]) one_centre_net = (Ok q, one_centre_net) /\
    predict (np.Matrix 1 ([[3]] ++ [[1]])) one_centre_net
    = (Ok (p ++ q), one_centre_net).
Proof.
  apply (predict_rowwise one_centre_net 1 [[3]] [[1]] (np.Matrix 1 [[0]])
           [2] gaussian 1); try reflexivity; try (repeat constructor).
Defined.

(** A network fresh from [__init__]. *)
Lemma network_without_centers_raises_witness :
  (exists e, predict (np.Matrix 1 [[3]]) (World __init__ [])
             = (Raise e, World __init__ []) /\
             (e = AttributeError \/ e = ValueError)) /\
  (exists e, fit_weights zero_weights (np.Matrix 1 [[3]]) [5] 1 gaussian
               (World __init__ [])
             = (Raise e, World __init__ []) /\
             (e = AttributeError \/ e = AssertionError \/ e = ValueError)) /\
  predict (np.Matrix 1 [[3]]) (World __init__ [])
  = (Raise AttributeError, World __init__ []) /\
  fit_weights zero_weights (np.Matrix 1 [[3]]) [5] 1 gaussian
    (World __init__ [])
  = (Raise AttributeError, World __init__ []).
Proof.
  destruct (network_without_centers_raises zero_weights (World __init__ [])
              (np.Matrix 1 [[3]]) [5] 1 gaussian)
    as (Hpredict & Hfit & Hfits); [reflexivity|].
  split; [exact Hpredict|]. split; [exact Hfit|].
  destruct Hfits as [Hp Hf]; [repeat constructor | exact I | exact I |].
  split; [exact Hp | apply Hf; reflexivity].
Defined.

(** Training on [[0], [2]] -> [0, 2] with one centre and radius 1. *)
Lemma train_then_predict_witness :
  exists w',
    train first_points zero_weights unit one_evaluation
      (np.Matrix 1 [[0]; [2]]) [0; 2] 1 (Some 1) gaussian None false
      (PyBool false) (PyFunction rms_error) (World __init__ [])
    = (Ok tt, w') /\
    centers (self w') = Some first_centre /\
    coeffs (self w') = Some [0] /\
    residual (self w') = Some [] /\
    rbf (self w') = Some gaussian /\
    radius (self w') = Some 1 /\
    stdout w' = stdout (World (T:=R) __init__ []) /\
    forall x, np.wf x -> np.ncols x = np.ncols (np.Matrix 1 [[0]; [2]]) ->
              exists p, predict x w' = (Ok p, w') /\
                        length p = np.nrows x.
Proof.
  apply (train_then_predict first_points zero_weights unit one_evaluation
           (np.Matrix 1 [[0]; [2]]) [0; 2] 1 1 gaussian None false
           (PyBool false) (PyFunction rms_error) (World __init__ [])
           first_centre [0] [] [] 0);
    try reflexivity; repeat constructor.
Defined.

(** The weight fit of [twin_centres_net] on [[0], [0]] -> [2, 2]. *)
Lemma training_error_is_residual_witness :
  exists w' pred npred ntrue,
    fit_weights unit_weights (np.Matrix 1 [[0]; [0]]) [2; 2] 1 gaussian
      twin_centres_net
    = (Ok tt, w') /\
    predict (np.Matrix 1 [[0]; [0]]) w' = (Ok pred, w') /\
    normalize_output pred w' = (Ok npred, w') /\
    normalize_output [2; 2] w' = (Ok ntrue, w') /\
    npred
    = matvec
        (design
           (normalized_rows (self twin_centres_net) (np.Matrix 1 [[0]; [0]]))
           (np.rows (np.Matrix 1 [[0]; [0]])) gaussian 1)
        [1; 1] /\
    rms_error npred ntrue
    = Ok (sqrt (residual_sq
                  (design
                     (normalized_rows (self twin_centres_net)
                        (np.Matrix 1 [[0]; [0]]))
                     (np.rows (np.Matrix 1 [[0]; [0]])) gaussian 1)
                  (normalized_output (self twin_centres_net) [2; 2]) [1; 1]
                / np.len pred)).
Proof.
  apply (training_error_is_residual unit_weights twin_centres_net
           (np.Matrix 1 [[0]; [0]]) (np.Matrix 1 [[0]; [0]]) [2; 2] 1
           gaussian [1; 1] [] [] 1);
    try reflexivity; try (repeat constructor).
  simpl. lra.
Defined.

End LifecycleExamples.
(** ** Verbosity is a side channel *)

Section Silent.
Context {T : Type} `{Scalar T}.

Lemma silent_ret {A} (a : A) : silent (ret a : M T A).
Proof. intros w1 w2 Hm. now split. Qed.

Lemma silent_lift {A} (r : res A) : silent (lift r : M T A).
Proof. intros w1 w2 Hm. now split. Qed.

Lemma silent_assert (b : bool) : silent (assert b : M T unit).
Proof. destruct b; [apply silent_ret | apply silent_lift]. Qed.

Lemma silent_get {A} (field : RBFnet T -> A) :
  (forall n1 n2, model_of n1 = model_of n2 -> field n1 = field n2) ->
  silent (get field).
Proof.
  intros Hf w1 w2 Hm. unfold get. simpl. split; [|assumption].
  f_equal. now apply Hf.
Qed.

Lemma silent_getattr {A} (field : RBFnet T -> option A) :
  (forall n1 n2, model_of n1 = model_of n2 -> field n1 = field n2) ->
  silent (getattr field).
Proof.
  intros Hf w1 w2 Hm. unfold getattr. rewrite (Hf _ _ Hm).
  destruct (field (self w2)); now split.
Qed.

Lemma silent_setattr (update : RBFnet T -> RBFnet T) :
  (forall n1 n2, model_of n1 = model_of n2 ->
                 model_of (update n1) = model_of (update n2)) ->
  silent (setattr update).
Proof. intros Hu w1 w2 Hm. unfold setattr. simpl. split; auto. Qed.

Lemma silent_bind {A B} (c : M T A) (k : A -> M T B) :
  silent c -> (forall a, silent (k a)) -> silent (x <- c ;; k x).
Proof.
  intros Hc Hk w1 w2 Hm. unfold bind.
  destruct (Hc w1 w2 Hm) as [Hr Hm'].
  destruct (c w1) as [[a1|e1] w1'], (c w2) as [[a2|e2] w2'];
    cbn [fst snd] in *; try discriminate.
  - injection Hr as ->. apply Hk. exact Hm'.
  - injection Hr as ->. split; [reflexivity | exact Hm'].
Qed.

Lemma silent_for_each {S} (body : nat -> S -> M T S) (idx : list nat)
  (s : S) :
  (forall j s', silent (body j s')) -> silent (for_each body idx s).
Proof.
  intros Hbody. revert s. induction idx as [|j idx IH]; intros s; simpl.
  - apply silent_ret.
  - apply silent_bind; [apply Hbody | intros s'; apply IH].
Qed.

Ltac model_fields :=
  let n1 := fresh "n" in
  let n2 := fresh "n" in
  let Hm := fresh "Hm" in
  intros n1 n2 Hm; unfold model_of, normalization_of in *;
  destruct n1, n2; simpl in *; congruence.

Ltac silent_steps :=
  repeat first
    [ apply silent_ret | apply silent_lift | apply silent_assert
    | apply silent_get; model_fields
    | apply silent_getattr; model_fields
    | apply silent_setattr; model_fields
    | apply silent_for_each; intros ? ?
    | match goal with
      | |- silent (let '(_, _) := ?p in _) => destruct p
      end
    | apply silent_bind; [|intros ?] ].

Variable lstsq :
  np.matrix T -> list T -> res (list T * list T * nat * list T).

Lemma silent_objective (input : np.matrix T) (output : list T)
  (kernel : T -> T) (measure : pyobj T) (x : T) :
  silent (objective lstsq input output kernel measure x).
Proof.
  unfold objective, fit_weights, fit_weights_matrix, predict,
    denormalize_output, normalize_input, normalize_output, for_range.
  silent_steps.
Qed.

(** An evaluation of the objective that returns has recorded its
    error. *)
Lemma objective_records_error (input : np.matrix T) (output : list T)
  (kernel : T -> T) (measure : pyobj T) (x : T) (w : world T) (y : T)
  (w' : world T) :
  objective lstsq input output kernel measure x w = (Ok y, w') ->
  error (self w') <> None.
Proof.
  revert w y w'. unfold objective.
  do 3 (apply returns_last; intros ?).
  intros w y w'. unfold bind, setattr, getattr. simpl.
  intros Heq. injection Heq as _ <-. discriminate.
Qed.

(** A report to the callback, once an error has been recorded: it
    returns and leaves the model as it was, whatever [verbose] is. *)
Lemma callback_model (verbose : pyobj T) (xk : T) (w : world T) :
  error (self w) <> None ->
  fcall (self w) <> None ->
  fst (callback verbose xk w) = Ok tt /\
  model_of (self (snd (callback verbose xk w))) = model_of (self w) /\
  fcall (self (snd (callback verbose xk w))) <> None.
Proof.
  intros He Hf. destruct (truth verbose) eqn:Hv.
  - destruct (fcall (self w)) as [n|] eqn:Hn; [|congruence].
    rewrite (callback_verbose verbose xk w n Hv Hn).
    destruct (error (self w)) as [e|] eqn:Herr; [|congruence].
    cbn [fst snd self]. split; [reflexivity|]. split; [|discriminate].
    unfold model_of, normalization_of. simpl. now rewrite Herr.
  - rewrite callback_quiet by assumption. simpl. auto.
Qed.

Lemma run_minimize_verbosity (input : np.matrix T) (output : list T)
  (kernel : T -> T) (measure verbose1 verbose2 : pyobj T)
  (o : optimizer T) :
  forall w1 w2,
    model_of (self w1) = model_of (self w2) ->
    fcall (self w1) <> None -> fcall (self w2) <> None ->
    evaluates_first o \/ error (self w1) <> None ->
    fst (run_minimize (objective lstsq input output kernel measure)
           (callback verbose1) o w1)
    = fst (run_minimize (objective lstsq input output kernel measure)
             (callback verbose2) o w2) /\
    model_of
      (self (snd (run_minimize (objective lstsq input output kernel measure)
                    (callback verbose1) o w1)))
    = model_of
        (self (snd (run_minimize
                      (objective lstsq input output kernel measure)
                      (callback verbose2) o w2))).
Proof.
  induction o as [x | x k IH | xk k IH]; intros w1 w2 Hm Hf1 Hf2 Hfirst;
    simpl.
  - now split.
  - unfold bind.
    destruct (silent_objective input output kernel measure x w1 w2 Hm)
      as [Hr Hm'].
    pose proof (objective_keeps_log lstsq input output kernel measure x w1)
      as Hk1.
    pose proof (objective_keeps_log lstsq input output kernel measure x w2)
      as Hk2.
    destruct (objective lstsq input output kernel measure x w1)
      as [[y1|e1] w1'] eqn:Ho1;
      destruct (objective lstsq input output kernel measure x w2)
        as [[y2|e2] w2'] eqn:Ho2;
      simpl in *; try discriminate.
    + injection Hr as ->. injection Hk1 as Hk1 _. injection Hk2 as Hk2 _.
      apply IH; [assumption | congruence | congruence |].
      right. eapply objective_records_error. exact Ho1.
    + now split.
  - assert (error (self w1) <> None) as He1 by (destruct Hfirst; tauto).
    assert (error (self w2) <> None) as He2.
    { unfold model_of in Hm. congruence. }
    destruct (callback_model verbose1 xk w1 He1 Hf1) as (Hr1 & Hm1 & Hf1').
    destruct (callback_model verbose2 xk w2 He2 Hf2) as (Hr2 & Hm2 & Hf2').
    unfold bind.
    destruct (callback verbose1 xk w1) as [[u1|e1] w1'];
      destruct (callback verbose2 xk w2) as [[u2|e2] w2'];
      simpl in *; try discriminate.
    apply IH; [congruence | assumption | assumption |].
    right. unfold model_of in Hm1. congruence.
Qed.

Variable options : Type.
Variable minimize : T -> T -> option options -> string -> optimizer T.

(** Verbosity is a side channel: two radius searches that differ only
    in [verbose] return or raise alike and leave the same model
    (normalisation, centres, weights, residual, kernel, radius and
    error), provided the minimizer evaluates the objective before it
    first reports an iterate, or an error is already recorded in the
    network.  (A verbose callback that is called first raises
    [AttributeError]: it prints [self.error], which does not exist
    yet.) *)
Theorem verbose_is_a_side_channel
  (input : np.matrix T) (output : list T) (kernel : T -> T)
  (measure verbose1 verbose2 : pyobj T) (method : string)
  (options_ : option options) (tol : T) (w : world T) :
  evaluates_first (minimize (of_Z 1) lit_1e_6 options_ method)
  \/ error (self w) <> None ->
  fst (fit_weights_and_radius lstsq options minimize input output kernel
         measure verbose1 method options_ tol w)
  = fst (fit_weights_and_radius lstsq options minimize input output kernel
           measure verbose2 method options_ tol w) /\
  model_of
    (self (snd (fit_weights_and_radius lstsq options minimize input output
                  kernel measure verbose1 method options_ tol w)))
  = model_of
      (self (snd (fit_weights_and_radius lstsq options minimize input output
                    kernel measure verbose2 method options_ tol w))).
Proof.
  intros Hfirst.
  rewrite !fit_weights_and_radius_from_start. cbn [fst snd].
  destruct (run_minimize_verbosity input output kernel measure verbose1
              verbose2 (minimize (of_Z 1) lit_1e_6 options_ method)
              (search_start verbose1 w) (search_start verbose2 w))
    as [Hr Hm]; try discriminate.
  - reflexivity.
  - destruct Hfirst; [now left | now right].
  - split; [now rewrite Hr | exact Hm].
Qed.

End Silent.

Section SilentExamples.
Local Open Scope R_scope.

(** A verbose and a quiet radius search on [one_centre_net]. *)
Lemma verbose_is_a_side_channel_witness :
  fst (fit_weights_and_radius zero_weights unit one_evaluation
         (np.Matrix 1 [[3]]) [5] gaussian (PyFunction rms_error)
         (PyBool true) default_method None default_tol one_centre_net)
  = fst (fit_weights_and_radius zero_weights unit one_evaluation
           (np.Matrix 1 [[3]]) [5] gaussian (PyFunction rms_error)
           (PyBool false) default_method None default_tol one_centre_net) /\
  model_of
    (self (snd (fit_weights_and_radius zero_weights unit one_evaluation
                  (np.Matrix 1 [[3]]) [5] gaussian (PyFunction rms_error)
                  (PyBool true) default_method None default_tol
                  one_centre_net)))
  = model_of
      (self (snd (fit_weights_and_radius zero_weights unit one_evaluation
                    (np.Matrix 1 [[3]]) [5] gaussian (PyFunction rms_error)
                    (PyBool false) default_method None default_tol
                    one_centre_net))).
Proof.
  apply (verbose_is_a_side_channel zero_weights unit one_evaluation
           (np.Matrix 1 [[3]]) [5] gaussian (PyFunction rms_error)
           (PyBool true) (PyBool false) default_method None default_tol
           one_centre_net).
  left. exact I.
Defined.

(** Where the minimizer reports before it evaluates, and no error is
    recorded, verbosity decides the outcome: the verbose search raises
    and the quiet one returns. *)
Example verbose_report_before_evaluation :
  fst (fit_weights_and_radius zero_weights unit report_first
         (np.Matrix 1 [[3]]) [5] gaussian (PyFunction rms_error)
         (PyBool true) default_method None default_tol one_centre_net)
  = Raise AttributeError /\
  fst (fit_weights_and_radius zero_weights unit report_first
         (np.Matrix 1 [[3]]) [5] gaussian (PyFunction rms_error)
         (PyBool false) default_method None default_tol one_centre_net)
  = Ok tt.
Proof. split; reflexivity. Qed.

End SilentExamples.
(** ** Refitting *)

Section Refit.
Context {T : Type} `{Scalar T}.
Variable lstsq :
  np.matrix T -> list T -> res (list T * list T * nat * list T).

(** A weight fit overwrites the one before it and does not depend on
    it: after a fit that returned, a second fit on the same data (with
    any radius and kernel) returns or raises as it would have without
    the first, and when it returns it leaves the same network.  (The
    radius sweep of the script relies on this.) *)
Theorem refit_overwrites (w : world T) (input cs : np.matrix T)
  (output : list T) (r1 r2 : T) (kernel1 kernel2 : T -> T) :
  centers (self w) = Some cs ->
  np.wf cs ->
  np.wf input ->
  np.nrows input = length output ->
  np.ncols input = np.ncols cs ->
  fits (input_shift (self w)) (np.ncols input) ->
  fits (input_scale (self w)) (np.ncols input) ->
  fst (fit_weights lstsq input output r1 kernel1 w) = Ok tt ->
  fst ((_ <- fit_weights lstsq input output r1 kernel1 ;;
        fit_weights lstsq input output r2 kernel2) w)
  = fst (fit_weights lstsq input output r2 kernel2 w) /\
  (fst (fit_weights lstsq input output r2 kernel2 w) = Ok tt ->
   snd ((_ <- fit_weights lstsq input output r1 kernel1 ;;
         fit_weights lstsq input output r2 kernel2) w)
   = snd (fit_weights lstsq input output r2 kernel2 w)).
Proof.
  intros Hcs Hwfc Hwfi Hrows Hcols Hshift Hscale.
  rewrite !(fit_weights_run lstsq w input cs output _ _) by assumption.
  destruct (lstsq (design (normalized_rows (self w) input) (np.rows cs)
                     kernel1 r1) (normalized_output (self w) output))
    as [[[[c1 res1] rk1] sv1]|e1] eqn:H1; [|discriminate].
  intros _.
  erewrite run_bind_Ok
    by (rewrite (fit_weights_run lstsq w input cs output r1 kernel1)
          by assumption; rewrite H1; reflexivity).
  rewrite (fit_weights_run lstsq _ input cs output r2 kernel2);
    cbn [self set_radius set_rbf set_residual set_coeffs centers
           input_shift input_scale];
    try assumption.
  change (normalized_rows
            (set_radius r1
               (set_rbf kernel1 (set_residual res1 (set_coeffs c1 (self w)))))
            input)
    with (normalized_rows (self w) input).
  change (normalized_output
            (set_radius r1
               (set_rbf kernel1 (set_residual res1 (set_coeffs c1 (self w)))))
            output)
    with (normalized_output (self w) output).
  destruct (lstsq (design (normalized_rows (self w) input) (np.rows cs)
                     kernel2 r2) (normalized_output (self w) output))
    as [[[[c2 res2] rk2] sv2]|e2]; cbn [fst snd].
  - split; [reflexivity|]. intros _. reflexivity.
  - split; [reflexivity|]. discriminate.
Qed.

End Refit.

Section RefitExample.
Local Open Scope R_scope.

(** Two fits of [twin_centres_net], with radius 1 and then radius 2. *)
Lemma refit_overwrites_witness :
  fst ((_ <- fit_weights unit_weights (np.Matrix 1 [[0]; [0]]) [2; 2] 1
               gaussian ;;
        fit_weights unit_weights (np.Matrix 1 [[0]; [0]]) [2; 2] 2 gaussian)
         twin_centres_net)
  = fst (fit_weights unit_weights (np.Matrix 1 [[0]; [0]]) [2; 2] 2 gaussian
           twin_centres_net) /\
  snd ((_ <- fit_weights unit_weights (np.Matrix 1 [[0]; [0]]) [2; 2] 1
               gaussian ;;
        fit_weights unit_weights (np.Matrix 1 [[0]; [0]]) [2; 2] 2 gaussian)
         twin_centres_net)
  = snd (fit_weights unit_weights (np.Matrix 1 [[0]; [0]]) [2; 2] 2 gaussian
           twin_centres_net).
Proof.
  assert (np.wf (np.Matrix 1 [[0]; [0]])) as Hwf by repeat constructor.
  destruct (refit_overwrites unit_weights twin_centres_net
              (np.Matrix 1 [[0]; [0]]) (np.Matrix 1 [[0]; [0]]) [2; 2] 1 2
              gaussian gaussian eq_refl Hwf Hwf eq_refl eq_refl I I eq_refl)
    as [Hresult Hstate].
  split; [exact Hresult | apply Hstate; reflexivity].
Defined.

End RefitExample.
(** ** Inputs whose columns do not match the normalisation *)

Section ColumnMismatch.
Context {T : Type} `{Scalar T}.

Lemma bvec_repeat (f : T -> T -> T) (x : T) (v : list T) :
  length v <> 1 ->
  np.bvec f (repeat x (length v)) v = np.bvec f [x] v.
Proof.
  intros Hv. destruct v as [|a [|b v]]; [reflexivity | now contradiction Hv |].
  cbn [length repeat np.bvec]. cbn [zip_with map]. do 2 f_equal.
  generalize v. intros l. induction l as [|c l IH]; simpl; [reflexivity|].
  now rewrite IH.
Qed.

(** Against a per-axis shift with [d <> 1] entries, a well-formed
    one-column input is normalised as its widening to [d] columns. *)
Lemma normalize_input_widen (w : world T) (X : np.matrix T) (v : list T) :
  input_shift (self w) = np.Vec v ->
  length v <> 1 ->
  np.ncols X = 1 ->
  np.wf X ->
  normalize_input X w = normalize_input (widen (length v) X) w.
Proof.
  intros Hshift Hv Hcols Hwf. unfold normalize_input.
  rewrite !run_get, Hshift.
  assert (np.broadcast2 fsub X (np.Vec v)
          = np.broadcast2 fsub (widen (length v) X) (np.Vec v)) as ->;
    [|reflexivity].
  unfold np.broadcast2, widen. cbn [np.ncols np.rows]. rewrite Hcols.
  rewrite bshape_same. unfold np.bshape.
  destruct (Nat.eqb_spec 1 (length v)) as [Heq|_]; [now contradiction Hv|].
  cbn [Nat.eqb res_bind]. do 2 f_equal. rewrite map_map.
  unfold np.wf in Hwf. rewrite Hcols in Hwf.
  induction Hwf as [|r rs Hr _ IH]; simpl; [reflexivity|].
  rewrite IH. f_equal.
  destruct r as [|x [|y r]]; try discriminate.
  now rewrite bvec_repeat.
Qed.

(** Against a per-axis shift with [d <> 1] entries, an input whose
    number of columns is neither [d] nor 1 cannot be normalised. *)
Lemma normalize_input_mismatch (w : world T) (X : np.matrix T) (v : list T) :
  input_shift (self w) = np.Vec v ->
  length v <> 1 ->
  np.ncols X <> length v ->
  np.ncols X <> 1 ->
  normalize_input X w = (Raise ValueError, w).
Proof.
  intros Hshift Hv Hd H1. unfold normalize_input.
  rewrite run_get, Hshift. unfold np.broadcast2, np.bshape.
  destruct (Nat.eqb_spec (np.ncols X) (length v)); [contradiction|].
  destruct (Nat.eqb_spec (np.ncols X) 1); [contradiction|].
  destruct (Nat.eqb_spec (length v) 1); [contradiction|].
  reflexivity.
Qed.

Variable KMeans_fit : nat -> option Z -> np.matrix T -> res (np.matrix T).
Variable lstsq :
  np.matrix T -> list T -> res (list T * list T * nat * list T).

(** How a network normalised along [d <> 1] axes treats an input with
    another number of columns.  A well-formed one-column input is
    accepted by [predict], [fit_weights] and [compute_centers]: numpy
    broadcasting repeats the column on all [d] axes, and each method
    does exactly what it does on the widened input.  An input whose
    number of columns is neither [d] nor 1 makes each of them raise
    [ValueError] and leave the state as it was. *)
Theorem column_mismatch_after_normalization
  (w : world T) (X : np.matrix T) (v : list T) (output : list T) (r : T)
  (kernel : T -> T) (num : nat) (random_state : option Z) :
  input_shift (self w) = np.Vec v ->
  length v <> 1 ->
  (np.ncols X = 1 -> np.wf X ->
   predict X w = predict (widen (length v) X) w /\
   fit_weights lstsq X output r kernel w
   = fit_weights lstsq (widen (length v) X) output r kernel w /\
   compute_centers KMeans_fit X num random_state w
   = compute_centers KMeans_fit (widen (length v) X) num random_state w) /\
  (np.ncols X <> length v -> np.ncols X <> 1 ->
   predict X w = (Raise ValueError, w) /\
   fit_weights lstsq X output r kernel w = (Raise ValueError, w) /\
   compute_centers KMeans_fit X num random_state w = (Raise ValueError, w)).
Proof.
  intros Hshift Hv. split.
  - intros Hcols Hwf.
    pose proof (normalize_input_widen w X v Hshift Hv Hcols Hwf) as Hn.
    unfold predict, fit_weights, compute_centers, bind.
    rewrite Hn. repeat split.
  - intros Hd H1.
    pose proof (normalize_input_mismatch w X v Hshift Hv Hd H1) as Hn.
    unfold predict, fit_weights, compute_centers, bind.
    rewrite Hn. repeat split.
Qed.

End ColumnMismatch.

Section ColumnMismatchExample.
Local Open Scope R_scope.

(** The network normalised on two columns, the one-column input
    [[5], [6]] and the three-column input [[1, 2, 3]]. *)
Lemma column_mismatch_after_normalization_witness :
  (predict one_column two_axis_net = predict (widen 2 one_column) two_axis_net
   /\
   fit_weights zero_weights one_column [0; 2] 1 gaussian two_axis_net
   = fit_weights zero_weights (widen 2 one_column) [0; 2] 1 gaussian
       two_axis_net /\
   compute_centers first_points one_column 1 None two_axis_net
   = compute_centers first_points (widen 2 one_column) 1 None two_axis_net)
  /\
  predict (np.Matrix 3 [[1; 2; 3]]) two_axis_net
  = (Raise ValueError, two_axis_net) /\
  fit_weights zero_weights (np.Matrix 3 [[1; 2; 3]]) [0] 1 gaussian
    two_axis_net
  = (Raise ValueError, two_axis_net) /\
  compute_centers first_points (np.Matrix 3 [[1; 2; 3]]) 1 None two_axis_net
  = (Raise ValueError, two_axis_net).
Proof.
  split.
  - apply (column_mismatch_after_normalization first_points zero_weights
             two_axis_net one_column
             (np.mean_axis0 two_columns) [0; 2] 1 gaussian 1 None);
      try reflexivity; try discriminate.
    repeat constructor.
  - apply (column_mismatch_after_normalization first_points zero_weights
             two_axis_net (np.Matrix 3 [[1; 2; 3]])
             (np.mean_axis0 two_columns) [0] 1 gaussian 1 None);
      try reflexivity; discriminate.
Defined.

(** The widened input: the column on both axes. *)
Example widen_one_column :
  widen 2 one_column = np.Matrix 2 [[5; 5]; [6; 6]].
Proof. reflexivity. Qed.

End ColumnMismatchExample.
(** ** The example network [trained_net] *)

Section TrainedNet.
Local Open Scope R_scope.

Lemma mean_pair (a b : R) : np.mean [a; b] = (a + b) / 2.
Proof. unfold np.mean, np.sum, np.len. simpl. f_equal. lra. Qed.

Lemma std_pair (a b : R) : np.std [a; b] = Rabs (b - a) / 2.
Proof.
  unfold np.std. rewrite var_eq, mean_pair.
  unfold np.square, np.sum, np.len. simpl.
  change (IZR (Z.of_nat 2)) with 2.
  replace ((0 + (a - (a + b) / 2) * (a - (a + b) / 2)
            + (b - (a + b) / 2) * (b - (a + b) / 2)) / 2)
    with (((b - a) / 2) * ((b - a) / 2)) by field.
  fold (Rsqr ((b - a) / 2)). rewrite sqrt_Rsqr_abs.
  unfold Rdiv. rewrite Rabs_mult. f_equal. apply Rabs_pos_eq. lra.
Qed.

(** [trained_net] is the network that training leaves: [train] with
    the radius 1 and two centres on [[0, 0], [2, 4]] -> [0, 4], with
    the stand-in clustering and solver. *)
Example trained_net_from_training :
  train first_points unit_weights unit one_evaluation two_columns [0; 4] 2
    (Some 1) gaussian None false (PyBool false) (PyFunction rms_error)
    (World __init__ [])
  = (Ok tt, trained_net).
Proof.
  unfold train.
  rewrite (run_bind_Ok _ _ _ _ _
             (adapt_normalization_run two_columns [0; 4] false
                (World __init__ []))).
  change (np.mean_axis0 two_columns) with [np.mean [0; 2]; np.mean [0; 4]].
  change (np.std_axis0 two_columns) with [np.std [0; 2]; np.std [0; 4]].
  rewrite !mean_pair, !std_pair.
  replace ((0 + 2) / 2) with 1 by lra.
  replace ((0 + 4) / 2) with 2 by lra.
  replace (Rabs (2 - 0) / 2) with 1
    by (rewrite Rabs_pos_eq by lra; lra).
  replace (Rabs (4 - 0) / 2) with 2
    by (rewrite Rabs_pos_eq by lra; lra).
  unfold compute_centers, fit_weights, bind, normalize_input, get, lift,
    setattr, first_points, unit_weights. simpl.
  replace ((0 - 1) / 1) with (-1) by lra.
  replace ((0 - 2) / 2) with (-1) by lra.
  replace ((2 - 1) / 1) with 1 by lra.
  replace ((4 - 2) / 2) with 1 by lra.
  reflexivity.
Qed.

End TrainedNet.

Section TrainedNetPrediction.
Local Open Scope R_scope.

(** Evaluation: at the point [1, 2], the mean of the training input,
    both centres are at the distance [sqrt 2], and the prediction is
    [(exp(-1) + exp(-1)) * 2 + 2]. *)
Example predict_trained_net :
  predict (np.Matrix 2 [[1; 2]]) trained_net
  = (Ok [(exp (-1) + exp (-1)) * 2 + 2], trained_net).
Proof.
  rewrite (predict_run trained_net (np.Matrix 2 [[1; 2]])
             (np.Matrix 2 [[-1; -1]; [1; 1]]) [1; 1] gaussian 1);
    try reflexivity; try (repeat constructor; fail).
  unfold normalized_rows, rbf_sum, basis, distance, np.norm, np.square,
    np.sum, gaussian.
  cbn [np.rows np.ncols map zip zip_with fold_left per_axis self
         trained_net input_shift input_scale output_shift output_scale
         fst snd]. real_ops.
  replace (0 + ((1 - 1) / 1 - -1) * ((1 - 1) / 1 - -1)
           + ((2 - 2) / 2 - -1) * ((2 - 2) / 2 - -1)) with 2 by lra.
  replace (0 + ((1 - 1) / 1 - 1) * ((1 - 1) / 1 - 1)
           + ((2 - 2) / 2 - 1) * ((2 - 2) / 2 - 1)) with 2 by lra.
  replace (- (5 / 10) * (sqrt 2 / 1 * (sqrt 2 / 1))) with (-1).
  - do 3 f_equal. lra.
  - unfold Rdiv. rewrite Rinv_1, Rmult_1_r, sqrt_sqrt by lra. lra.
Qed.

End TrainedNetPrediction.
